(** * Site inspector: geometry kernel and workflow state machines

    A shallow embedding of the geometric and workflow code of the site
    inspector (SiteBoundaryManager, SiteInspectorCore, PropertySetbacksManager
    and FloorplanManager) and the properties of it that the specification
    states.

    Numbers.  Coordinates are JavaScript doubles in the source.  They are
    embedded as real numbers: rounding, NaN and the infinities are not
    modelled for coordinates, and [===] on two coordinates is equality of
    reals.  The setback distances, which the source obtains with
    [parseFloat] and tests for truthiness, are embedded in the separate type
    [JS.number], which does have NaN. *)

From Stdlib Require Import Ascii String.
From Stdlib Require Import Reals Lra List Arith Lia Bool ZArith.
From Stdlib Require QArith PrimFloat.
Import ListNotations.

Set Implicit Arguments.

(** ** Comparisons of reals as booleans *)

Definition Reqb (a b : R) : bool := if Req_dec_T a b then true else false.
Definition Rltb (a b : R) : bool := if Rlt_dec a b then true else false.

(** A point is the two-element array [[lng, lat]] of the source. *)
Definition Point : Type := (R * R)%type.

Definition lng (p : Point) : R := fst p.
Definition lat (p : Point) : R := snd p.

(** An object with the fields [lng] and [lat], such as [event.lngLat]. *)
Record LngLat : Type := mkLngLat { lngOf : R; latOf : R }.

(** [coordinates[i]] for an index the loops keep in range. *)
Definition at_ (c : list Point) (i : nat) : Point := nth i c (0%R, 0%R).

(** [arr.slice(0, -1)] *)
Definition slice_0_m1 (A : Type) (l : list A) : list A := removelast l.

(** A ring given by its vertices [v], closed by repeating the first vertex;
    the same ring started [k] vertices later. *)
Definition closeRing (v : list Point) : list Point := v ++ [at_ v 0].
Definition rotateRing (k : nat) (v : list Point) : list Point :=
  skipn k v ++ firstn k v.

(** ** SiteBoundaryManager *)

Module SiteBoundaryManager.

Local Open Scope R_scope.

Record Edge : Type := mkEdge
  { index : nat; start : Point; end_ : Point; midpoint : Point }.

(** The ring whose vertices are indexed: an explicit closing point is
    dropped when the array has more than three entries. *)
Definition coordsToProcess (coordinates : list Point) : list Point :=
  if (3 <? length coordinates)%nat
     && Reqb (lng (at_ coordinates 0)) (lng (at_ coordinates (length coordinates - 1)))
     && Reqb (lat (at_ coordinates 0)) (lat (at_ coordinates (length coordinates - 1)))
  then slice_0_m1 coordinates
  else coordinates.

(** One iteration of the loop of [calculatePolygonEdges].  The guard
    [start && end] is the match on [nth_error]; [start.length >= 2] holds
    of every [Point]. *)
Definition pushEdge (cs : list Point) (edges : list Edge) (i : nat) : list Edge :=
  match nth_error cs i, nth_error cs ((i + 1) mod length cs) with
  | Some s, Some e =>
      edges ++ [ {| index := i; start := s; end_ := e;
                    midpoint := ((lng s + lng e) / 2, (lat s + lat e) / 2) |} ]
  | _, _ => edges
  end.

(** [calculatePolygonEdges(coordinates)]; [None] is a null or undefined
    argument. *)
Definition calculatePolygonEdges (coordinates : option (list Point)) : list Edge :=
  match coordinates with
  | None => []
  | Some c =>
      if (length c <? 3)%nat then []
      else
        let cs := coordsToProcess c in
        fold_left (pushEdge cs) (seq 0 (length cs)) []
  end.

(** [calculatePolygonAreaFallback(coordinates)]: the planar shoelace sum. *)
Definition shoelaceStep (c : list Point) (area : R) (i : nat) : R :=
  let j := ((i + 1) mod (length c - 1))%nat in
  let area := area + lng (at_ c i) * lat (at_ c j) in
  area - lng (at_ c j) * lat (at_ c i).

Definition calculatePolygonAreaFallback (coordinates : option (list Point)) : R :=
  match coordinates with
  | None => 0
  | Some c =>
      if (length c <? 3)%nat then 0
      else Rabs (fold_left (shoelaceStep c) (seq 0 (length c - 1)) 0) / 2
  end.

(** [Math.atan2(y, x)] on reals. *)
Definition Math_atan2 (y x : R) : R :=
  if Rltb 0 x then atan (y / x)
  else if Rltb x 0 then
         (if Rltb y 0 then atan (y / x) - PI else atan (y / x) + PI)
  else if Rltb 0 y then PI / 2
  else if Rltb y 0 then - (PI / 2)
  else 0.

(** [calculateDistance(lon1, lat1, lon2, lat2)]: haversine distance. *)
Definition calculateDistance (lon1 lat1 lon2 lat2 : R) : R :=
  let R_ := 6371000 in
  let phi1 := lat1 * PI / 180 in
  let phi2 := lat2 * PI / 180 in
  let dphi := (lat2 - lat1) * PI / 180 in
  let dlambda := (lon2 - lon1) * PI / 180 in
  let a := sin (dphi / 2) * sin (dphi / 2)
           + cos phi1 * cos phi2 * sin (dlambda / 2) * sin (dlambda / 2) in
  let c := 2 * Math_atan2 (sqrt a) (sqrt (1 - a)) in
  R_ * c.

Definition perimeterStep (c : list Point) (perimeter : R) (i : nat) : R :=
  let s := at_ c i in
  let e := at_ c (i + 1) in
  perimeter + calculateDistance (lng s) (lat s) (lng e) (lat e).

Definition calculatePolygonPerimeter (coordinates : option (list Point)) : R :=
  match coordinates with
  | None => 0
  | Some c =>
      if (length c <? 3)%nat then 0
      else fold_left (perimeterStep c) (seq 0 (length c - 1)) 0
  end.

(** [calculatePolygonArea(coordinates)].  The geodesic area comes from the
    turf library, which is not part of the repository: [turf_area] is its
    result, [None] when [turf.polygon] or [turf.area] throws. *)
Section Area.
Variable turf_area : list Point -> option R.

Definition calculatePolygonArea (coordinates : option (list Point)) : R :=
  match coordinates with
  | None => 0
  | Some c =>
      if (length c <? 3)%nat then 0
      else match turf_area c with
           | Some a => a
           | None => calculatePolygonAreaFallback (Some c)
           end
  end.
End Area.

(** [handleMapClick(e)] while MapboxDraw is in [draw_polygon] mode: the
    tracked point list after the click. *)
Record State : Type := mkState
  { drawMode_is_draw_polygon : bool; drawingPoints : list Point }.

Definition nearLast (drawingPoints : list Point) (newPoint : Point) : bool :=
  match nth_error drawingPoints (length drawingPoints - 1) with
  | None => false
  | Some lastPoint =>
      Rltb (Rabs (lng lastPoint - lng newPoint)) 0.000001
      && Rltb (Rabs (lat lastPoint - lat newPoint)) 0.000001
  end.

Definition handleMapClick (st : State) (lngLat : LngLat) : State :=
  if negb (drawMode_is_draw_polygon st) then st
  else
    let newPoint := (lngOf lngLat, latOf lngLat) in
    if nearLast (drawingPoints st) newPoint then st
    else {| drawMode_is_draw_polygon := drawMode_is_draw_polygon st;
            drawingPoints := drawingPoints st ++ [newPoint] |}.

End SiteBoundaryManager.

(** ** JavaScript numbers obtained with [parseFloat] *)

Module JS.

(** A number that may be NaN.  Finite values are exact rationals (the
    rounding of a decimal literal to a double is not modelled). *)
Inductive number : Type :=
| NaN
| Num (q : QArith_base.Q)
| Infinity (negative : bool).

Inductive value : Type :=
| Undefined
| Null
| Bool (b : bool)
| Number (n : number)
| Str (s : string).

(** [ToBoolean] on a number: NaN and zero are falsy. *)
Definition truthy (n : number) : bool :=
  match n with
  | NaN => false
  | Num q => negb (QArith_base.Qeq_bool q (QArith_base.Qmake 0 1))
  | Infinity _ => true
  end.

(** [n || d] for numbers. *)
Definition or_default (n d : number) : number := if truthy n then n else d.

Definition isDigit (c : ascii) : bool :=
  let n := nat_of_ascii c in (48 <=? n)%nat && (n <=? 57)%nat.
Definition digitVal (c : ascii) : Z := Z.of_nat (nat_of_ascii c - 48).
Definition isWhite (c : ascii) : bool :=
  let n := nat_of_ascii c in
  (n =? 32)%nat || ((9 <=? n)%nat && (n <=? 13)%nat).

Fixpoint skipWhite (cs : list ascii) : list ascii :=
  match cs with
  | c :: r => if isWhite c then skipWhite r else cs
  | [] => []
  end.

(** Decimal digits at the front of [cs]: their value on top of [acc],
    how many there are, and the rest. *)
Fixpoint takeDigits (cs : list ascii) (acc : Z) (n : nat) : Z * nat * list ascii :=
  match cs with
  | c :: r => if isDigit c then takeDigits r (10 * acc + digitVal c)%Z (S n)
              else (acc, n, cs)
  | [] => (acc, n, [])
  end.

Definition takeSign (cs : list ascii) : bool * list ascii :=
  match cs with
  | "-"%char :: r => (true, r)
  | "+"%char :: r => (false, r)
  | _ => (false, cs)
  end.

Fixpoint startsWith (p cs : list ascii) : bool :=
  match p, cs with
  | [], _ => true
  | a :: p', c :: r => Ascii.eqb a c && startsWith p' r
  | _ :: _, [] => false
  end.

Definition exponentOf (cs : list ascii) : Z :=
  match cs with
  | c :: r =>
      if Ascii.eqb c "e" || Ascii.eqb c "E" then
        let '(neg, r') := takeSign r in
        let '(ev, ne, _) := takeDigits r' 0%Z 0 in
        if (ne =? 0)%nat then 0%Z else if neg then (- ev)%Z else ev
      else 0%Z
  | [] => 0%Z
  end.

(** [parseFloat] on a string: the longest prefix, after leading white
    space, that is a decimal literal. *)
Definition parseFloatChars (cs : list ascii) : number :=
  let cs := skipWhite cs in
  let '(neg, cs) := takeSign cs in
  if startsWith (list_ascii_of_string "Infinity") cs then Infinity neg
  else
    let '(ip, ni, cs1) := takeDigits cs 0%Z 0 in
    let '(m, nf, cs2) :=
      match cs1 with
      | "."%char :: r => takeDigits r ip 0
      | _ => (ip, 0, cs1)
      end in
    if (ni + nf =? 0)%nat then NaN
    else
      let e := (exponentOf cs2 - Z.of_nat nf)%Z in
      let q := QArith_base.Qmult (QArith_base.Qmake m 1)
                 (QArith_base.Qpower (QArith_base.Qmake 10 1) e) in
      Num (Qreduction.Qred (if neg then QArith_base.Qopp q else q)).

(** [parseFloat(v)]: the argument is converted to a string first; a
    number goes through its decimal form and comes back as it was. *)
Definition parseFloat (v : value) : number :=
  match v with
  | Str s => parseFloatChars (list_ascii_of_string s)
  | Number n => n
  | Undefined | Null | Bool _ => NaN
  end.

End JS.

(** ** PropertySetbacksManager *)

Module PropertySetbacksManager.

Local Open Scope R_scope.

Definition Edge := SiteBoundaryManager.Edge.

Record SelectedEdges : Type := mkSelected
  { front : option Edge; back : option Edge }.

Record State : Type := mkState
  { polygonEdges : list Edge;
    selectedEdges : SelectedEdges;
    isEdgeSelectionMode : bool }.

(** The state of the constructor. *)
Definition initial : State :=
  {| polygonEdges := [];
     selectedEdges := {| front := None; back := None |};
     isEdgeSelectionMode := false |}.

Definition distanceToLineSegment (point lineStart lineEnd : Point) : R :=
  let A := lng point - lng lineStart in
  let B := lat point - lat lineStart in
  let C := lng lineEnd - lng lineStart in
  let D := lat lineEnd - lat lineStart in
  let dot := A * C + B * D in
  let lenSq := C * C + D * D in
  let param := if negb (Reqb lenSq 0) then dot / lenSq else -1 in
  let xx := if Rltb param 0 then lng lineStart
            else if Rltb 1 param then lng lineEnd
            else lng lineStart + param * C in
  let yy := if Rltb param 0 then lat lineStart
            else if Rltb 1 param then lat lineEnd
            else lat lineStart + param * D in
  let dx := lng point - xx in
  let dy := lat point - yy in
  sqrt (dx * dx + dy * dy).

(** The loop state of [findNearestEdge] is [(nearestEdge, minDistance)];
    a [minDistance] of [None] is [Infinity]. *)
Definition nearestStep (clickPoint : Point) (acc : option Edge * option R)
           (edge : Edge) : option Edge * option R :=
  let distance := distanceToLineSegment clickPoint
                    (SiteBoundaryManager.start edge) (SiteBoundaryManager.end_ edge) in
  let belowMin := match snd acc with
                  | None => true
                  | Some minDistance => Rltb distance minDistance
                  end in
  if belowMin && Rltb distance 0.0001 then (Some edge, Some distance) else acc.

Definition findNearestEdge (edges : list Edge) (clickPoint : Point) : option Edge :=
  fst (fold_left (nearestStep clickPoint) edges (None, None)).

Definition setFront (st : State) (e : Edge) : State :=
  {| polygonEdges := polygonEdges st;
     selectedEdges := {| front := Some e; back := back (selectedEdges st) |};
     isEdgeSelectionMode := isEdgeSelectionMode st |}.

Definition setBack (st : State) (e : Edge) : State :=
  {| polygonEdges := polygonEdges st;
     selectedEdges := {| front := front (selectedEdges st); back := Some e |};
     isEdgeSelectionMode := isEdgeSelectionMode st |}.

Definition enterEdgeSelectionMode (st : State) : State :=
  match polygonEdges st with
  | [] => st
  | _ :: _ => {| polygonEdges := polygonEdges st;
                 selectedEdges := selectedEdges st;
                 isEdgeSelectionMode := true |}
  end.

Definition exitEdgeSelectionMode (st : State) : State :=
  {| polygonEdges := polygonEdges st;
     selectedEdges := selectedEdges st;
     isEdgeSelectionMode := false |}.

Definition clearEdgeSelections (st : State) : State :=
  {| polygonEdges := polygonEdges st;
     selectedEdges := {| front := None; back := None |};
     isEdgeSelectionMode := isEdgeSelectionMode st |}.

(** What both click handlers do with the edge a click resolved to. *)
Definition select (st : State) (selectedEdge : Edge) : State :=
  match front (selectedEdges st) with
  | None => setFront st selectedEdge
  | Some f =>
      match back (selectedEdges st) with
      | None =>
          if negb (SiteBoundaryManager.index selectedEdge =? SiteBoundaryManager.index f)%nat
          then exitEdgeSelectionMode (setBack st selectedEdge)
          else st
      | Some _ => st
      end
  end.

(** [handleEdgeSelection(e)], the map click handler; [None] is an event
    without [lngLat]. *)
Definition handleEdgeSelection (st : State) (e : option LngLat) : State :=
  if negb (isEdgeSelectionMode st) then st
  else
    match e with
    | None => st
    | Some lngLat =>
        let clickPoint := (lngOf lngLat, latOf lngLat) in
        match findNearestEdge (polygonEdges st) clickPoint with
        | Some selectedEdge => select st selectedEdge
        | None => st
        end
    end.

(** The click handler of the label of edge [index]. *)
Definition handleLabelClick (st : State) (index : nat) : State :=
  if isEdgeSelectionMode st then
    match nth_error (polygonEdges st) index with
    | Some selectedEdge => select st selectedEdge
    | None => st
    end
  else st.

(** What happens to the selection, one event at a time. *)
Inductive SelectionEvent : Type :=
| MapClick (e : option LngLat)
| LabelClick (index : nat)
| EnterSelection
| ExitSelection
| ClearSelections.

Definition applyEvent (st : State) (ev : SelectionEvent) : State :=
  match ev with
  | MapClick e => handleEdgeSelection st e
  | LabelClick index => handleLabelClick st index
  | EnterSelection => enterEdgeSelectionMode st
  | ExitSelection => exitEdgeSelectionMode st
  | ClearSelections => clearEdgeSelections st
  end.

(** The values of the three setback inputs; [None] is a missing element,
    whose [?.value] is undefined. *)
Record Inputs : Type := mkInputs
  { in_frontSetback : option string;
    in_backSetback : option string;
    in_sideSetback : option string }.

Definition inputValue (i : option string) : JS.value :=
  match i with None => JS.Undefined | Some s => JS.Str s end.

(** The payload of the events [preview-buildable-area] and
    [recalculate-buildable-area]. *)
Record Payload : Type := mkPayload
  { frontSetback : JS.value;
    backSetback : JS.value;
    sideSetback : JS.value;
    p_selectedEdges : SelectedEdges;
    p_polygonEdges : list Edge;
    isPreview : bool }.

Definition bothSelected (sel : SelectedEdges) : bool :=
  match front sel, back sel with Some _, Some _ => true | _, _ => false end.

Definition defaultFront : JS.number := JS.Num (QArith_base.Qmake 9 2).
Definition defaultBack : JS.number := JS.Num (QArith_base.Qmake 7 2).
Definition defaultSide : JS.number := JS.Num (QArith_base.Qmake 3 2).

Definition readSetbacks (inputs : Inputs) : JS.number * JS.number * JS.number :=
  (JS.or_default (JS.parseFloat (inputValue (in_frontSetback inputs))) defaultFront,
   JS.or_default (JS.parseFloat (inputValue (in_backSetback inputs))) defaultBack,
   JS.or_default (JS.parseFloat (inputValue (in_sideSetback inputs))) defaultSide).

(** [calculateBuildableAreaPreview()]: the event it emits, if any. *)
Definition calculateBuildableAreaPreview (st : State) (inputs : Inputs) : option Payload :=
  if negb (bothSelected (selectedEdges st)) then None
  else
    let '(f, b, s) := readSetbacks inputs in
    Some {| frontSetback := JS.Number f; backSetback := JS.Number b;
            sideSetback := JS.Number s;
            p_selectedEdges := selectedEdges st;
            p_polygonEdges := polygonEdges st;
            isPreview := true |}.

(** [recalculateBuildableArea()]: the event it emits, if any. *)
Definition recalculateBuildableArea (st : State) (inputs : Inputs) : option Payload :=
  if negb (bothSelected (selectedEdges st)) then None
  else
    let '(f, b, s) := readSetbacks inputs in
    Some {| frontSetback := JS.Number f; backSetback := JS.Number b;
            sideSetback := JS.Number s;
            p_selectedEdges := selectedEdges st;
            p_polygonEdges := polygonEdges st;
            isPreview := false |}.

End PropertySetbacksManager.

(** ** Site data shared through the global inspector object *)

(** An entry of [siteData.coordinates] as a JavaScript value: either an
    array [[lng, lat]] or an object with the fields [lng] and [lat]. *)
Inductive Coord : Type :=
| CoordArray (p : Point)
| CoordObject (o : LngLat).

(** Property access [coord.lng] and [coord.lat]; [None] is [undefined],
    which is what an array answers. *)
Definition prop_lng (c : Coord) : option R :=
  match c with CoordArray _ => None | CoordObject o => Some (lngOf o) end.
Definition prop_lat (c : Coord) : option R :=
  match c with CoordArray _ => None | CoordObject o => Some (latOf o) end.

Record SiteData : Type := mkSiteData
  { sd_coordinates : option (list Coord);
    sd_area : option R;
    sd_center : option LngLat }.

(** ** FloorplanManager *)

Module FloorplanManager.

Local Open Scope R_scope.

Record Properties : Type := mkProperties
  { p_locked : bool; p_rotation : option R; p_scale : option R }.

(** The GeoJSON feature of the footprint; [coordinates] is
    [geometry.coordinates], the array of rings. *)
Record Feature : Type := mkFeature
  { properties : Properties; coordinates : list (list Point) }.

Record Transform : Type := mkTransform { t_rotation : R; t_scale : R }.

Record State : Type := mkState
  { geojsonPolygon : option Feature;
    isLocked : bool;
    isDrawing : bool;
    drawingPoints : list Point;
    currentTransform : Transform;
    rotationCenter : option LngLat }.

(** The state of the constructor. *)
Definition initial : State :=
  {| geojsonPolygon := None; isLocked := false; isDrawing := false;
     drawingPoints := [];
     currentTransform := {| t_rotation := 0; t_scale := 1 |};
     rotationCenter := None |}.

(** Numbers that may be [undefined]: a relational comparison with
    [undefined] is false and arithmetic on it gives NaN, which compares
    false as well.  [None] stands for both. *)
Definition js_gt (a b : option R) : bool :=
  match a, b with Some x, Some y => Rltb y x | _, _ => false end.
Definition js_lt (a b : option R) : bool :=
  match a, b with Some x, Some y => Rltb x y | _, _ => false end.
Definition js_op (f : R -> R -> R) (a b : option R) : option R :=
  match a, b with Some x, Some y => Some (f x y) | _, _ => None end.

(** One iteration of the loop of [pointInPolygon]; the loop state is
    [(inside, j)]. *)
Definition crossing (x y : R) (polygon : list (option R * option R))
           (i j : nat) : bool :=
  let pi := nth i polygon (None, None) in
  let pj := nth j polygon (None, None) in
  let xi := fst pi in let yi := snd pi in
  let xj := fst pj in let yj := snd pj in
  xorb (js_gt yi (Some y)) (js_gt yj (Some y))
  && js_lt (Some x)
       (js_op Rplus
          (js_op Rdiv (js_op Rmult (js_op Rminus xj xi) (js_op Rminus (Some y) yi))
                      (js_op Rminus yj yi))
          xi).

Definition pointInPolygonStep (x y : R) (polygon : list (option R * option R))
           (acc : bool * nat) (i : nat) : bool * nat :=
  let '(inside, j) := acc in
  ((if crossing x y polygon i j then negb inside else inside), i).

Definition pointInPolygon (point : Point) (polygon : list (option R * option R)) : bool :=
  let x := fst point in
  let y := snd point in
  fst (fold_left (pointInPolygonStep x y polygon)
                 (seq 0 (length polygon)) (false, length polygon - 1)%nat).

(** [isPointWithinSiteBoundary(lngLat)]; the argument [siteData] is
    [window.siteInspector?.siteData], [None] when it is undefined. *)
Definition isPointWithinSiteBoundary (siteData : option SiteData) (lngLat : LngLat) : bool :=
  match siteData with
  | None => true
  | Some sd =>
      match sd_coordinates sd with
      | None => true
      | Some coords =>
          let point := (lngOf lngLat, latOf lngLat) in
          let polygon := map (fun coord => (prop_lng coord, prop_lat coord)) coords in
          pointInPolygon point polygon
      end
  end.

Definition addDrawingPoint (st : State) (lngLat : LngLat) : State :=
  {| geojsonPolygon := geojsonPolygon st; isLocked := isLocked st;
     isDrawing := isDrawing st;
     drawingPoints := drawingPoints st ++ [(lngOf lngLat, latOf lngLat)];
     currentTransform := currentTransform st;
     rotationCenter := rotationCenter st |}.

Definition handleMapClick (siteData : option SiteData) (st : State) (lngLat : LngLat) : State :=
  if negb (isDrawing st) then st
  else if negb (isPointWithinSiteBoundary siteData lngLat) then st
  else addDrawingPoint st lngLat.

(** [finishDrawing()]; [stopDrawingMode] leaves drawing mode and empties
    the point list. *)
Definition closePoints (exactPoints : list Point) : list Point :=
  let firstPoint := at_ exactPoints 0 in
  let lastPoint := at_ exactPoints (length exactPoints - 1) in
  if negb (Reqb (lng firstPoint) (lng lastPoint))
     || negb (Reqb (lat firstPoint) (lat lastPoint))
  then exactPoints ++ [(lng firstPoint, lat firstPoint)]
  else exactPoints.

Definition finishDrawing (st : State) : State :=
  if (length (drawingPoints st) <? 3)%nat then st
  else
    {| geojsonPolygon :=
         Some {| properties := {| p_locked := false; p_rotation := None; p_scale := None |};
                 coordinates := [closePoints (drawingPoints st)] |};
       isLocked := isLocked st;
       isDrawing := false;
       drawingPoints := [];
       currentTransform := currentTransform st;
       rotationCenter := rotationCenter st |}.

(** The transformations read [geojsonPolygon.geometry.coordinates[0]] and
    write it back.  [None] is a TypeError: no polygon, no first ring, or a
    ring with a point to map and no rotation centre. *)
Definition setRing (st : State) (g : Feature) (props : Properties)
           (xf : Transform) (ring : list Point) (rest : list (list Point)) : State :=
  {| geojsonPolygon := Some {| properties := props; coordinates := ring :: rest |};
     isLocked := isLocked st; isDrawing := isDrawing st;
     drawingPoints := drawingPoints st;
     currentTransform := xf;
     rotationCenter := rotationCenter st |}.

Definition translatePolygon (st : State) (deltaLng deltaLat : R) : option State :=
  match geojsonPolygon st with
  | None => None
  | Some g =>
      match coordinates g with
      | [] => None
      | coords :: rest =>
          Some (setRing st g (properties g) (currentTransform st)
                  (map (fun coord => (lng coord + deltaLng, lat coord + deltaLat)) coords)
                  rest)
      end
  end.

(** [coords.map(f)] where [f] reads the fields of [center]: it throws on
    the first point when [center] is null. *)
Definition mapAround (f : LngLat -> Point -> Point) (center : option LngLat)
           (coords : list Point) : option (list Point) :=
  match center, coords with
  | Some c, _ => Some (map (f c) coords)
  | None, [] => Some []
  | None, _ :: _ => None
  end.

Definition rotatePoint (rotationDelta : R) (center : LngLat) (coord : Point) : Point :=
  let x := lng coord - lngOf center in
  let y := lat coord - latOf center in
  let rotatedX := x * cos rotationDelta - y * sin rotationDelta in
  let rotatedY := x * sin rotationDelta + y * cos rotationDelta in
  (rotatedX + lngOf center, rotatedY + latOf center).

Definition rotatePolygon (st : State) (rotationDelta : R) : option State :=
  match geojsonPolygon st with
  | None => None
  | Some g =>
      match coordinates g with
      | [] => None
      | coords :: rest =>
          match mapAround (rotatePoint rotationDelta) (rotationCenter st) coords with
          | None => None
          | Some ring =>
              let rotation := t_rotation (currentTransform st) + rotationDelta in
              Some (setRing st g
                      {| p_locked := p_locked (properties g);
                         p_rotation := Some rotation;
                         p_scale := p_scale (properties g) |}
                      {| t_rotation := rotation;
                         t_scale := t_scale (currentTransform st) |}
                      ring rest)
          end
      end
  end.

Definition scalePoint (scaleFactor : R) (center : LngLat) (coord : Point) : Point :=
  let x := (lng coord - lngOf center) * scaleFactor in
  let y := (lat coord - latOf center) * scaleFactor in
  (x + lngOf center, y + latOf center).

Definition scalePolygon (st : State) (scaleFactor : R) : option State :=
  match geojsonPolygon st with
  | None => None
  | Some g =>
      match coordinates g with
      | [] => None
      | coords :: rest =>
          match mapAround (scalePoint scaleFactor) (rotationCenter st) coords with
          | None => None
          | Some ring =>
              let scale := t_scale (currentTransform st) * scaleFactor in
              Some (setRing st g
                      {| p_locked := p_locked (properties g);
                         p_rotation := p_rotation (properties g);
                         p_scale := Some scale |}
                      {| t_rotation := t_rotation (currentTransform st);
                         t_scale := scale |}
                      ring rest)
          end
      end
  end.

(** [geojsonPolygon.geometry.coordinates[0]] when there is one. *)
Definition ringOf (st : State) : option (list Point) :=
  match geojsonPolygon st with
  | None => None
  | Some g => hd_error (coordinates g)
  end.



(** [this.interaction.rotationCenter = center], as [startRotation] and
    [startScaling] do. *)
Definition setRotationCenter (st : State) (center : option LngLat) : State :=
  {| geojsonPolygon := geojsonPolygon st; isLocked := isLocked st;
     isDrawing := isDrawing st; drawingPoints := drawingPoints st;
     currentTransform := currentTransform st;
     rotationCenter := center |}.




End FloorplanManager.

(** ** SiteInspectorCore *)

Module SiteInspectorCore.

Import PropertySetbacksManager.

(** [handleSiteBoundaryCreated(data)]: the coordinates of
    the event, which SiteBoundaryManager emits as an array of [[lng, lat]]
    arrays, are stored as they are; the centre is the mean of the points. *)
Definition handleSiteBoundaryCreated (data_coordinates : list Point) (data_area : R)
  : SiteData :=
  let n := INR (length data_coordinates) in
  {| sd_coordinates := Some (map CoordArray data_coordinates);
     sd_area := Some data_area;
     sd_center :=
       Some {| lngOf := (fold_left (fun sum coord => sum + lng coord) data_coordinates 0 / n)%R;
               latOf := (fold_left (fun sum coord => sum + lat coord) data_coordinates 0 / n)%R |} |}.

Inductive EdgeType : Type := side_ | front_ | back_.

Record EdgeClassification : Type := mkClassification
  { ec_index : nat; ec_type : EdgeType; ec_setback : JS.number }.

Definition zero : JS.number := JS.Num (QArith_base.Qmake 0 1).

(** The body of the [forEach] over [data.polygonEdges] when both edges
    are selected, and when they are not. *)
Definition classifySelected (data : Payload) (f b : Edge) (index : nat)
  : EdgeClassification :=
  let type := side_ in
  let setback := JS.or_default (JS.parseFloat (sideSetback data)) zero in
  if (index =? SiteBoundaryManager.index f)%nat then
    {| ec_index := index; ec_type := front_;
       ec_setback := JS.or_default (JS.parseFloat (frontSetback data)) zero |}
  else if (index =? SiteBoundaryManager.index b)%nat then
    {| ec_index := index; ec_type := back_;
       ec_setback := JS.or_default (JS.parseFloat (backSetback data)) zero |}
  else {| ec_index := index; ec_type := type; ec_setback := setback |}.

Definition classifyUnselected (data : Payload) (index : nat) : EdgeClassification :=
  {| ec_index := index; ec_type := side_;
     ec_setback := JS.or_default (JS.parseFloat (sideSetback data)) zero |}.

(** [arr.forEach((edge, index) => out.push(f index))] *)
Definition forEachPush (A B : Type) (f : nat -> B) (arr : list A) : list B :=
  fold_left (fun out ie => out ++ [f (fst ie)]) (combine (seq 0 (length arr)) arr) [].

(** The edge classifications that [handleBuildableAreaPreview] and
    [handleBuildableAreaCalculation] build, with the same code. *)
Definition edgeClassifications (data : Payload) : list EdgeClassification :=
  match front (p_selectedEdges data), back (p_selectedEdges data) with
  | Some f, Some b => forEachPush (classifySelected data f b) (p_polygonEdges data)
  | _, _ => forEachPush (classifyUnselected data) (p_polygonEdges data)
  end.

(** A plain object as an association list; [{...a, ...b}] lets a key of
    [b] replace the value of the same key of [a]. *)
Definition object : Type := list (string * JS.value).

Fixpoint objSet (o : object) (k : string) (v : JS.value) : object :=
  match o with
  | [] => [(k, v)]
  | (k', v') :: r => if String.eqb k k' then (k', v) :: r else (k', v') :: objSet r k v
  end.

Definition spread (a b : object) : object :=
  fold_left (fun o kv => objSet o (fst kv) (snd kv)) b a.

Record Request : Type := mkRequest
  { site_coords : list Point;
    frontage : string;
    requirements : object;
    edge_classifications : list EdgeClassification }.

(** The body of the POST request; [council] is
    [this.siteData.council_requirements || {}]. *)
Definition buildRequest (siteCoords : list Point) (council : object) (data : Payload)
  : Request :=
  {| site_coords := siteCoords;
     frontage := "north";
     requirements :=
       spread [("front_setback"%string, frontSetback data);
               ("side_setback"%string, sideSetback data);
               ("rear_setback"%string, backSetback data)] council;
     edge_classifications := edgeClassifications data |}.

(** *** The preview requests

    [handleBuildableAreaPreview] is an async function: it runs to the
    [fetch], is resumed when the fetch settles, and is resumed again when
    [response.json()] settles.  A request is named by the number of
    requests issued before it, and so is the AbortController made for it.
    What the platform does is in the events: a fetch whose signal has been
    aborted, and the reading of its body, can only be rejected. *)

Inductive Phase : Type := AwaitingFetch | AwaitingJson.

Record Result : Type := mkResult { buildable_coords : option (list Point) }.

Record PreviewState : Type := mkPreview
  { previewAbortController : option nat;
    aborted : list nat;
    inFlight : list (nat * Phase);
    issued : nat;
    displayed : option Result }.

Definition previewInitial : PreviewState :=
  {| previewAbortController := None; aborted := []; inFlight := [];
     issued := 0; displayed := None |}.

Inductive FetchOutcome : Type := Responded (ok : bool) | FetchRejected.
Inductive JsonOutcome : Type := Parsed (result : Result) | JsonRejected.

Inductive Event : Type :=
| PreviewRequested (boundaryAvailable : bool)
| FetchSettled (id : nat) (o : FetchOutcome)
| JsonSettled (id : nat) (o : JsonOutcome).

Definition phaseEqb (a b : Phase) : bool :=
  match a, b with
  | AwaitingFetch, AwaitingFetch | AwaitingJson, AwaitingJson => true
  | _, _ => false
  end.

Definition waiting (id : nat) (ph : Phase) (l : list (nat * Phase)) : bool :=
  existsb (fun r => (fst r =? id)%nat && phaseEqb (snd r) ph) l.

Definition isAborted (id : nat) (st : PreviewState) : bool :=
  existsb (Nat.eqb id) (aborted st).

Definition finish (id : nat) (l : list (nat * Phase)) : list (nat * Phase) :=
  filter (fun r => negb (fst r =? id)%nat) l.

(** From the entry of [handleBuildableAreaPreview] to its [await fetch]. *)
Definition issuePreview (boundaryAvailable : bool) (st : PreviewState) : PreviewState :=
  if negb boundaryAvailable then st
  else
    {| previewAbortController := Some (issued st);
       aborted := match previewAbortController st with
                  | Some c => c :: aborted st
                  | None => aborted st
                  end;
       inFlight := inFlight st ++ [(issued st, AwaitingFetch)];
       issued := S (issued st);
       displayed := displayed st |}.

(** From the settled fetch to [await response.json()], or to the end. *)
Definition afterFetch (id : nat) (o : FetchOutcome) (st : PreviewState) : PreviewState :=
  {| previewAbortController := previewAbortController st;
     aborted := aborted st;
     inFlight := match o with
                 | Responded true => finish id (inFlight st) ++ [(id, AwaitingJson)]
                 | Responded false | FetchRejected => finish id (inFlight st)
                 end;
     issued := issued st;
     displayed := displayed st |}.

Definition hasCoords (r : Result) : bool :=
  match buildable_coords r with
  | Some (_ :: _) => true
  | _ => false
  end.

(** From the settled [response.json()] to the end:
    [updateBuildableAreaDisplay(result, true)] when there are
    coordinates. *)
Definition afterJson (id : nat) (o : JsonOutcome) (st : PreviewState) : PreviewState :=
  {| previewAbortController := previewAbortController st;
     aborted := aborted st;
     inFlight := finish id (inFlight st);
     issued := issued st;
     displayed := match o with
                  | Parsed r => if hasCoords r then Some r else displayed st
                  | JsonRejected => displayed st
                  end |}.

(** One event of the loop; [None] when the event cannot happen in this
    state. *)
Definition step (st : PreviewState) (ev : Event) : option PreviewState :=
  match ev with
  | PreviewRequested b => Some (issuePreview b st)
  | FetchSettled id o =>
      if waiting id AwaitingFetch (inFlight st) then
        match o with
        | Responded _ => if isAborted id st then None else Some (afterFetch id o st)
        | FetchRejected => Some (afterFetch id o st)
        end
      else None
  | JsonSettled id o =>
      if waiting id AwaitingJson (inFlight st) then
        match o with
        | Parsed _ => if isAborted id st then None else Some (afterJson id o st)
        | JsonRejected => Some (afterJson id o st)
        end
      else None
  end.

Fixpoint run (st : PreviewState) (evs : list Event) : option PreviewState :=
  match evs with
  | [] => Some st
  | ev :: rest => match step st ev with
                  | Some st' => run st' rest
                  | None => None
                  end
  end.

End SiteInspectorCore.

(** ** Parsing the data of a snapshot *)

Module Snapshot.

Definition singleQuote : ascii := "'"%char.
Definition doubleQuote : ascii := ascii_of_nat 34.

(** [s.replace(/'/g, doubleQuote)] *)
Fixpoint replaceQuotes (s : string) : string :=
  match s with
  | EmptyString => EmptyString
  | String c r =>
      String (if Ascii.eqb c singleQuote then doubleQuote else c) (replaceQuotes r)
  end.

(** The text with single quotes where [s] has double quotes. *)
Fixpoint singleQuoted (s : string) : string :=
  match s with
  | EmptyString => EmptyString
  | String c r =>
      String (if Ascii.eqb c doubleQuote then singleQuote else c) (singleQuoted r)
  end.

Fixpoint hasSingleQuote (s : string) : bool :=
  match s with
  | EmptyString => false
  | String c r => Ascii.eqb c singleQuote || hasSingleQuote r
  end.

Section Parse.
(** [JSON.parse] belongs to the platform: [None] is a SyntaxError. *)
Variable J : Type.
Variable JSON_parse : string -> option J.

(** The parsing block of [loadExistingSiteBoundary] and of
    [loadExistingBuildableArea]; [None] is the return after
    [Failed to parse snapshot data]. *)
Definition parseSnapshotData (snapshot_data : string) : option J :=
  match JSON_parse snapshot_data with
  | Some snapshotData => Some snapshotData
  | None =>
      let jsonString := replaceQuotes snapshot_data in
      match JSON_parse jsonString with
      | Some snapshotData => Some snapshotData
      | None => None
      end
  end.
End Parse.

End Snapshot.

(** A small JSON reader, used where a concrete [JSON.parse] is needed:
    literals, numbers kept as their text, strings with backslash escapes
    kept as they are, arrays and objects. *)
Module MiniJSON.

#[warnings="-register-all"]
Inductive json : Type :=
| JNull
| JBool (b : bool)
| JNumber (text : list ascii)
| JString (chars : list ascii)
| JArray (items : list json)
| JObject (members : list (list ascii * json)).

Definition isNumberChar (c : ascii) : bool :=
  JS.isDigit c || Ascii.eqb c "-" || Ascii.eqb c "+" || Ascii.eqb c "."
  || Ascii.eqb c "e" || Ascii.eqb c "E".

Fixpoint takeNumber (cs : list ascii) : list ascii * list ascii :=
  match cs with
  | c :: r => if isNumberChar c
              then let '(n, rest) := takeNumber r in (c :: n, rest)
              else ([], cs)
  | [] => ([], [])
  end.

(** The characters of a string literal up to its closing quote. *)
Fixpoint takeString (cs : list ascii) : option (list ascii * list ascii) :=
  match cs with
  | [] => None
  | c :: r =>
      if Ascii.eqb c Snapshot.doubleQuote then Some ([], r)
      else if Ascii.eqb c "\" then
        match r with
        | [] => None
        | d :: r' => match takeString r' with
                     | Some (s, rest) => Some (c :: d :: s, rest)
                     | None => None
                     end
        end
      else match takeString r with
           | Some (s, rest) => Some (c :: s, rest)
           | None => None
           end
  end.

Fixpoint parseValue (fuel : nat) (cs : list ascii) : option (json * list ascii) :=
  match fuel with
  | O => None
  | S fuel =>
      let parseItems :=
        fix items (n : nat) (cs : list ascii) : option (list json * list ascii) :=
          match n with
          | O => None
          | S n =>
              match parseValue fuel cs with
              | None => None
              | Some (v, rest) =>
                  match JS.skipWhite rest with
                  | ","%char :: rest' =>
                      match items n rest' with
                      | Some (vs, rest'') => Some (v :: vs, rest'')
                      | None => None
                      end
                  | "]"%char :: rest' => Some ([v], rest')
                  | _ => None
                  end
              end
          end in
      let parseMembers :=
        fix members (n : nat) (cs : list ascii)
          : option (list (list ascii * json) * list ascii) :=
          match n with
          | O => None
          | S n =>
              match JS.skipWhite cs with
              | q :: r =>
                  if Ascii.eqb q Snapshot.doubleQuote then
                    match takeString r with
                    | None => None
                    | Some (k, rest) =>
                        match JS.skipWhite rest with
                        | ":"%char :: rest' =>
                            match parseValue fuel rest' with
                            | None => None
                            | Some (v, rest'') =>
                                match JS.skipWhite rest'' with
                                | ","%char :: r3 =>
                                    match members n r3 with
                                    | Some (ms, r4) => Some ((k, v) :: ms, r4)
                                    | None => None
                                    end
                                | "}"%char :: r3 => Some ([(k, v)], r3)
                                | _ => None
                                end
                            end
                        | _ => None
                        end
                    end
                  else None
              | [] => None
              end
          end in
      match JS.skipWhite cs with
      | [] => None
      | c :: r =>
          if Ascii.eqb c Snapshot.doubleQuote then
            match takeString r with
            | Some (s, rest) => Some (JString s, rest)
            | None => None
            end
          else if Ascii.eqb c "[" then
            match JS.skipWhite r with
            | "]"%char :: rest => Some (JArray [], rest)
            | _ => match parseItems (List.length r) r with
                   | Some (vs, rest) => Some (JArray vs, rest)
                   | None => None
                   end
            end
          else if Ascii.eqb c "{" then
            match JS.skipWhite r with
            | "}"%char :: rest => Some (JObject [], rest)
            | _ => match parseMembers (List.length r) r with
                   | Some (ms, rest) => Some (JObject ms, rest)
                   | None => None
                   end
            end
          else if JS.startsWith (list_ascii_of_string "null") (c :: r)
          then Some (JNull, skipn 4 (c :: r))
          else if JS.startsWith (list_ascii_of_string "true") (c :: r)
          then Some (JBool true, skipn 4 (c :: r))
          else if JS.startsWith (list_ascii_of_string "false") (c :: r)
          then Some (JBool false, skipn 5 (c :: r))
          else if JS.isDigit c || Ascii.eqb c "-" then
            let '(n, rest) := takeNumber (c :: r) in Some (JNumber n, rest)
          else None
      end
  end.

Definition parse (s : string) : option json :=
  let cs := list_ascii_of_string s in
  match parseValue (S (List.length cs)) cs with
  | Some (v, rest) => match JS.skipWhite rest with
                      | [] => Some v
                      | _ :: _ => None
                      end
  | None => None
  end.

End MiniJSON.

(** ** The shoelace sum in double precision

    The numbers of the source are IEEE 754 doubles.  Here is the loop of
    [calculatePolygonAreaFallback] once more with the additions, the
    subtractions and the products rounded as the source rounds them; an
    element that is not there reads as [undefined], whose arithmetic is
    NaN. *)

Module Float64.

Definition Point64 : Type := (PrimFloat.float * PrimFloat.float)%type.

Definition at64 (c : list Point64) (i : nat) : Point64 :=
  nth i c (PrimFloat.nan, PrimFloat.nan).

Definition shoelaceStep (c : list Point64) (area : PrimFloat.float) (i : nat)
  : PrimFloat.float :=
  let j := ((i + 1) mod (length c - 1))%nat in
  let area := PrimFloat.add area (PrimFloat.mul (fst (at64 c i)) (snd (at64 c j))) in
  PrimFloat.sub area (PrimFloat.mul (fst (at64 c j)) (snd (at64 c i))).

Definition calculatePolygonAreaFallback (coordinates : option (list Point64))
  : PrimFloat.float :=
  match coordinates with
  | None => PrimFloat.zero
  | Some c =>
      if (length c <? 3)%nat then PrimFloat.zero
      else PrimFloat.div
             (PrimFloat.abs (fold_left (shoelaceStep c) (seq 0 (length c - 1))
                                       PrimFloat.zero))
             PrimFloat.two
  end.

End Float64.

(** ** SiteBoundaryManager: the terrain bounds of a boundary *)

Module TerrainBounds.

Local Open Scope R_scope.






End TerrainBounds.

(** ** The ring shown for a buildable area *)

Module BuildableAreaDisplay.

Local Open Scope R_scope.

Definition Rleb (a b : R) : bool := if Rle_dec a b then true else false.

Definition flip (coord : Point) : Point := (lat coord, lng coord).

(** The closing step both functions share: a copy of the first coordinate
    is pushed when the last one differs from it. *)
Definition ensureClosed (coordinates : list Point) : list Point :=
  let firstCoord := at_ coordinates 0 in
  let lastCoord := at_ coordinates (length coordinates - 1) in
  if negb (Reqb (lng firstCoord) (lng lastCoord))
     || negb (Reqb (lat firstCoord) (lat lastCoord))
  then coordinates ++ [firstCoord]
  else coordinates.

(** [SiteInspectorCore.updateBuildableAreaDisplay(result, isPreview)]: the
    ring given to the map source, [None] when there are no coordinates.
    Every coordinate is a pair, so [coordinates[0].length === 2] holds. *)
Definition updateBuildableAreaDisplay (buildable_coords : option (list Point))
  : option (list Point) :=
  match buildable_coords with
  | None | Some [] => None
  | Some ((firstCoord :: _) as coordinates) =>
      let coordinates :=
        if Rleb (Rabs (lng firstCoord)) 90 && Rltb 90 (Rabs (lat firstCoord))
        then map flip coordinates
        else coordinates in
      Some (ensureClosed coordinates)
  end.

(** [PropertySetbacksManager.displayBuildableArea(buildableCoords,
    isPreview)]: each coordinate is looked at on its own. *)
Definition flipIfLatLng (coord : Point) : Point :=
  if Rltb (lng coord) 0 && Rltb (-90) (lng coord) && Rltb 100 (lat coord)
  then flip coord
  else coord.

Definition displayBuildableArea (buildableCoords : option (list Point))
  : option (list Point) :=
  match buildableCoords with
  | None | Some [] => None
  | Some ((_ :: _) as coords) => Some (ensureClosed (map flipIfLatLng coords))
  end.

End BuildableAreaDisplay.

(** ** FloorplanManager: measures of a polygon *)

Module FloorplanGeometry.

Local Open Scope R_scope.

(** [getPolygonCenter(polygon)], on the first ring of the polygon: the mean
    of the points before the last one.  On a ring of one point the source
    divides 0 by 0; the properties below take rings of two points or more. *)
Definition getPolygonCenter (coords : list Point) : LngLat :=
  let count := (length coords - 1)%nat in
  let center :=
    fold_left (fun acc coord => {| lngOf := lngOf acc + lng coord;
                                   latOf := latOf acc + lat coord |})
              (firstn count coords) {| lngOf := 0; latOf := 0 |} in
  {| lngOf := lngOf center / INR count; latOf := latOf center / INR count |}.

(** [calculateAngle(center, point)] *)
Definition calculateAngle (center point : LngLat) : R :=
  SiteBoundaryManager.Math_atan2 (latOf point - latOf center) (lngOf point - lngOf center).

(** [calculateDistance(point1, point2)], the call with two arguments. *)
Definition calculateDistance2 (point1 point2 : LngLat) : R :=
  let dx := lngOf point2 - lngOf point1 in
  let dy := latOf point2 - latOf point1 in
  sqrt (dx * dx + dy * dy).

(** [calculatePerimeter(boundaries)] and [calculateArea(boundaries)], on
    the points of an outline in image coordinates. *)
Definition perimeterStep (boundaries : list Point) (perimeter : R) (i : nat) : R :=
  let current := at_ boundaries i in
  let next := at_ boundaries ((i + 1) mod length boundaries) in
  let dx := fst next - fst current in
  let dy := snd next - snd current in
  perimeter + sqrt (dx * dx + dy * dy).

Definition calculatePerimeter (boundaries : list Point) : R :=
  fold_left (perimeterStep boundaries) (seq 0 (length boundaries)) 0.

Definition areaStep (boundaries : list Point) (area : R) (i : nat) : R :=
  let current := at_ boundaries i in
  let next := at_ boundaries ((i + 1) mod length boundaries) in
  area + (fst current * snd next - fst next * snd current).

Definition calculateArea (boundaries : list Point) : R :=
  Rabs (fold_left (areaStep boundaries) (seq 0 (length boundaries)) 0) / 2.

Record Metrics : Type := mkMetrics
  { m_area : R; m_perimeter : R; boundary_points : nat;
    complexity_score : option R }.

(** [calculateMetrics(boundaries)]; [None] is a null argument. *)
Definition calculateMetrics (boundaries : option (list Point)) : Metrics :=
  match boundaries with
  | None => {| m_area := 0; m_perimeter := 0; boundary_points := 0;
               complexity_score := None |}
  | Some b =>
      if (length b <? 3)%nat
      then {| m_area := 0; m_perimeter := 0; boundary_points := 0;
              complexity_score := None |}
      else {| m_area := calculateArea b; m_perimeter := calculatePerimeter b;
              boundary_points := length b;
              complexity_score := Some (INR (length b) / 4) |}
  end.

(** [Math.min(...xs)] and [Math.max(...xs)] of a list with an element. *)
Definition minOf (x : R) (xs : list R) : R := fold_left Rmin xs x.
Definition maxOf (x : R) (xs : list R) : R := fold_left Rmax xs x.

(** [boundariesToCoordinates(boundaries)]: the outline scaled into the
    unit square of its bounding box. *)
Definition boundariesToCoordinates (boundaries : option (list Point)) : list Point :=
  match boundaries with
  | None | Some [] => []
  | Some ((p :: rest) as b) =>
      let xs := map fst rest in
      let ys := map snd rest in
      let minX := minOf (fst p) xs in
      let maxX := maxOf (fst p) xs in
      let minY := minOf (snd p) ys in
      let maxY := maxOf (snd p) ys in
      let width := maxX - minX in
      let height := maxY - minY in
      map (fun q => ((if Rltb 0 width then (fst q - minX) / width else 0),
                     (if Rltb 0 height then (snd q - minY) / height else 0))) b
  end.

(** [arePointsCollinear(p1, p2, p3)] with the default tolerance. *)
Definition arePointsCollinear (p1 p2 p3 : Point) : bool :=
  let crossProduct := (fst p2 - fst p1) * (snd p3 - snd p1)
                      - (snd p2 - snd p1) * (fst p3 - fst p1) in
  Rltb (Rabs crossProduct) 0.0001.

Record Segment : Type := mkSegment { seg_start : Point; seg_end : Point }.

(** One iteration of the loop of [groupPointsIntoEdges]; the loop state is
    [(edges, edgeStart)]. *)
Definition groupStep (points : list Point) (acc : list Segment * Point) (i : nat)
  : list Segment * Point :=
  let '(edges, edgeStart) := acc in
  let current := at_ points i in
  let next := at_ points ((i + 1) mod length points) in
  let isCollinear := arePointsCollinear edgeStart current next in
  if negb isCollinear || (i =? length points - 1)%nat
  then (edges ++ [ {| seg_start := edgeStart; seg_end := current |} ], current)
  else (edges, edgeStart).

Definition groupPointsIntoEdges (points : list Point) : list Segment :=
  if (length points <? 2)%nat then []
  else
    let edges := fst (fold_left (groupStep points) (seq 1 (length points - 1))
                                ([], at_ points 0)) in
    match edges with
    | [] => edges
    | _ :: _ =>
        let lastEdge := last edges {| seg_start := (0, 0); seg_end := (0, 0) |} in
        let firstPoint := at_ points 0 in
        if negb (Reqb (fst (seg_end lastEdge)) (fst firstPoint))
           || negb (Reqb (snd (seg_end lastEdge)) (snd firstPoint))
        then edges ++ [ {| seg_start := seg_end lastEdge; seg_end := firstPoint |} ]
        else edges
    end.

End FloorplanGeometry.

(** ** FloorplanManager: moving the footprint with the pointer

    [handleMouseDown], [handleMouseMove], [handleMouseUp] and
    [handleKeyDown] with the interactions they start, update and stop.  The
    manager is [this.state] with [this.interaction]; the rotation centre of
    the interaction is the field [rotationCenter] of the state above.  A
    handler that throws stops there: what it assigned before stays
    assigned. *)

Module FloorplanInteraction.
Import FloorplanManager FloorplanGeometry.
Local Open Scope R_scope.

Record Interaction : Type := mkInteraction
  { isDragging : bool; isRotating : bool; isScaling : bool;
    dragStart : option LngLat;
    initialRotation : R;
    scalingStart : option LngLat }.

Record Manager : Type := mkManager
  { state : State; interaction : Interaction }.

(** The interaction of the constructor. *)
Definition idle : Interaction :=
  {| isDragging := false; isRotating := false; isScaling := false;
     dragStart := None; initialRotation := 0; scalingStart := None |}.

(** A pointer event: where it is, the modifier keys of the original event,
    and whether [queryRenderedFeatures] finds the footprint under it. *)
Record MouseEvent : Type := mkMouseEvent
  { lngLat : LngLat; ctrlKey : bool; metaKey : bool; shiftKey : bool;
    onFootprint : bool }.

Definition rotationSensitivity : R := 0.1.

Definition startDragging (m : Manager) (event : MouseEvent) : Manager :=
  {| state := state m;
     interaction :=
       {| isDragging := true;
          isRotating := isRotating (interaction m);
          isScaling := isScaling (interaction m);
          dragStart := Some (lngLat event);
          initialRotation := initialRotation (interaction m);
          scalingStart := scalingStart (interaction m) |} |}.

Definition updateDragging (m : Manager) (event : MouseEvent) : Manager :=
  if negb (isDragging (interaction m)) then m
  else
    match dragStart (interaction m) with
    | None => m
    | Some start0 =>
        let deltaLng := lngOf (lngLat event) - lngOf start0 in
        let deltaLat := latOf (lngLat event) - latOf start0 in
        match translatePolygon (state m) deltaLng deltaLat with
        | None => m
        | Some st =>
            {| state := st;
               interaction :=
                 {| isDragging := isDragging (interaction m);
                    isRotating := isRotating (interaction m);
                    isScaling := isScaling (interaction m);
                    dragStart := Some (lngLat event);
                    initialRotation := initialRotation (interaction m);
                    scalingStart := scalingStart (interaction m) |} |}
        end
    end.

Definition startRotation (m : Manager) (event : MouseEvent) : Manager :=
  let rotating :=
    {| isDragging := isDragging (interaction m);
       isRotating := true;
       isScaling := isScaling (interaction m);
       dragStart := dragStart (interaction m);
       initialRotation := initialRotation (interaction m);
       scalingStart := scalingStart (interaction m) |} in
  match ringOf (state m) with
  | None => {| state := state m; interaction := rotating |}
  | Some ring =>
      let center := getPolygonCenter ring in
      {| state := setRotationCenter (state m) (Some center);
         interaction :=
           {| isDragging := isDragging rotating;
              isRotating := isRotating rotating;
              isScaling := isScaling rotating;
              dragStart := dragStart rotating;
              initialRotation := calculateAngle center (lngLat event);
              scalingStart := scalingStart rotating |} |}
  end.

Definition updateRotation (m : Manager) (event : MouseEvent) : Manager :=
  if negb (isRotating (interaction m)) then m
  else
    match rotationCenter (state m) with
    | None => m
    | Some center =>
        let currentAngle := calculateAngle center (lngLat event) in
        let rotationDelta :=
          (currentAngle - initialRotation (interaction m)) * rotationSensitivity in
        match rotatePolygon (state m) rotationDelta with
        | None => m
        | Some st => {| state := st; interaction := interaction m |}
        end
    end.

Definition startScaling (m : Manager) (event : MouseEvent) : Manager :=
  let scaling :=
    {| isDragging := isDragging (interaction m);
       isRotating := isRotating (interaction m);
       isScaling := true;
       dragStart := dragStart (interaction m);
       initialRotation := initialRotation (interaction m);
       scalingStart := Some (lngLat event) |} in
  match ringOf (state m) with
  | None => {| state := state m; interaction := scaling |}
  | Some ring =>
      {| state := setRotationCenter (state m) (Some (getPolygonCenter ring));
         interaction := scaling |}
  end.

(** With the press at the rotation centre the source divides by 0 and the
    factor is Infinity or NaN; the properties below leave that case out. *)
Definition updateScaling (m : Manager) (event : MouseEvent) : Manager :=
  if negb (isScaling (interaction m)) then m
  else
    match scalingStart (interaction m), rotationCenter (state m) with
    | Some start0, Some center =>
        let startDistance := calculateDistance2 center start0 in
        let currentDistance := calculateDistance2 center (lngLat event) in
        let scaleFactor := currentDistance / startDistance in
        match scalePolygon (state m) scaleFactor with
        | None => m
        | Some st =>
            {| state := st;
               interaction :=
                 {| isDragging := isDragging (interaction m);
                    isRotating := isRotating (interaction m);
                    isScaling := isScaling (interaction m);
                    dragStart := dragStart (interaction m);
                    initialRotation := initialRotation (interaction m);
                    scalingStart := Some (lngLat event) |} |}
        end
    | _, _ => m
    end.

Definition startInteraction (m : Manager) (event : MouseEvent) : Manager :=
  if ctrlKey event || metaKey event then startRotation m event
  else if shiftKey event then startScaling m event
  else startDragging m event.

Definition updateInteraction (m : Manager) (event : MouseEvent) : Manager :=
  if isDragging (interaction m) then updateDragging m event
  else if isRotating (interaction m) then updateRotation m event
  else if isScaling (interaction m) then updateScaling m event
  else m.

Definition stopInteraction (m : Manager) : Manager :=
  {| state := state m;
     interaction :=
       {| isDragging := false; isRotating := false; isScaling := false;
          dragStart := dragStart (interaction m);
          initialRotation := initialRotation (interaction m);
          scalingStart := scalingStart (interaction m) |} |}.

Definition handleMouseDown (m : Manager) (event : MouseEvent) : Manager :=
  if isDrawing (state m) then m
  else if isLocked (state m)
          || match geojsonPolygon (state m) with None => true | Some _ => false end
  then m
  else if onFootprint event then startInteraction m event
  else m.

(** While drawing, a move only redraws the preview line. *)
Definition handleMouseMove (m : Manager) (event : MouseEvent) : Manager :=
  if isDrawing (state m) then m
  else if isLocked (state m) then m
  else updateInteraction m event.

Definition handleMouseUp (m : Manager) : Manager := stopInteraction m.

Definition toggleLock (m : Manager) : Manager :=
  let locked := negb (isLocked (state m)) in
  {| state :=
       {| geojsonPolygon :=
            match geojsonPolygon (state m) with
            | None => None
            | Some g =>
                Some {| properties :=
                          {| p_locked := locked;
                             p_rotation := p_rotation (properties g);
                             p_scale := p_scale (properties g) |};
                        coordinates := coordinates g |}
            end;
          FloorplanManager.isLocked := locked;
          isDrawing := isDrawing (state m);
          drawingPoints := drawingPoints (state m);
          currentTransform := currentTransform (state m);
          rotationCenter := rotationCenter (state m) |};
     interaction := interaction m |}.

Definition handleKeyDown (m : Manager) (key : string) : Manager :=
  if String.eqb key "Escape" then stopInteraction m
  else if String.eqb key "l" || String.eqb key "L" then toggleLock m
  else m.

(** [handleMapClick(event)] and [handleMapDoubleClick(event)], the handlers
    of the map events [click] and [dblclick]; [siteData] is
    [window.siteInspector?.siteData] when the click arrives. *)
Definition handleMapClick (m : Manager) (siteData : option SiteData) (lngLat : LngLat)
  : Manager :=
  {| state := FloorplanManager.handleMapClick siteData (state m) lngLat;
     interaction := interaction m |}.

Definition handleMapDoubleClick (m : Manager) : Manager :=
  if negb (isDrawing (state m)) then m
  else {| state := finishDrawing (state m); interaction := interaction m |}.

(** [handleRightClick(event)]: the context menu it may show is an element
    of the page; choosing one of its options is another action. *)
Definition handleRightClick (m : Manager) : Manager := m.

(** The events that [setupMapHandlers] and the key listener deliver. *)
Inductive Input : Type :=
| MouseDown (event : MouseEvent)
| MouseMove (event : MouseEvent)
| MouseUp
| KeyDown (key : string)
| Click (siteData : option SiteData) (lngLat : LngLat)
| DoubleClick
| RightClick.

Definition handle (m : Manager) (input : Input) : Manager :=
  match input with
  | MouseDown event => handleMouseDown m event
  | MouseMove event => handleMouseMove m event
  | MouseUp => handleMouseUp m
  | KeyDown key => handleKeyDown m key
  | Click siteData lngLat => handleMapClick m siteData lngLat
  | DoubleClick => handleMapDoubleClick m
  | RightClick => handleRightClick m
  end.

End FloorplanInteraction.

(** ** SiteInspectorCore: the project id of the address, and fetching
    with retries *)

Module ProjectId.

(** [s.split('?')[0]]: the characters before the first question mark. *)
Fixpoint beforeQuestion (cs : list ascii) : list ascii :=
  match cs with
  | [] => []
  | c :: r => if Ascii.eqb c "?" then [] else c :: beforeQuestion r
  end.

(** [s.includes('?')] *)
Definition includesQuestion (cs : list ascii) : bool :=
  existsb (fun c => Ascii.eqb c "?") cs.

(** [s.trim()]; white space is the ASCII white space here. *)
Definition trim (cs : list ascii) : list ascii :=
  rev (JS.skipWhite (rev (JS.skipWhite cs))).

(** [/^\d+$/.test(s)] *)
Definition allDigits (cs : list ascii) : bool :=
  match cs with
  | [] => false
  | _ :: _ => forallb JS.isDigit cs
  end.

(** [a || b] on the values of [URLSearchParams.get], a string or null:
    null and the empty string are falsy. *)
Definition orElse (a b : option string) : option string :=
  match a with
  | Some EmptyString | None => b
  | Some _ => a
  end.

(** [getProjectIdFromUrl()]; the arguments are [urlParams.get('project_id')]
    and [urlParams.get('project')], and [None] is null. *)
Definition getProjectIdFromUrl (project_id project : option string) : option string :=
  match orElse project_id project with
  | None => None
  | Some EmptyString => Some EmptyString
  | Some s =>
      let cs := list_ascii_of_string s in
      let cleaned := if includesQuestion cs then beforeQuestion cs else cs in
      match cleaned with
      | [] => Some EmptyString
      | _ :: _ =>
          let trimmed := trim cleaned in
          if negb (allDigits trimmed) then None
          else Some (string_of_list_ascii trimmed)
      end
  end.

End ProjectId.

Module Retry.

Section Fetch.

Variables Response Error : Type.

(** How the call of [fetch] of each attempt settles, the abort on timeout
    being one of the ways it is rejected. *)
Variable fetch : nat -> Response + Error.

Inductive Settled : Type :=
| Resolved (response : Response)
| ResolvedUndefined
| Rejected (error : Error).

(** The loop of [fetchWithRetry] with [remaining] iterations to go: how the
    promise settles, and the waits between the attempts in milliseconds. *)
Fixpoint attempts (retries : nat) (remaining attempt : nat) (waits : list nat)
  : Settled * list nat :=
  match remaining with
  | O => (ResolvedUndefined, waits)
  | S remaining' =>
      match fetch attempt with
      | inl response => (Resolved response, waits)
      | inr error =>
          if attempt =? retries + 1 then (Rejected error, waits)
          else attempts retries remaining' (S attempt) (waits ++ [1000 * attempt])
      end
  end.

Definition fetchWithRetry (retries : nat) : Settled * list nat :=
  attempts retries (retries + 1) 1 [].

End Fetch.

End Retry.

(** A ring is closed when it has a point and its first point is
    coordinate-equal to its last. *)
Definition closedRing (ring : list Point) : Prop :=
  ring <> [] /\ at_ ring 0 = at_ ring (length ring - 1).

(** * Properties *)

(** ** Helper lemmas on the real comparisons and on lists *)

Lemma Reqb_true_iff (a b : R) : Reqb a b = true <-> a = b.
Proof.
  unfold Reqb. destruct (Req_dec_T a b); split; intros; congruence.
Qed.

Lemma Reqb_refl (a : R) : Reqb a a = true.
Proof. apply Reqb_true_iff. reflexivity. Qed.

Lemma Rltb_true_iff (a b : R) : Rltb a b = true <-> (a < b)%R.
Proof.
  unfold Rltb. destruct (Rlt_dec a b); split; intros; try congruence; tauto.
Qed.

Lemma Rltb_false_iff (a b : R) : Rltb a b = false <-> ~ (a < b)%R.
Proof.
  unfold Rltb. destruct (Rlt_dec a b); split; intros; try congruence; tauto.
Qed.

Lemma at_app_l (l l' : list Point) (i : nat) :
  i < length l -> at_ (l ++ l') i = at_ l i.
Proof. intros H. unfold at_. now rewrite app_nth1. Qed.

Lemma at_app_last (l : list Point) (p : Point) :
  at_ (l ++ [p]) (length l) = p.
Proof. unfold at_. now rewrite nth_middle. Qed.

Lemma nth_error_at (l : list Point) (i : nat) :
  i < length l -> nth_error l i = Some (at_ l i).
Proof. intros H. unfold at_. now apply nth_error_nth'. Qed.

(** ** Edges of a ring *)

Module EdgeFacts.
Import SiteBoundaryManager.

Definition edgeAt (cs : list Point) (i : nat) : Edge :=
  let s := at_ cs i in
  let e := at_ cs ((i + 1) mod length cs) in
  {| index := i; start := s; end_ := e;
     midpoint := ((lng s + lng e) / 2, (lat s + lat e) / 2)%R |}.

Lemma pushEdge_in_range (cs : list Point) (edges : list Edge) (i : nat) :
  i < length cs -> pushEdge cs edges i = edges ++ [edgeAt cs i].
Proof.
  intros Hi. unfold pushEdge.
  assert (Hj : (i + 1) mod length cs < length cs)
    by (apply Nat.mod_upper_bound; lia).
  rewrite (nth_error_at cs Hi), (nth_error_at cs Hj). reflexivity.
Qed.

Lemma fold_pushEdge (cs : list Point) (l : list nat) :
  Forall (fun i => i < length cs) l ->
  forall acc, fold_left (pushEdge cs) l acc = acc ++ map (edgeAt cs) l.
Proof.
  induction 1 as [|i l Hi _ IH]; intros acc; simpl.
  - now rewrite app_nil_r.
  - rewrite pushEdge_in_range by assumption.
    rewrite IH, <- app_assoc. reflexivity.
Qed.

Lemma edges_of_processed (cs : list Point) :
  fold_left (pushEdge cs) (seq 0 (length cs)) [] = map (edgeAt cs) (seq 0 (length cs)).
Proof.
  rewrite fold_pushEdge; [reflexivity|].
  apply Forall_forall. intros i Hi. apply in_seq in Hi. lia.
Qed.

Lemma coordsToProcess_open (v : list Point) :
  at_ v 0 <> at_ v (length v - 1) -> coordsToProcess v = v.
Proof.
  intros Hne. unfold coordsToProcess.
  destruct (3 <? length v); simpl; [|reflexivity].
  destruct (Reqb (lng (at_ v 0)) (lng (at_ v (length v - 1)))) eqn:E1; simpl; [|reflexivity].
  destruct (Reqb (lat (at_ v 0)) (lat (at_ v (length v - 1)))) eqn:E2; [|reflexivity].
  apply Reqb_true_iff in E1, E2. exfalso. apply Hne.
  unfold lng, lat in *. destruct (at_ v 0), (at_ v (length v - 1)); simpl in *.
  congruence.
Qed.

Lemma coordsToProcess_closed (v : list Point) :
  3 <= length v -> coordsToProcess (v ++ [at_ v 0]) = v.
Proof.
  intros Hlen. unfold coordsToProcess.
  rewrite length_app. simpl length.
  replace (length v + 1 - 1) with (length v) by lia.
  rewrite at_app_last, at_app_l by lia.
  rewrite !Reqb_refl.
  replace (3 <? length v + 1) with true by (symmetry; apply Nat.ltb_lt; lia).
  simpl. unfold slice_0_m1. apply removelast_last.
Qed.

Lemma edges_of_ring (v : list Point) :
  let edges := map (edgeAt v) (seq 0 (length v)) in
  length edges = length v /\
  map index edges = seq 0 (length v) /\
  forall i, i < length v ->
    exists e e',
      nth_error edges i = Some e /\
      nth_error edges ((i + 1) mod length v) = Some e' /\
      start e = at_ v i /\ end_ e = start e'.
Proof.
  simpl. split; [now rewrite length_map, length_seq|]. split.
  - rewrite map_map. simpl. apply map_id.
  - intros i Hi.
    assert (Hj : (i + 1) mod length v < length v)
      by (apply Nat.mod_upper_bound; lia).
    exists (edgeAt v i), (edgeAt v ((i + 1) mod length v)).
    repeat split.
    + rewrite nth_error_map, nth_error_seq.
      apply Nat.ltb_lt in Hi. now rewrite Hi.
    + rewrite nth_error_map, nth_error_seq.
      apply Nat.ltb_lt in Hj. now rewrite Hj.
Qed.

End EdgeFacts.

(** Pairwise distinct vertices: the first differs from the last. *)
Lemma distinct_first_last (v : list Point) :
  NoDup v -> 2 <= length v -> at_ v 0 <> at_ v (length v - 1).
Proof.
  intros Hnd Hlen Heq. unfold at_ in Heq.
  assert (E : 0 = length v - 1)
    by (apply (proj1 (NoDup_nth v (0%R, 0%R)) Hnd); [lia | lia | exact Heq]).
  lia.
Qed.

(** C1.  For a ring [v] of at least three vertices, given open (its first
    and last vertex differ, as they do when the vertices are distinct) or
    with an explicit closing point equal to the first vertex,
    [calculatePolygonEdges] returns one edge for each vertex of [v], the
    indices are 0 .. n-1 in order, edge [i] starts at vertex [i], and its end
    is the start of edge [(i+1) mod n]. *)
Theorem calculatePolygonEdges_ring (v coordinates : list Point) :
  3 <= length v ->
  (coordinates = v /\ at_ v 0 <> at_ v (length v - 1))
  \/ coordinates = v ++ [at_ v 0] ->
  let edges := SiteBoundaryManager.calculatePolygonEdges (Some coordinates) in
  length edges = length v /\
  map SiteBoundaryManager.index edges = seq 0 (length v) /\
  forall i, i < length v ->
    exists e e',
      nth_error edges i = Some e /\
      nth_error edges ((i + 1) mod length v) = Some e' /\
      SiteBoundaryManager.start e = at_ v i /\
      SiteBoundaryManager.end_ e = SiteBoundaryManager.start e'.
Proof.
  intros Hlen Hshape. unfold SiteBoundaryManager.calculatePolygonEdges.
  assert (Hcs : SiteBoundaryManager.coordsToProcess coordinates = v /\
                (length coordinates <? 3) = false).
  { destruct Hshape as [[-> Hne] | ->].
    - split; [now apply EdgeFacts.coordsToProcess_open|].
      apply Nat.ltb_ge. lia.
    - split; [now apply EdgeFacts.coordsToProcess_closed|].
      apply Nat.ltb_ge. rewrite length_app. simpl. lia. }
  destruct Hcs as [-> ->].
  rewrite EdgeFacts.edges_of_processed.
  apply EdgeFacts.edges_of_ring.
Qed.

Lemma calculatePolygonEdges_ring_witness :
  let v := [(0, 0); (0, 1); (1, 1)]%R in
  length (SiteBoundaryManager.calculatePolygonEdges (Some (v ++ [at_ v 0]))) = 3
  /\ length (SiteBoundaryManager.calculatePolygonEdges (Some v)) = 3.
Proof.
  split.
  - apply (@calculatePolygonEdges_ring [(0, 0); (0, 1); (1, 1)]%R
             ([(0, 0); (0, 1); (1, 1)]%R ++ [(0, 0)%R])).
    + simpl. lia.
    + right. reflexivity.
  - apply (@calculatePolygonEdges_ring [(0, 0); (0, 1); (1, 1)]%R
             [(0, 0); (0, 1); (1, 1)]%R).
    + simpl. lia.
    + left. split; [reflexivity|]. unfold at_. simpl.
      intros H. injection H. intros. lra.
Defined.

(** ** Area and perimeter *)

Module RingSums.
Import SiteBoundaryManager.
Local Open Scope R_scope.

(** The sum of [f a b] over the consecutive pairs of a list. *)
Fixpoint pathSum (f : Point -> Point -> R) (l : list Point) : R :=
  match l with
  | [] => 0
  | a :: t => match t with
              | [] => 0
              | b :: _ => f a b + pathSum f t
              end
  end.

Definition cross (p q : Point) : R := lng p * lat q - lng q * lat p.
Definition dist (p q : Point) : R :=
  calculateDistance (lng p) (lat p) (lng q) (lat q).

Lemma fold_left_ext_in (A B : Type) (f g : A -> B -> A) (l : list B) :
  (forall a b, In b l -> f a b = g a b) ->
  forall a, fold_left f l a = fold_left g l a.
Proof.
  induction l as [|b l IH]; intros H a; simpl; [reflexivity|].
  rewrite H by (now left). apply IH. intros; apply H; now right.
Qed.

Lemma at_middle (pre t : list Point) (a : Point) :
  at_ (pre ++ a :: t) (length pre) = a.
Proof. unfold at_. apply nth_middle. Qed.

Lemma at_middle_next (pre t : list Point) (a b : Point) :
  at_ (pre ++ a :: b :: t) (length pre + 1) = b.
Proof.
  replace (pre ++ a :: b :: t) with ((pre ++ [a]) ++ b :: t)
    by (now rewrite <- app_assoc).
  replace (length pre + 1)%nat with (length (pre ++ [a]))
    by (rewrite length_app; reflexivity).
  apply at_middle.
Qed.

Lemma fold_pairs (f : Point -> Point -> R) (c pre : list Point) (acc : R) :
  fold_left (fun a i => a + f (at_ (pre ++ c) i) (at_ (pre ++ c) (i + 1)))
            (seq (length pre) (length c - 1)) acc
  = acc + pathSum f c.
Proof.
  revert pre acc. induction c as [|a t IH]; intros pre acc.
  - simpl. lra.
  - destruct t as [|b t'].
    + simpl. lra.
    + replace (length (a :: b :: t') - 1)%nat with (S (length (b :: t') - 1))
        by (simpl; lia).
      cbn [seq fold_left].
      rewrite at_middle, at_middle_next.
      specialize (IH (pre ++ [a]) (acc + f a b)).
      rewrite <- app_assoc in IH. cbn [app] in IH.
      rewrite length_app in IH. cbn [length] in IH.
      replace (length pre + 1)%nat with (S (length pre)) in IH by lia.
      cbn [length]. rewrite IH. cbn [pathSum]. lra.
Qed.

Lemma perimeter_pathSum (c : list Point) :
  (3 <= length c)%nat ->
  calculatePolygonPerimeter (Some c) = pathSum dist c.
Proof.
  intros H. unfold calculatePolygonPerimeter.
  replace (length c <? 3)%nat with false by (symmetry; apply Nat.ltb_ge; lia).
  pose proof (fold_pairs dist c [] 0) as E. cbn [app length] in E.
  unfold perimeterStep. unfold dist at 1 in E. rewrite E. lra.
Qed.

Lemma shoelaceStep_closed (v : list Point) (area : R) (i : nat) :
  (i < length v)%nat ->
  shoelaceStep (closeRing v) area i
  = area + cross (at_ (closeRing v) i) (at_ (closeRing v) (i + 1)).
Proof.
  intros Hi. unfold shoelaceStep, closeRing.
  rewrite length_app. cbn [length].
  replace (length v + 1 - 1)%nat with (length v) by lia.
  assert (E : at_ (v ++ [at_ v 0%nat]) ((i + 1) mod length v)
              = at_ (v ++ [at_ v 0%nat]) (i + 1)).
  { destruct (Nat.eq_dec (i + 1) (length v)) as [e|ne].
    - rewrite e, Nat.Div0.mod_same, at_app_last. apply at_app_l. lia.
    - now rewrite Nat.mod_small by lia. }
  rewrite E. unfold cross. lra.
Qed.

Lemma area_pathSum (v : list Point) :
  (2 <= length v)%nat ->
  calculatePolygonAreaFallback (Some (closeRing v))
  = Rabs (pathSum cross (closeRing v)) / 2.
Proof.
  intros H. unfold calculatePolygonAreaFallback.
  assert (L : length (closeRing v) = S (length v))
    by (unfold closeRing; rewrite length_app; simpl; lia).
  rewrite L.
  replace (S (length v) <? 3)%nat with false by (symmetry; apply Nat.ltb_ge; lia).
  replace (S (length v) - 1)%nat with (length v) by lia.
  rewrite (@fold_left_ext_in _ _ (shoelaceStep (closeRing v))
             (fun a i => a + cross (at_ (closeRing v) i) (at_ (closeRing v) (i + 1)))).
  - pose proof (fold_pairs cross (closeRing v) [] 0) as E.
    cbn [app length] in E. rewrite L in E.
    replace (S (length v) - 1)%nat with (length v) in E by lia.
    rewrite E. f_equal. f_equal. lra.
  - intros a i Hi. apply in_seq in Hi. apply shoelaceStep_closed. lia.
Qed.

Lemma pathSum_app (f : Point -> Point -> R) (l1 l2 : list Point) (a : Point) :
  pathSum f (l1 ++ a :: l2) = pathSum f (l1 ++ [a]) + pathSum f (a :: l2).
Proof.
  induction l1 as [|x l1 IH].
  - simpl. lra.
  - destruct l1 as [|y l1].
    + simpl. destruct l2; lra.
    + change ((x :: y :: l1) ++ a :: l2) with (x :: (y :: l1) ++ a :: l2).
      change ((x :: y :: l1) ++ [a]) with (x :: (y :: l1) ++ [a]).
      cbn [pathSum app] in *. rewrite IH. lra.
Qed.

Lemma pathSum_ext (f g : Point -> Point -> R) (l : list Point) :
  (forall a b, f a b = g a b) -> pathSum f l = pathSum g l.
Proof.
  intros H. induction l as [|a [|b t] IH]; try reflexivity.
  cbn [pathSum] in *. now rewrite H, IH.
Qed.

Lemma pathSum_rev (f : Point -> Point -> R) (l : list Point) :
  pathSum f (rev l) = pathSum (fun a b => f b a) l.
Proof.
  induction l as [|a [|b t] IH]; try reflexivity.
  change (rev (a :: b :: t)) with (rev (b :: t) ++ [a]).
  change (rev (b :: t)) with (rev t ++ [b]) at 1.
  rewrite <- app_assoc. cbn [app].
  rewrite pathSum_app. change (rev t ++ [b]) with (rev (b :: t)).
  rewrite IH. cbn [pathSum]. lra.
Qed.

Lemma pathSum_opp (f : Point -> Point -> R) (l : list Point) :
  pathSum (fun a b => - f a b) l = - pathSum f l.
Proof.
  induction l as [|a [|b t] IH]; try (simpl; lra).
  cbn [pathSum] in *. rewrite IH. lra.
Qed.

Lemma closeRing_cons (a : Point) (t : list Point) :
  closeRing (a :: t) = a :: t ++ [a].
Proof. reflexivity. Qed.

Lemma pathSum_swap (f : Point -> Point -> R) (l1 l2 : list Point) :
  pathSum f (closeRing (l2 ++ l1)) = pathSum f (closeRing (l1 ++ l2)).
Proof.
  destruct l1 as [|a l1]; [now rewrite app_nil_r|].
  destruct l2 as [|b l2]; [now rewrite app_nil_r|].
  change ((b :: l2) ++ a :: l1) with (b :: l2 ++ a :: l1).
  change ((a :: l1) ++ b :: l2) with (a :: l1 ++ b :: l2).
  rewrite !closeRing_cons.
  rewrite <- !app_assoc. cbn [app].
  change (b :: l2 ++ a :: l1 ++ [b]) with ((b :: l2) ++ a :: l1 ++ [b]).
  change (a :: l1 ++ b :: l2 ++ [a]) with ((a :: l1) ++ b :: l2 ++ [a]).
  rewrite (pathSum_app f (b :: l2) (l1 ++ [b]) a).
  rewrite (pathSum_app f (a :: l1) (l2 ++ [a]) b).
  cbn [app]. lra.
Qed.

Lemma pathSum_rotate (f : Point -> Point -> R) (k : nat) (v : list Point) :
  pathSum f (closeRing (rotateRing k v)) = pathSum f (closeRing v).
Proof.
  unfold rotateRing. rewrite pathSum_swap. now rewrite firstn_skipn.
Qed.

Lemma length_rotateRing (k : nat) (v : list Point) :
  length (rotateRing k v) = length v.
Proof.
  unfold rotateRing. rewrite length_app, Nat.add_comm, <- length_app.
  now rewrite firstn_skipn.
Qed.

Lemma rev_closeRing (v : list Point) :
  v <> [] -> rev (closeRing v) = closeRing (at_ v 0 :: rev (tl v)).
Proof.
  destruct v as [|a t]; [congruence|]. intros _.
  rewrite closeRing_cons. cbn [rev tl]. unfold at_. cbn [nth].
  rewrite rev_app_distr. reflexivity.
Qed.

Lemma calculateDistance_sym (x1 y1 x2 y2 : R) :
  calculateDistance x1 y1 x2 y2 = calculateDistance x2 y2 x1 y1.
Proof.
  unfold calculateDistance. cbv zeta.
  replace ((y1 - y2) * PI / 180 / 2) with (- ((y2 - y1) * PI / 180 / 2)) by lra.
  replace ((x1 - x2) * PI / 180 / 2) with (- ((x2 - x1) * PI / 180 / 2)) by lra.
  rewrite !sin_neg.
  replace (- sin ((y2 - y1) * PI / 180 / 2) * - sin ((y2 - y1) * PI / 180 / 2)
           + cos (y2 * PI / 180) * cos (y1 * PI / 180)
             * - sin ((x2 - x1) * PI / 180 / 2) * - sin ((x2 - x1) * PI / 180 / 2))
    with (sin ((y2 - y1) * PI / 180 / 2) * sin ((y2 - y1) * PI / 180 / 2)
          + cos (y1 * PI / 180) * cos (y2 * PI / 180)
            * sin ((x2 - x1) * PI / 180 / 2) * sin ((x2 - x1) * PI / 180 / 2))
    by ring.
  reflexivity.
Qed.

End RingSums.

(** C8.  When the coordinates argument is null or undefined, or has fewer
    than three points, [calculatePolygonArea] (whatever turf would do),
    [calculatePolygonAreaFallback] and [calculatePolygonPerimeter] all return
    0; the models are total functions, so nothing is thrown. *)
Theorem area_perimeter_degenerate
    (turf_area : list Point -> option R) (coordinates : option (list Point)) :
  (coordinates = None \/ exists c, coordinates = Some c /\ length c < 3) ->
  SiteBoundaryManager.calculatePolygonArea turf_area coordinates = 0%R /\
  SiteBoundaryManager.calculatePolygonAreaFallback coordinates = 0%R /\
  SiteBoundaryManager.calculatePolygonPerimeter coordinates = 0%R.
Proof.
  intros [-> | [c [-> Hc]]].
  - repeat split.
  - apply Nat.ltb_lt in Hc.
    unfold SiteBoundaryManager.calculatePolygonArea,
      SiteBoundaryManager.calculatePolygonAreaFallback,
      SiteBoundaryManager.calculatePolygonPerimeter.
    rewrite Hc. repeat split.
Qed.

Lemma area_perimeter_degenerate_witness :
  let turf_throws := fun _ : list Point => @None R in
  let two := Some [(0, 0); (1, 1)]%R in
  (SiteBoundaryManager.calculatePolygonArea turf_throws None = 0%R /\
   SiteBoundaryManager.calculatePolygonAreaFallback None = 0%R /\
   SiteBoundaryManager.calculatePolygonPerimeter None = 0%R)
  /\
  (SiteBoundaryManager.calculatePolygonArea turf_throws two = 0%R /\
   SiteBoundaryManager.calculatePolygonAreaFallback two = 0%R /\
   SiteBoundaryManager.calculatePolygonPerimeter two = 0%R).
Proof.
  split.
  - apply area_perimeter_degenerate. left. reflexivity.
  - apply area_perimeter_degenerate. right.
    exists [(0, 0); (1, 1)]%R. split; [reflexivity | simpl; lia].
Defined.

Section Rounding.

Import PrimFloat.
Local Set Warnings "-inexact-float".

(** C9 as stated fails in the arithmetic of the code.  On the closed ring
    of (0.1, 0.2), (0.3, 0.7), (0.5, 0.1) the loop of
    [calculatePolygonAreaFallback], run in doubles, returns 0.11; on the
    same ring started at its second vertex it returns
    0.10999999999999999, and on the ring reversed 0.11000000000000001. *)
Lemma area_changes_with_start_vertex :
  Float64.calculatePolygonAreaFallback
    (Some [(0.1, 0.2); (0.3, 0.7); (0.5, 0.1); (0.1, 0.2)]%float)
  = 0.11%float
  /\ Float64.calculatePolygonAreaFallback
       (Some [(0.3, 0.7); (0.5, 0.1); (0.1, 0.2); (0.3, 0.7)]%float)
     = 0.10999999999999999%float
  /\ Float64.calculatePolygonAreaFallback
       (Some [(0.1, 0.2); (0.5, 0.1); (0.3, 0.7); (0.1, 0.2)]%float)
     = 0.11000000000000001%float
  /\ PrimFloat.ltb 0.10999999999999999 0.11 = true
  /\ PrimFloat.ltb 0.11 0.11000000000000001 = true.
Proof. repeat split; vm_compute; reflexivity. Qed.

End Rounding.

(** C9, amended.  For a closed ring over at least three vertices, the
    shoelace area and the perimeter taken as the exact sums of the terms
    that the code adds, over real numbers, do not change when the ring is
    started at another vertex (and closed again) or when its winding
    direction is reversed, and the area is not negative.  The code adds the
    terms in doubles in the order of the ring, and what it returns for the
    same ring started elsewhere or reversed can differ in the last digits,
    as above. *)
Theorem area_perimeter_invariant (v : list Point) (k : nat) :
  3 <= length v ->
  let area := fun c => SiteBoundaryManager.calculatePolygonAreaFallback (Some c) in
  let perimeter := fun c => SiteBoundaryManager.calculatePolygonPerimeter (Some c) in
  area (closeRing (rotateRing k v)) = area (closeRing v) /\
  area (rev (closeRing v)) = area (closeRing v) /\
  perimeter (closeRing (rotateRing k v)) = perimeter (closeRing v) /\
  perimeter (rev (closeRing v)) = perimeter (closeRing v) /\
  (0 <= area (closeRing v))%R.
Proof.
  intros Hlen. cbv zeta.
  assert (Hv : v <> []) by (destruct v; simpl in Hlen; [lia | congruence]).
  assert (Lc : forall w, length (closeRing w) = S (length w))
    by (intros w; unfold closeRing; rewrite length_app; simpl; lia).
  assert (Lrev : length (at_ v 0 :: rev (tl v)) = length v).
  { destruct v as [|a t]; [congruence|]. simpl. now rewrite length_rev. }
  repeat split.
  - rewrite !RingSums.area_pathSum
      by (rewrite ?RingSums.length_rotateRing; lia).
    now rewrite RingSums.pathSum_rotate.
  - rewrite (RingSums.rev_closeRing Hv).
    rewrite !RingSums.area_pathSum by lia.
    rewrite <- (RingSums.rev_closeRing Hv), RingSums.pathSum_rev.
    rewrite (@RingSums.pathSum_ext _ (fun a b => (- RingSums.cross a b)%R))
      by (intros; unfold RingSums.cross; lra).
    now rewrite RingSums.pathSum_opp, Rabs_Ropp.
  - rewrite !RingSums.perimeter_pathSum
      by (rewrite Lc, ?RingSums.length_rotateRing; lia).
    apply RingSums.pathSum_rotate.
  - rewrite !RingSums.perimeter_pathSum
      by (rewrite ?length_rev, Lc; lia).
    rewrite RingSums.pathSum_rev. apply RingSums.pathSum_ext.
    intros a b. apply RingSums.calculateDistance_sym.
  - rewrite RingSums.area_pathSum by lia.
    pose proof (Rabs_pos (RingSums.pathSum RingSums.cross (closeRing v))). lra.
Qed.

Lemma area_perimeter_invariant_witness :
  let v := [(0, 0); (0, 1); (1, 1); (1, 0)]%R in
  SiteBoundaryManager.calculatePolygonAreaFallback (Some (closeRing (rotateRing 1 v)))
  = SiteBoundaryManager.calculatePolygonAreaFallback (Some (closeRing v)).
Proof.
  apply (@area_perimeter_invariant [(0, 0); (0, 1); (1, 1); (1, 0)]%R 1).
  simpl. lia.
Defined.

(** ** Drawing a polygon point by point *)

Module DrawingFacts.
Local Open Scope R_scope.














End DrawingFacts.



(** Boundary drawing: what [handleMapClick] of SiteBoundaryManager does to
    the tracked points while MapboxDraw is in [draw_polygon] mode. *)
Lemma boundary_click_near (st : SiteBoundaryManager.State) (e : LngLat) :
  SiteBoundaryManager.drawMode_is_draw_polygon st = true ->
  SiteBoundaryManager.drawingPoints st <> [] ->
  let lastPoint := at_ (SiteBoundaryManager.drawingPoints st)
                       (length (SiteBoundaryManager.drawingPoints st) - 1) in
  (Rabs (lng lastPoint - lngOf e) < 0.000001)%R ->
  (Rabs (lat lastPoint - latOf e) < 0.000001)%R ->
  SiteBoundaryManager.handleMapClick st e = st.
Proof.
  intros Hmode Hne lastPoint Hx Hy.
  unfold SiteBoundaryManager.handleMapClick, SiteBoundaryManager.nearLast.
  rewrite Hmode. cbn [negb].
  rewrite nth_error_at
    by (destruct (SiteBoundaryManager.drawingPoints st); simpl; [congruence | lia]).
  fold lastPoint. apply Rltb_true_iff in Hx, Hy.
  unfold lng, lat in *. cbn [fst snd].
  now rewrite Hx, Hy.
Qed.

Lemma boundary_click_far (st : SiteBoundaryManager.State) (e : LngLat) :
  SiteBoundaryManager.drawMode_is_draw_polygon st = true ->
  let pts := SiteBoundaryManager.drawingPoints st in
  let lastPoint := at_ pts (length pts - 1) in
  pts = [] \/ ~ (Rabs (lng lastPoint - lngOf e) < 0.000001)%R
           \/ ~ (Rabs (lat lastPoint - latOf e) < 0.000001)%R ->
  SiteBoundaryManager.drawingPoints (SiteBoundaryManager.handleMapClick st e)
  = pts ++ [(lngOf e, latOf e)].
Proof.
  intros Hmode pts lastPoint Hfar.
  unfold SiteBoundaryManager.handleMapClick, SiteBoundaryManager.nearLast.
  rewrite Hmode. cbn [negb]. fold pts.
  destruct pts as [|p t] eqn:E; [reflexivity|].
  rewrite nth_error_at by (simpl; lia).
  fold lastPoint.
  destruct Hfar as [H | [H | H]]; [discriminate| |];
    apply Rltb_false_iff in H; unfold lng, lat in *; cbn [fst snd];
    rewrite H, ?andb_false_r; reflexivity.
Qed.

(** C6 as stated fails for footprint drawing: a click 1e-9 degrees from the
    last drawn point is appended by FloorplanManager. *)
Lemma footprint_duplicate_click_appended :
  let st :=
    {| FloorplanManager.geojsonPolygon := None;
       FloorplanManager.isLocked := false;
       FloorplanManager.isDrawing := true;
       FloorplanManager.drawingPoints := [(0, 0)%R];
       FloorplanManager.currentTransform := FloorplanManager.currentTransform FloorplanManager.initial;
       FloorplanManager.rotationCenter := None |} in
  let e := {| lngOf := 0.000000001; latOf := 0 |} in
  let lastPoint := at_ (FloorplanManager.drawingPoints st) 0 in
  (Rabs (lng lastPoint - lngOf e) < 0.000001)%R /\
  (Rabs (lat lastPoint - latOf e) < 0.000001)%R /\
  FloorplanManager.drawingPoints (FloorplanManager.handleMapClick None st e)
  <> FloorplanManager.drawingPoints st.
Proof.
  cbn. repeat split.
  - unfold Rabs. destruct Rcase_abs; lra.
  - unfold Rabs. destruct Rcase_abs; lra.
  - discriminate.
Qed.

(** C6, amended.  While the boundary is drawn, a click whose longitude and
    latitude are each less than 1e-6 degrees from those of the last tracked
    point leaves the state as it is, and any other click is appended to the
    tracked points.  While a footprint is drawn, [addDrawingPoint] appends
    every point it is given. *)
Theorem drawing_duplicate_suppression :
  (forall (st : SiteBoundaryManager.State) (e : LngLat),
      let pts := SiteBoundaryManager.drawingPoints st in
      let lastPoint := at_ pts (length pts - 1) in
      SiteBoundaryManager.drawMode_is_draw_polygon st = true ->
      pts <> [] ->
      (Rabs (lng lastPoint - lngOf e) < 0.000001)%R ->
      (Rabs (lat lastPoint - latOf e) < 0.000001)%R ->
      SiteBoundaryManager.handleMapClick st e = st)
  /\
  (forall (st : SiteBoundaryManager.State) (e : LngLat),
      let pts := SiteBoundaryManager.drawingPoints st in
      let lastPoint := at_ pts (length pts - 1) in
      SiteBoundaryManager.drawMode_is_draw_polygon st = true ->
      pts = [] \/ ~ (Rabs (lng lastPoint - lngOf e) < 0.000001)%R
               \/ ~ (Rabs (lat lastPoint - latOf e) < 0.000001)%R ->
      SiteBoundaryManager.drawingPoints (SiteBoundaryManager.handleMapClick st e)
      = pts ++ [(lngOf e, latOf e)])
  /\
  (forall (st : FloorplanManager.State) (e : LngLat),
      FloorplanManager.drawingPoints (FloorplanManager.addDrawingPoint st e)
      = FloorplanManager.drawingPoints st ++ [(lngOf e, latOf e)]).
Proof.
  split; [|split].
  - intros st e pts lastPoint Hmode Hne Hx Hy. now apply boundary_click_near.
  - intros st e pts lastPoint Hmode Hfar. now apply boundary_click_far.
  - reflexivity.
Qed.

Lemma drawing_duplicate_suppression_witness :
  let st := {| SiteBoundaryManager.drawMode_is_draw_polygon := true;
               SiteBoundaryManager.drawingPoints := [(0, 0)%R] |} in
  SiteBoundaryManager.handleMapClick st {| lngOf := 0.000000001; latOf := 0 |} = st
  /\ SiteBoundaryManager.drawingPoints
       (SiteBoundaryManager.handleMapClick st {| lngOf := 1; latOf := 0 |})
     = [(0, 0); (1, 0)]%R.
Proof.
  split.
  - apply (proj1 drawing_duplicate_suppression).
    + reflexivity.
    + discriminate.
    + cbn. unfold Rabs. destruct Rcase_abs; lra.
    + cbn. unfold Rabs. destruct Rcase_abs; lra.
  - apply (proj1 (proj2 drawing_duplicate_suppression)
             {| SiteBoundaryManager.drawMode_is_draw_polygon := true;
                SiteBoundaryManager.drawingPoints := [(0, 0)%R] |}
             {| lngOf := 1; latOf := 0 |}).
    + reflexivity.
    + right. left. cbn. unfold Rabs. destruct Rcase_abs; lra.
Defined.

(** ** Containment of footprint points *)

Module ContainmentFacts.
Import FloorplanManager.

Lemma crossing_undefined (x y : R) (polygon : list (option R * option R)) (i j : nat) :
  (forall k, nth k polygon (None, None) = (None, None)) ->
  crossing x y polygon i j = false.
Proof.
  intros H. unfold crossing. now rewrite !H.
Qed.

Lemma fold_undefined (x y : R) (polygon : list (option R * option R)) :
  (forall k, nth k polygon (None, None) = (None, None)) ->
  forall (l : list nat) (j : nat),
    fst (fold_left (pointInPolygonStep x y polygon) l (false, j)) = false.
Proof.
  intros H. induction l as [|i l IH]; intros j; [reflexivity|].
  cbn [fold_left]. unfold pointInPolygonStep at 2.
  rewrite crossing_undefined by assumption. apply IH.
Qed.

Lemma nth_all_undefined (coords : list Point) (k : nat) :
  nth k (map (fun coord => (prop_lng coord, prop_lat coord)) (map CoordArray coords))
      (None, None) = (None, None).
Proof.
  rewrite map_map. cbn [prop_lng prop_lat].
  revert k. induction coords as [|c t IH]; intros [|k]; cbn; auto.
Qed.

Lemma pointInPolygon_arrays (point : Point) (coords : list Point) :
  pointInPolygon point
    (map (fun coord => (prop_lng coord, prop_lat coord)) (map CoordArray coords))
  = false.
Proof.
  unfold pointInPolygon. apply fold_undefined. apply nth_all_undefined.
Qed.

(** With array entries in [siteData.coordinates] no click is accepted. *)
Lemma click_array_boundary (coords : list Point) (area : option R)
      (center : option LngLat) (st : State) (e : LngLat) :
  handleMapClick
    (Some {| sd_coordinates := Some (map CoordArray coords);
             sd_area := area; sd_center := center |}) st e = st.
Proof.
  unfold handleMapClick, isPointWithinSiteBoundary. cbn [sd_coordinates].
  rewrite pointInPolygon_arrays. now destruct (isDrawing st).
Qed.

(** With [{lng, lat}] objects in [siteData.coordinates] a click is
    accepted exactly when the ray-casting test says it is inside. *)
Lemma click_object_boundary (objs : list LngLat) (area : option R)
      (center : option LngLat) (st : State) (e : LngLat) :
  isDrawing st = true ->
  handleMapClick
    (Some {| sd_coordinates := Some (map CoordObject objs);
             sd_area := area; sd_center := center |}) st e
  = if pointInPolygon (lngOf e, latOf e)
         (map (fun o => (Some (lngOf o), Some (latOf o))) objs)
    then addDrawingPoint st e else st.
Proof.
  intros Hd. unfold handleMapClick, isPointWithinSiteBoundary.
  rewrite Hd. cbn [negb sd_coordinates]. rewrite map_map. cbn [prop_lng prop_lat].
  now destruct (pointInPolygon _ _).
Qed.

(** Without site data there is no containment test at all. *)
Lemma click_no_site_data (st : State) (e : LngLat) :
  isDrawing st = true -> handleMapClick None st e = addDrawingPoint st e.
Proof. intros Hd. unfold handleMapClick. now rewrite Hd. Qed.

End ContainmentFacts.

Ltac decide_Rltb :=
  repeat match goal with
    | |- context [Rltb ?a ?b] =>
        first [ replace (Rltb a b) with true by (symmetry; apply Rltb_true_iff; lra)
              | replace (Rltb a b) with false by (symmetry; apply Rltb_false_iff; lra) ]
    end.

(** C7 at a failing input.  The boundary is the unit square as
    [handleSiteBoundaryCreated] stores it, an array of [[lng, lat]] arrays.
    The ray-casting test run on these coordinates puts the click
    (0.5, 0.5) inside and the click (5, 5) outside.  [handleMapClick] reads
    [coord.lng] and [coord.lat], which are undefined on arrays, and drops
    the click inside; and when the global [siteInspector] is not defined
    there is no test, and the click outside is appended. *)
Theorem footprint_click_inside_rejected :
  let boundary := [(0, 0); (0, 1); (1, 1); (1, 0); (0, 0)]%R in
  let siteData := SiteInspectorCore.handleSiteBoundaryCreated boundary 1 in
  let st :=
    {| FloorplanManager.geojsonPolygon := None;
       FloorplanManager.isLocked := false;
       FloorplanManager.isDrawing := true;
       FloorplanManager.drawingPoints := [];
       FloorplanManager.currentTransform := FloorplanManager.currentTransform FloorplanManager.initial;
       FloorplanManager.rotationCenter := None |} in
  let inside := {| lngOf := 0.5; latOf := 0.5 |} in
  let outside := {| lngOf := 5; latOf := 5 |} in
  let byIndex := map (fun p => (Some (lng p), Some (lat p))) boundary in
  FloorplanManager.pointInPolygon (lngOf inside, latOf inside) byIndex = true
  /\ FloorplanManager.handleMapClick (Some siteData) st inside = st
  /\ FloorplanManager.pointInPolygon (lngOf outside, latOf outside) byIndex = false
  /\ FloorplanManager.drawingPoints (FloorplanManager.handleMapClick None st outside)
     = [(5, 5)%R].
Proof.
  cbv zeta. split; [|split; [|split]].
  - unfold FloorplanManager.pointInPolygon.
    cbn [map length seq fold_left Nat.sub lng lat fst snd lngOf latOf].
    unfold FloorplanManager.pointInPolygonStep, FloorplanManager.crossing.
    cbn [nth fst snd FloorplanManager.js_gt FloorplanManager.js_lt FloorplanManager.js_op].
    decide_Rltb. reflexivity.
  - apply ContainmentFacts.click_array_boundary.
  - unfold FloorplanManager.pointInPolygon.
    cbn [map length seq fold_left Nat.sub lng lat fst snd lngOf latOf].
    unfold FloorplanManager.pointInPolygonStep, FloorplanManager.crossing.
    cbn [nth fst snd FloorplanManager.js_gt FloorplanManager.js_lt FloorplanManager.js_op].
    decide_Rltb. reflexivity.
  - reflexivity.
Qed.

(** ** Selecting the front and the back edge *)

Module SelectionFacts.
Import PropertySetbacksManager.
Local Open Scope R_scope.

Definition idx (e : Edge) : nat := SiteBoundaryManager.index e.

(** The edge a click resolves to, if any. *)
Definition resolve (edges : list Edge) (e : option LngLat) : option Edge :=
  match e with
  | None => None
  | Some lngLat => findNearestEdge edges (lngOf lngLat, latOf lngLat)
  end.

Definition resolved (edges : list Edge) (clicks : list (option LngLat)) : list Edge :=
  flat_map (fun e => match resolve edges e with Some x => [x] | None => [] end) clicks.

Definition otherThan (f : Edge) (e : Edge) : bool := negb (idx e =? idx f)%nat.

(** A back edge is only ever held next to a front edge of another index. *)
Definition wellFormed (sel : SelectedEdges) : Prop :=
  match back sel with
  | None => True
  | Some b => match front sel with
              | Some f => idx f <> idx b
              | None => False
              end
  end.

Definition clicksOn (st : State) (clicks : list (option LngLat)) : State :=
  fold_left handleEdgeSelection clicks st.

Lemma select_wellFormed (st : State) (e : Edge) :
  wellFormed (selectedEdges st) -> wellFormed (selectedEdges (select st e)).
Proof.
  unfold select, wellFormed.
  destruct (front (selectedEdges st)) as [f|] eqn:Ef;
    destruct (back (selectedEdges st)) as [b|] eqn:Eb; cbn; try tauto.
  - rewrite Ef, Eb. tauto.
  - intros _. destruct (SiteBoundaryManager.index e =? SiteBoundaryManager.index f)%nat eqn:E; cbn.
    + now rewrite Eb.
    + rewrite Ef. apply Nat.eqb_neq in E. unfold idx. congruence.
  - now rewrite Eb.
Qed.

Lemma click_wellFormed (st : State) (e : option LngLat) :
  wellFormed (selectedEdges st) ->
  wellFormed (selectedEdges (handleEdgeSelection st e)).
Proof.
  intros H. unfold handleEdgeSelection.
  destruct (negb (isEdgeSelectionMode st)); [assumption|].
  destruct e as [l|]; [|assumption].
  destruct (findNearestEdge _ _); [now apply select_wellFormed | assumption].
Qed.

Lemma labelClick_wellFormed (st : State) (i : nat) :
  wellFormed (selectedEdges st) ->
  wellFormed (selectedEdges (handleLabelClick st i)).
Proof.
  intros H. unfold handleLabelClick.
  destruct (isEdgeSelectionMode st); [|assumption].
  destruct (nth_error _ _); [now apply select_wellFormed | assumption].
Qed.

Lemma event_wellFormed (st : State) (ev : SelectionEvent) :
  wellFormed (selectedEdges st) ->
  wellFormed (selectedEdges (applyEvent st ev)).
Proof.
  intros H. destruct ev; cbn [applyEvent].
  - now apply click_wellFormed.
  - now apply labelClick_wellFormed.
  - unfold enterEdgeSelectionMode. now destruct (polygonEdges st).
  - exact H.
  - exact I.
Qed.

Lemma events_wellFormed (evs : list SelectionEvent) (st : State) :
  wellFormed (selectedEdges st) ->
  wellFormed (selectedEdges (fold_left applyEvent evs st)).
Proof.
  revert st. induction evs as [|ev evs IH]; intros st H.
  - exact H.
  - cbn [fold_left]. apply IH. now apply event_wellFormed.
Qed.

Lemma initial_wellFormed : wellFormed (selectedEdges initial).
Proof. exact I. Qed.

Lemma cleared_wellFormed (st : State) :
  wellFormed (selectedEdges (clearEdgeSelections st)).
Proof. exact I. Qed.

Lemma wellFormed_distinct (sel : SelectedEdges) (f b : Edge) :
  wellFormed sel -> front sel = Some f -> back sel = Some b -> idx f <> idx b.
Proof. unfold wellFormed. intros H Hf Hb. now rewrite Hb, Hf in H. Qed.

(** Out of selection mode the clicks do nothing. *)
Lemma clicks_mode_off (clicks : list (option LngLat)) (st : State) :
  isEdgeSelectionMode st = false -> clicksOn st clicks = st.
Proof.
  intros H. unfold clicksOn. induction clicks as [|e clicks IH]; [reflexivity|].
  cbn [fold_left]. unfold handleEdgeSelection at 2. rewrite H. exact IH.
Qed.

(** With a front edge and no back edge: the first resolved edge of another
    index becomes the back edge and ends the selection. *)
Lemma clicks_front_only (clicks : list (option LngLat)) (st : State) (f : Edge) :
  isEdgeSelectionMode st = true ->
  front (selectedEdges st) = Some f ->
  back (selectedEdges st) = None ->
  clicksOn st clicks
  = match find (otherThan f) (resolved (polygonEdges st) clicks) with
    | Some b => exitEdgeSelectionMode (setBack st b)
    | None => st
    end.
Proof.
  revert st. induction clicks as [|e clicks IH]; intros st Hm Hf Hb; [reflexivity|].
  unfold clicksOn in *. cbn [fold_left resolved flat_map].
  unfold handleEdgeSelection at 2. rewrite Hm. cbn [negb].
  fold (resolved (polygonEdges st) clicks).
  destruct e as [l|]; cbn [resolve]; [|now apply IH].
  destruct (findNearestEdge (polygonEdges st) (lngOf l, latOf l)) as [x|];
    [|now apply IH].
  cbn [app find]. unfold select. rewrite Hf, Hb.
  unfold otherThan at 1. unfold idx.
  destruct (negb (SiteBoundaryManager.index x =? SiteBoundaryManager.index f)%nat).
  - apply (clicks_mode_off clicks). reflexivity.
  - now apply IH.
Qed.

(** From an empty selection: the first resolved edge becomes the front
    edge. *)
Lemma clicks_fresh (clicks : list (option LngLat)) (st : State) :
  isEdgeSelectionMode st = true ->
  front (selectedEdges st) = None ->
  back (selectedEdges st) = None ->
  clicksOn st clicks
  = match resolved (polygonEdges st) clicks with
    | [] => st
    | f :: rest =>
        match find (otherThan f) rest with
        | Some b => exitEdgeSelectionMode (setBack (setFront st f) b)
        | None => setFront st f
        end
    end.
Proof.
  revert st. induction clicks as [|e clicks IH]; intros st Hm Hf Hb; [reflexivity|].
  unfold clicksOn in *. cbn [fold_left resolved flat_map].
  unfold handleEdgeSelection at 2. rewrite Hm. cbn [negb].
  fold (resolved (polygonEdges st) clicks).
  destruct e as [l|]; cbn [resolve]; [|now apply IH].
  destruct (findNearestEdge (polygonEdges st) (lngOf l, latOf l)) as [x|];
    [|now apply IH].
  cbn [app]. unfold select. rewrite Hf.
  apply (clicks_front_only clicks (setFront st x) (f := x)); cbn; auto.
Qed.

(** Distances to a segment, for concrete clicks. *)
Lemma distance_nonneg (p s e : Point) : 0 <= distanceToLineSegment p s e.
Proof. unfold distanceToLineSegment. apply sqrt_pos. Qed.

Lemma distance_at_start (s e : Point) : distanceToLineSegment s s e = 0.
Proof.
  unfold distanceToLineSegment. cbv zeta.
  replace (lng s - lng s) with 0 by lra.
  replace (lat s - lat s) with 0 by lra.
  set (C := lng e - lng s). set (D := lat e - lat s).
  replace (0 * C + 0 * D) with 0 by lra.
  assert (Hp : (if negb (Reqb (C * C + D * D) 0) then 0 / (C * C + D * D) else -1) = 0
               \/ (if negb (Reqb (C * C + D * D) 0) then 0 / (C * C + D * D) else -1) = -1).
  { destruct (Reqb (C * C + D * D) 0); cbn [negb]; [now right|left].
    unfold Rdiv. apply Rmult_0_l. }
  destruct Hp as [-> | ->].
  - replace (Rltb 0 0) with false by (symmetry; apply Rltb_false_iff; lra).
    replace (Rltb 1 0) with false by (symmetry; apply Rltb_false_iff; lra).
    replace ((lng s - (lng s + 0 * C)) * (lng s - (lng s + 0 * C))
             + (lat s - (lat s + 0 * D)) * (lat s - (lat s + 0 * D))) with 0 by ring.
    apply sqrt_0.
  - replace (Rltb (-1) 0) with true by (symmetry; apply Rltb_true_iff; lra).
    replace ((lng s - lng s) * (lng s - lng s) + (lat s - lat s) * (lat s - lat s))
      with 0 by ring.
    apply sqrt_0.
Qed.

Lemma findNearestEdge_settled (p : Point) (edges : list Edge) (x : Edge) :
  fst (fold_left (nearestStep p) edges (Some x, Some 0)) = Some x.
Proof.
  induction edges as [|e edges IH]; [reflexivity|].
  cbn [fold_left]. unfold nearestStep at 2. cbn [snd].
  replace (Rltb (distanceToLineSegment p (SiteBoundaryManager.start e)
                   (SiteBoundaryManager.end_ e)) 0) with false.
  - exact IH.
  - symmetry. apply Rltb_false_iff.
    pose proof (distance_nonneg p (SiteBoundaryManager.start e) (SiteBoundaryManager.end_ e)).
    lra.
Qed.

Lemma findNearestEdge_on_first (p : Point) (x : Edge) (edges : list Edge) :
  distanceToLineSegment p (SiteBoundaryManager.start x) (SiteBoundaryManager.end_ x) = 0 ->
  findNearestEdge (x :: edges) p = Some x.
Proof.
  intros H. unfold findNearestEdge. cbn [fold_left].
  unfold nearestStep at 2. cbn [snd]. rewrite H.
  replace (Rltb 0 0.0001) with true by (symmetry; apply Rltb_true_iff; lra).
  apply findNearestEdge_settled.
Qed.

Lemma findNearestEdge_skip_first (p : Point) (x : Edge) (edges : list Edge) :
  ~ distanceToLineSegment p (SiteBoundaryManager.start x) (SiteBoundaryManager.end_ x) < 0.0001 ->
  findNearestEdge (x :: edges) p = findNearestEdge edges p.
Proof.
  intros H. unfold findNearestEdge. cbn [fold_left].
  unfold nearestStep at 2. cbn [snd].
  apply Rltb_false_iff in H. now rewrite H.
Qed.

End SelectionFacts.

Lemma Reqb_false_iff (a b : R) : Reqb a b = false <-> a <> b.
Proof.
  unfold Reqb. destruct (Req_dec_T a b); split; intros; congruence.
Qed.

Ltac decide_Reqb :=
  repeat match goal with
    | |- context [Reqb ?a ?b] =>
        first [ replace (Reqb a b) with true by (symmetry; apply Reqb_true_iff; lra)
              | replace (Reqb a b) with false by (symmetry; apply Reqb_false_iff; lra) ]
    end.

(** C2.  In edge selection mode: a click that resolves to an edge while no
    front edge is held stores that edge as the front edge; a click that
    resolves to the index of the front edge changes nothing; a click that
    resolves to another index while no back edge is held stores it as the
    back edge and leaves selection mode.  Over any sequence of map clicks,
    label clicks, entering and leaving selection mode and clearing the
    selection, from a selection that holds a back edge only next to a front
    edge of another index (as the empty selection of the constructor does),
    a front and a back edge that are both held have different indices.
    Over any sequence of map clicks from an empty selection, the front edge
    is the first edge resolved, the back edge is the first edge resolved
    after it with another index, and selection mode is left exactly when a
    back edge has been stored. *)
Theorem edge_selection_clicks :
  (forall (st : PropertySetbacksManager.State) (e : option LngLat)
          (x : PropertySetbacksManager.Edge),
      PropertySetbacksManager.isEdgeSelectionMode st = true ->
      SelectionFacts.resolve (PropertySetbacksManager.polygonEdges st) e = Some x ->
      PropertySetbacksManager.front (PropertySetbacksManager.selectedEdges st) = None ->
      PropertySetbacksManager.handleEdgeSelection st e
      = PropertySetbacksManager.setFront st x)
  /\
  (forall (st : PropertySetbacksManager.State) (e : option LngLat)
          (x f : PropertySetbacksManager.Edge),
      PropertySetbacksManager.isEdgeSelectionMode st = true ->
      SelectionFacts.resolve (PropertySetbacksManager.polygonEdges st) e = Some x ->
      PropertySetbacksManager.front (PropertySetbacksManager.selectedEdges st) = Some f ->
      SelectionFacts.idx x = SelectionFacts.idx f ->
      PropertySetbacksManager.handleEdgeSelection st e = st)
  /\
  (forall (st : PropertySetbacksManager.State) (e : option LngLat)
          (x f : PropertySetbacksManager.Edge),
      PropertySetbacksManager.isEdgeSelectionMode st = true ->
      SelectionFacts.resolve (PropertySetbacksManager.polygonEdges st) e = Some x ->
      PropertySetbacksManager.front (PropertySetbacksManager.selectedEdges st) = Some f ->
      PropertySetbacksManager.back (PropertySetbacksManager.selectedEdges st) = None ->
      SelectionFacts.idx x <> SelectionFacts.idx f ->
      PropertySetbacksManager.handleEdgeSelection st e
      = PropertySetbacksManager.exitEdgeSelectionMode (PropertySetbacksManager.setBack st x))
  /\
  (forall (st : PropertySetbacksManager.State)
          (events : list PropertySetbacksManager.SelectionEvent)
          (f b : PropertySetbacksManager.Edge),
      SelectionFacts.wellFormed (PropertySetbacksManager.selectedEdges st) ->
      let st' := fold_left PropertySetbacksManager.applyEvent events st in
      PropertySetbacksManager.front (PropertySetbacksManager.selectedEdges st') = Some f ->
      PropertySetbacksManager.back (PropertySetbacksManager.selectedEdges st') = Some b ->
      SelectionFacts.idx f <> SelectionFacts.idx b)
  /\
  (forall (st : PropertySetbacksManager.State) (clicks : list (option LngLat)),
      PropertySetbacksManager.isEdgeSelectionMode st = true ->
      PropertySetbacksManager.front (PropertySetbacksManager.selectedEdges st) = None ->
      PropertySetbacksManager.back (PropertySetbacksManager.selectedEdges st) = None ->
      let st' := SelectionFacts.clicksOn st clicks in
      let rs := SelectionFacts.resolved (PropertySetbacksManager.polygonEdges st) clicks in
      PropertySetbacksManager.front (PropertySetbacksManager.selectedEdges st') = hd_error rs
      /\ PropertySetbacksManager.back (PropertySetbacksManager.selectedEdges st')
         = match rs with
           | [] => None
           | f :: rest => find (SelectionFacts.otherThan f) rest
           end
      /\ PropertySetbacksManager.isEdgeSelectionMode st'
         = match PropertySetbacksManager.back (PropertySetbacksManager.selectedEdges st') with
           | None => true
           | Some _ => false
           end).
Proof.
  split; [|split; [|split; [|split]]].
  - intros st e x Hm Hr Hf. unfold PropertySetbacksManager.handleEdgeSelection.
    rewrite Hm. cbn [negb]. destruct e as [l|]; [|discriminate].
    cbn [SelectionFacts.resolve] in Hr. rewrite Hr.
    unfold PropertySetbacksManager.select. now rewrite Hf.
  - intros st e x f Hm Hr Hf Hi. unfold PropertySetbacksManager.handleEdgeSelection.
    rewrite Hm. cbn [negb]. destruct e as [l|]; [|discriminate].
    cbn [SelectionFacts.resolve] in Hr. rewrite Hr.
    unfold PropertySetbacksManager.select. rewrite Hf.
    destruct (PropertySetbacksManager.back _); [reflexivity|].
    unfold SelectionFacts.idx in Hi. rewrite Hi, Nat.eqb_refl. reflexivity.
  - intros st e x f Hm Hr Hf Hb Hi. unfold PropertySetbacksManager.handleEdgeSelection.
    rewrite Hm. cbn [negb]. destruct e as [l|]; [|discriminate].
    cbn [SelectionFacts.resolve] in Hr. rewrite Hr.
    unfold PropertySetbacksManager.select. rewrite Hf, Hb.
    apply Nat.eqb_neq in Hi. unfold SelectionFacts.idx in Hi. now rewrite Hi.
  - intros st events f b Hwf st' Hf Hb.
    apply (@SelectionFacts.wellFormed_distinct
             (PropertySetbacksManager.selectedEdges st') f b); auto.
    now apply SelectionFacts.events_wellFormed.
  - intros st clicks Hm Hf Hb st' rs. unfold st'.
    rewrite SelectionFacts.clicks_fresh by assumption. fold rs.
    destruct rs as [|f rest]; cbn [hd_error].
    + now rewrite Hf, Hb, Hm.
    + destruct (find (SelectionFacts.otherThan f) rest); cbn; auto.
      now rewrite Hb, Hm.
Qed.

Lemma edge_selection_clicks_witness :
  let e0 := {| SiteBoundaryManager.index := 0;
               SiteBoundaryManager.start := (0, 0)%R;
               SiteBoundaryManager.end_ := (1, 0)%R;
               SiteBoundaryManager.midpoint := (0.5, 0)%R |} in
  let e1 := {| SiteBoundaryManager.index := 1;
               SiteBoundaryManager.start := (1, 0)%R;
               SiteBoundaryManager.end_ := (1, 1)%R;
               SiteBoundaryManager.midpoint := (1, 0.5)%R |} in
  let st :=
    {| PropertySetbacksManager.polygonEdges := [e0; e1];
       PropertySetbacksManager.selectedEdges :=
         {| PropertySetbacksManager.front := None; PropertySetbacksManager.back := None |};
       PropertySetbacksManager.isEdgeSelectionMode := true |} in
  let at00 := Some {| lngOf := 0; latOf := 0 |} in
  let at11 := Some {| lngOf := 1; latOf := 1 |} in
  let st' := SelectionFacts.clicksOn st [at00; at00; at11] in
  PropertySetbacksManager.front (PropertySetbacksManager.selectedEdges st') = Some e0
  /\ PropertySetbacksManager.back (PropertySetbacksManager.selectedEdges st') = Some e1
  /\ PropertySetbacksManager.isEdgeSelectionMode st' = false.
Proof.
  intros e0 e1 st at00 at11 st'.
  assert (R0 : SelectionFacts.resolve [e0; e1] at00 = Some e0).
  { cbn [SelectionFacts.resolve at00 lngOf latOf].
    apply SelectionFacts.findNearestEdge_on_first.
    apply (SelectionFacts.distance_at_start (0, 0)%R (1, 0)%R). }
  assert (R1 : SelectionFacts.resolve [e0; e1] at11 = Some e1).
  { cbn [SelectionFacts.resolve at11 lngOf latOf].
    rewrite SelectionFacts.findNearestEdge_skip_first.
    - apply SelectionFacts.findNearestEdge_on_first.
      unfold PropertySetbacksManager.distanceToLineSegment, e1, lng, lat.
      cbn [SiteBoundaryManager.start SiteBoundaryManager.end_ fst snd].
      decide_Reqb. cbn [negb]. decide_Rltb.
      replace ((1 - (1 + ((1 - 1) * (1 - 1) + (1 - 0) * (1 - 0))
                          / ((1 - 1) * (1 - 1) + (1 - 0) * (1 - 0)) * (1 - 1)))
               * (1 - (1 + ((1 - 1) * (1 - 1) + (1 - 0) * (1 - 0))
                            / ((1 - 1) * (1 - 1) + (1 - 0) * (1 - 0)) * (1 - 1)))
               + (1 - (0 + ((1 - 1) * (1 - 1) + (1 - 0) * (1 - 0))
                            / ((1 - 1) * (1 - 1) + (1 - 0) * (1 - 0)) * (1 - 0)))
                 * (1 - (0 + ((1 - 1) * (1 - 1) + (1 - 0) * (1 - 0))
                              / ((1 - 1) * (1 - 1) + (1 - 0) * (1 - 0)) * (1 - 0))))%R
        with 0%R by lra.
      apply sqrt_0.
    - unfold PropertySetbacksManager.distanceToLineSegment, e0, lng, lat.
      cbn [SiteBoundaryManager.start SiteBoundaryManager.end_ fst snd].
      decide_Reqb. cbn [negb]. decide_Rltb.
      replace ((1 - (0 + ((1 - 0) * (1 - 0) + (1 - 0) * (0 - 0))
                          / ((1 - 0) * (1 - 0) + (0 - 0) * (0 - 0)) * (1 - 0)))
               * (1 - (0 + ((1 - 0) * (1 - 0) + (1 - 0) * (0 - 0))
                            / ((1 - 0) * (1 - 0) + (0 - 0) * (0 - 0)) * (1 - 0)))
               + (1 - (0 + ((1 - 0) * (1 - 0) + (1 - 0) * (0 - 0))
                            / ((1 - 0) * (1 - 0) + (0 - 0) * (0 - 0)) * (0 - 0)))
                 * (1 - (0 + ((1 - 0) * (1 - 0) + (1 - 0) * (0 - 0))
                              / ((1 - 0) * (1 - 0) + (0 - 0) * (0 - 0)) * (0 - 0))))%R
        with 1%R by lra.
      rewrite sqrt_1. lra. }
  assert (Rs : SelectionFacts.resolved (PropertySetbacksManager.polygonEdges st)
                 [at00; at00; at11] = [e0; e0; e1]).
  { unfold SelectionFacts.resolved. cbn [flat_map PropertySetbacksManager.polygonEdges st].
    now rewrite R0, R1. }
  destruct (proj2 (proj2 (proj2 (proj2 edge_selection_clicks))) st [at00; at00; at11]
              eq_refl eq_refl eq_refl) as (Hf & Hb & Hm).
  fold st' in Hf, Hb, Hm. rewrite Rs in Hf, Hb.
  assert (I0 : SelectionFacts.otherThan e0 e0 = false) by reflexivity.
  assert (I1 : SelectionFacts.otherThan e0 e1 = true) by reflexivity.
  cbn [hd_error find] in Hf, Hb. rewrite I0, I1 in Hb.
  rewrite Hb in Hm. auto.
Defined.

(** ** Setback distances *)

Example parseFloat_decimal :
  JS.parseFloat (JS.Str "4.5") = JS.Num (QArith_base.Qmake 9 2)
  /\ JS.parseFloat (JS.Str "  12abc") = JS.Num (QArith_base.Qmake 12 1)
  /\ JS.parseFloat (JS.Str ".5") = JS.Num (QArith_base.Qmake 1 2)
  /\ JS.parseFloat (JS.Str "-1.5e2") = JS.Num (QArith_base.Qmake (-150) 1)
  /\ JS.parseFloat (JS.Str "-Infinity") = JS.Infinity true.
Proof. repeat split; vm_compute; reflexivity. Qed.

Example parseFloat_not_a_number :
  JS.parseFloat (JS.Str "") = JS.NaN
  /\ JS.parseFloat (JS.Str "abc") = JS.NaN
  /\ JS.parseFloat (JS.Str ".") = JS.NaN
  /\ JS.parseFloat JS.Undefined = JS.NaN
  /\ JS.parseFloat JS.Null = JS.NaN.
Proof. repeat split; vm_compute; reflexivity. Qed.

Example zero_input_takes_default :
  JS.or_default (JS.parseFloat (JS.Str "0")) PropertySetbacksManager.defaultFront
  = PropertySetbacksManager.defaultFront.
Proof. vm_compute. reflexivity. Qed.

Module SetbackFacts.
Import PropertySetbacksManager SiteInspectorCore.

Lemma forEachPush_map (A B : Type) (f : nat -> B) (arr : list A) :
  forEachPush f arr = map f (seq 0 (length arr)).
Proof.
  unfold forEachPush.
  assert (G : forall (l : list (nat * A)) (acc : list B),
             fold_left (fun out ie => out ++ [f (fst ie)]) l acc
             = acc ++ map f (map fst l)).
  { induction l as [|x l IH]; intros acc; cbn.
    - now rewrite app_nil_r.
    - rewrite IH, <- app_assoc. reflexivity. }
  rewrite G. cbn [app]. f_equal.
  generalize 0. induction arr as [|a arr IH]; intros k; cbn; [reflexivity|].
  now rewrite IH.
Qed.

Lemma classifications_indices (data : Payload) :
  map ec_index (edgeClassifications data) = seq 0 (length (p_polygonEdges data)).
Proof.
  unfold edgeClassifications.
  destruct (front (p_selectedEdges data)) as [f|];
    [destruct (back (p_selectedEdges data)) as [b|]|];
    rewrite forEachPush_map, map_map; rewrite <- (map_id (seq _ _)) at 2;
    apply map_ext; intros i; unfold classifySelected, classifyUnselected;
    repeat (destruct (_ =? _)); reflexivity.
Qed.

Lemma classification_cases (data : Payload) (ec : EdgeClassification) :
  In ec (edgeClassifications data) ->
  (ec_type ec = front_ /\
   ec_setback ec = JS.or_default (JS.parseFloat (frontSetback data)) zero)
  \/ (ec_type ec = back_ /\
      ec_setback ec = JS.or_default (JS.parseFloat (backSetback data)) zero)
  \/ (ec_type ec = side_ /\
      ec_setback ec = JS.or_default (JS.parseFloat (sideSetback data)) zero).
Proof.
  unfold edgeClassifications.
  destruct (front (p_selectedEdges data)) as [f|];
    [destruct (back (p_selectedEdges data)) as [b|]|];
    rewrite forEachPush_map; intros Hin; apply in_map_iff in Hin;
    destruct Hin as [i [<- _]]; unfold classifySelected, classifyUnselected;
    repeat (destruct (_ =? _)); cbn; tauto.
Qed.

Lemma emitted_payload (st : State) (inputs : Inputs) (payload : Payload) :
  calculateBuildableAreaPreview st inputs = Some payload
  \/ recalculateBuildableArea st inputs = Some payload ->
  frontSetback payload
  = JS.Number (JS.or_default (JS.parseFloat (inputValue (in_frontSetback inputs))) defaultFront)
  /\ backSetback payload
     = JS.Number (JS.or_default (JS.parseFloat (inputValue (in_backSetback inputs))) defaultBack)
  /\ sideSetback payload
     = JS.Number (JS.or_default (JS.parseFloat (inputValue (in_sideSetback inputs))) defaultSide).
Proof.
  unfold calculateBuildableAreaPreview, recalculateBuildableArea, readSetbacks.
  destruct (negb (bothSelected (selectedEdges st)));
    intros [H | H]; try discriminate; inversion H; subst; cbn; auto.
Qed.

(** [o[k]], [None] when the object has no such key. *)
Fixpoint objGet (o : object) (k : string) : option JS.value :=
  match o with
  | [] => None
  | (k', v) :: r => if String.eqb k k' then Some v else objGet r k
  end.

Lemma objGet_objSet (o : object) (k : string) (v : JS.value) (k' : string) :
  objGet (objSet o k v) k' = if String.eqb k' k then Some v else objGet o k'.
Proof.
  induction o as [|[k1 v1] r IH]; cbn [objSet objGet]; [reflexivity|].
  destruct (String.eqb_spec k k1) as [-> | Hne]; cbn [objGet].
  - destruct (String.eqb k' k1); reflexivity.
  - rewrite IH. destruct (String.eqb_spec k' k1) as [-> | Hne']; [|reflexivity].
    destruct (String.eqb_spec k1 k) as [E | _]; [congruence | reflexivity].
Qed.

Lemma objGet_app (a b : object) (k : string) :
  objGet (a ++ b) k = match objGet a k with Some v => Some v | None => objGet b k end.
Proof.
  induction a as [|[k1 v1] r IH]; cbn [app objGet]; [reflexivity|].
  destruct (String.eqb k k1); [reflexivity | exact IH].
Qed.

(** In [{...a, ...b}] a key has the value [b] gives it, the last one if
    the list [b] names it more than once, and otherwise that of [a]. *)
Lemma objGet_spread (b a : object) (k : string) :
  objGet (spread a b) k
  = match objGet (rev b) k with Some v => Some v | None => objGet a k end.
Proof.
  unfold spread. revert a. induction b as [|[k1 v1] b IH]; intros a; [reflexivity|].
  cbn [fold_left fst snd rev]. rewrite IH, objGet_objSet, objGet_app.
  cbn [objGet]. destruct (objGet (rev b) k); [reflexivity|].
  destruct (String.eqb k k1); reflexivity.
Qed.

End SetbackFacts.

(** C4 as stated fails: with both edges selected and the three setback
    inputs empty, not a number, and missing, the confirmed recompute
    classifies the edges with the setbacks 4.5, 3.5 and 1.5, not 0. *)
Lemma recompute_missing_input_not_zero :
  let edge := fun i a b =>
    {| SiteBoundaryManager.index := i; SiteBoundaryManager.start := a;
       SiteBoundaryManager.end_ := b; SiteBoundaryManager.midpoint := a |} in
  let e0 := edge 0 (0, 0)%R (1, 0)%R in
  let e1 := edge 1 (1, 0)%R (1, 1)%R in
  let e2 := edge 2 (1, 1)%R (0, 0)%R in
  let st :=
    {| PropertySetbacksManager.polygonEdges := [e0; e1; e2];
       PropertySetbacksManager.selectedEdges :=
         {| PropertySetbacksManager.front := Some e0;
            PropertySetbacksManager.back := Some e1 |};
       PropertySetbacksManager.isEdgeSelectionMode := false |} in
  let inputs :=
    {| PropertySetbacksManager.in_frontSetback := Some ""%string;
       PropertySetbacksManager.in_backSetback := Some "abc"%string;
       PropertySetbacksManager.in_sideSetback := None |} in
  JS.parseFloat (JS.Str "") = JS.NaN /\
  JS.parseFloat (JS.Str "abc") = JS.NaN /\
  JS.parseFloat JS.Undefined = JS.NaN /\
  exists payload,
    PropertySetbacksManager.recalculateBuildableArea st inputs = Some payload /\
    map SiteInspectorCore.ec_setback
        (SiteInspectorCore.edge_classifications
           (SiteInspectorCore.buildRequest [(0, 0); (1, 0); (1, 1); (0, 0)]%R [] payload))
    = [JS.Num (QArith_base.Qmake 9 2); JS.Num (QArith_base.Qmake 7 2);
       JS.Num (QArith_base.Qmake 3 2)] /\
    forall ec,
      In ec (SiteInspectorCore.edge_classifications
               (SiteInspectorCore.buildRequest [(0, 0); (1, 0); (1, 1); (0, 0)]%R [] payload)) ->
      SiteInspectorCore.ec_setback ec <> SiteInspectorCore.zero.
Proof.
  cbv zeta. repeat split.
  eexists. split; [reflexivity|]. split; [reflexivity|].
  intros ec Hin. cbn in Hin.
  destruct Hin as [<- | [<- | [<- | []]]]; cbn; discriminate.
Qed.

(** C4, amended.  [calculateBuildableAreaPreview] and
    [recalculateBuildableArea] replace a setback input that is missing or
    not a number by the default distance of its role (front 4.5, back 3.5,
    side 1.5) in the event they emit, and the classifications built from
    that event carry the default.  The handlers of the event treat a
    setback of the payload that is missing or not a number as 0 in the edge
    classifications, of which there is one for each edge, in order.  In
    the requirements of the request each of the keys front_setback,
    side_setback and rear_setback has the value that the council
    requirements of the site give it, when they have that key (in the list
    that stands for the object, the last binding of the key), and
    otherwise the setback of the payload as it is; without council
    requirements they are the three setbacks of the payload. *)
Theorem setback_defaults :
  (forall (st : PropertySetbacksManager.State) (inputs : PropertySetbacksManager.Inputs)
          (payload : PropertySetbacksManager.Payload),
      PropertySetbacksManager.calculateBuildableAreaPreview st inputs = Some payload
      \/ PropertySetbacksManager.recalculateBuildableArea st inputs = Some payload ->
      (JS.parseFloat (PropertySetbacksManager.inputValue
                        (PropertySetbacksManager.in_frontSetback inputs)) = JS.NaN ->
       PropertySetbacksManager.frontSetback payload
       = JS.Number PropertySetbacksManager.defaultFront) /\
      (JS.parseFloat (PropertySetbacksManager.inputValue
                        (PropertySetbacksManager.in_backSetback inputs)) = JS.NaN ->
       PropertySetbacksManager.backSetback payload
       = JS.Number PropertySetbacksManager.defaultBack) /\
      (JS.parseFloat (PropertySetbacksManager.inputValue
                        (PropertySetbacksManager.in_sideSetback inputs)) = JS.NaN ->
       PropertySetbacksManager.sideSetback payload
       = JS.Number PropertySetbacksManager.defaultSide))
  /\
  (forall (data : PropertySetbacksManager.Payload) (ec : SiteInspectorCore.EdgeClassification),
      In ec (SiteInspectorCore.edgeClassifications data) ->
      (SiteInspectorCore.ec_type ec = SiteInspectorCore.front_ ->
       (JS.parseFloat (PropertySetbacksManager.frontSetback data) = JS.NaN ->
        SiteInspectorCore.ec_setback ec = SiteInspectorCore.zero) /\
       (PropertySetbacksManager.frontSetback data
        = JS.Number PropertySetbacksManager.defaultFront ->
        SiteInspectorCore.ec_setback ec = PropertySetbacksManager.defaultFront)) /\
      (SiteInspectorCore.ec_type ec = SiteInspectorCore.back_ ->
       (JS.parseFloat (PropertySetbacksManager.backSetback data) = JS.NaN ->
        SiteInspectorCore.ec_setback ec = SiteInspectorCore.zero) /\
       (PropertySetbacksManager.backSetback data
        = JS.Number PropertySetbacksManager.defaultBack ->
        SiteInspectorCore.ec_setback ec = PropertySetbacksManager.defaultBack)) /\
      (SiteInspectorCore.ec_type ec = SiteInspectorCore.side_ ->
       (JS.parseFloat (PropertySetbacksManager.sideSetback data) = JS.NaN ->
        SiteInspectorCore.ec_setback ec = SiteInspectorCore.zero) /\
       (PropertySetbacksManager.sideSetback data
        = JS.Number PropertySetbacksManager.defaultSide ->
        SiteInspectorCore.ec_setback ec = PropertySetbacksManager.defaultSide)))
  /\
  (forall (siteCoords : list Point) (council : SiteInspectorCore.object)
          (data : PropertySetbacksManager.Payload),
      let request := SiteInspectorCore.buildRequest siteCoords council data in
      SiteInspectorCore.edge_classifications request
      = SiteInspectorCore.edgeClassifications data /\
      map SiteInspectorCore.ec_index (SiteInspectorCore.edge_classifications request)
      = seq 0 (length (PropertySetbacksManager.p_polygonEdges data)) /\
      (council = [] ->
       SiteInspectorCore.requirements request
       = [("front_setback"%string, PropertySetbacksManager.frontSetback data);
          ("side_setback"%string, PropertySetbacksManager.sideSetback data);
          ("rear_setback"%string, PropertySetbacksManager.backSetback data)]) /\
      (forall key,
          SetbackFacts.objGet (SiteInspectorCore.requirements request) key
          = match SetbackFacts.objGet (rev council) key with
            | Some v => Some v
            | None =>
                if String.eqb key "front_setback"
                then Some (PropertySetbacksManager.frontSetback data)
                else if String.eqb key "side_setback"
                then Some (PropertySetbacksManager.sideSetback data)
                else if String.eqb key "rear_setback"
                then Some (PropertySetbacksManager.backSetback data)
                else None
            end)).
Proof.
  split; [|split].
  - intros st inputs payload Hemit.
    destruct (SetbackFacts.emitted_payload st inputs Hemit) as (-> & -> & ->).
    repeat split; intros ->; reflexivity.
  - intros data ec Hin.
    destruct (SetbackFacts.classification_cases data ec Hin)
      as [[Ht ->] | [[Ht ->] | [Ht ->]]];
      rewrite Ht; (split; [|split]); intros Hty; try discriminate Hty;
      (split; intros Hv; rewrite Hv; reflexivity).
  - intros siteCoords council data request. split; [reflexivity|].
    split; [apply SetbackFacts.classifications_indices|].
    split; [intros ->; reflexivity|].
    intros key. unfold request, SiteInspectorCore.buildRequest.
    cbn [SiteInspectorCore.requirements].
    rewrite SetbackFacts.objGet_spread. reflexivity.
Qed.

Lemma setback_defaults_witness :
  let edge := fun i a b =>
    {| SiteBoundaryManager.index := i; SiteBoundaryManager.start := a;
       SiteBoundaryManager.end_ := b; SiteBoundaryManager.midpoint := a |} in
  let e0 := edge 0 (0, 0)%R (1, 0)%R in
  let e1 := edge 1 (1, 0)%R (1, 1)%R in
  let sel := {| PropertySetbacksManager.front := Some e0;
                PropertySetbacksManager.back := Some e1 |} in
  let st :=
    {| PropertySetbacksManager.polygonEdges := [e0; e1];
       PropertySetbacksManager.selectedEdges := sel;
       PropertySetbacksManager.isEdgeSelectionMode := false |} in
  let inputs :=
    {| PropertySetbacksManager.in_frontSetback := Some "abc"%string;
       PropertySetbacksManager.in_backSetback := Some "2.5"%string;
       PropertySetbacksManager.in_sideSetback := None |} in
  let payload :=
    {| PropertySetbacksManager.frontSetback := JS.Number PropertySetbacksManager.defaultFront;
       PropertySetbacksManager.backSetback := JS.Number (JS.Num (QArith_base.Qmake 5 2));
       PropertySetbacksManager.sideSetback := JS.Number PropertySetbacksManager.defaultSide;
       PropertySetbacksManager.p_selectedEdges := sel;
       PropertySetbacksManager.p_polygonEdges := [e0; e1];
       PropertySetbacksManager.isPreview := true |} in
  let data :=
    {| PropertySetbacksManager.frontSetback := JS.Str "abc";
       PropertySetbacksManager.backSetback := JS.Undefined;
       PropertySetbacksManager.sideSetback := JS.Number JS.NaN;
       PropertySetbacksManager.p_selectedEdges := sel;
       PropertySetbacksManager.p_polygonEdges := [e0; e1];
       PropertySetbacksManager.isPreview := true |} in
  PropertySetbacksManager.frontSetback payload
  = JS.Number PropertySetbacksManager.defaultFront
  /\ SiteInspectorCore.ec_setback
       {| SiteInspectorCore.ec_index := 0;
          SiteInspectorCore.ec_type := SiteInspectorCore.front_;
          SiteInspectorCore.ec_setback := SiteInspectorCore.zero |}
     = SiteInspectorCore.zero
  /\ SetbackFacts.objGet
       (SiteInspectorCore.requirements
          (SiteInspectorCore.buildRequest []
             [("front_setback"%string, JS.Number (JS.Num (QArith_base.Qmake 6 1)))]
             payload))
       "front_setback"
     = Some (JS.Number (JS.Num (QArith_base.Qmake 6 1))).
Proof.
  intros edge e0 e1 sel st inputs payload data. split; [|split].
  - apply (proj1 (proj1 setback_defaults st inputs payload (or_introl eq_refl))).
    reflexivity.
  - apply (proj1 (proj1 (proj1 (proj2 setback_defaults) data
                           {| SiteInspectorCore.ec_index := 0;
                              SiteInspectorCore.ec_type := SiteInspectorCore.front_;
                              SiteInspectorCore.ec_setback := SiteInspectorCore.zero |}
                           (or_introl eq_refl))
                    eq_refl)).
    reflexivity.
  - exact (proj2 (proj2 (proj2 (proj2 (proj2 setback_defaults) []
             [("front_setback"%string, JS.Number (JS.Num (QArith_base.Qmake 6 1)))]
             payload))) "front_setback"%string).
Defined.

(** ** The snapshot fallback *)

Module SnapshotFacts.
Import Snapshot.

Lemma replaceQuotes_singleQuoted (d : string) :
  hasSingleQuote d = false -> replaceQuotes (singleQuoted d) = d.
Proof.
  induction d as [|c d IH]; cbn [replaceQuotes singleQuoted hasSingleQuote]; [reflexivity|].
  intros H. apply orb_false_iff in H. destruct H as [Hc Hd].
  rewrite (IH Hd). f_equal.
  destruct (Ascii.eqb c doubleQuote) eqn:E.
  - apply Ascii.eqb_eq in E. subst c. reflexivity.
  - cbv iota. now rewrite Hc.
Qed.

Lemma replaceQuotes_clean (s : string) : hasSingleQuote (replaceQuotes s) = false.
Proof.
  induction s as [|c s IH]; cbn [replaceQuotes singleQuoted hasSingleQuote]; [reflexivity|].
  rewrite IH, orb_false_r.
  destruct (Ascii.eqb c singleQuote) eqn:E; [reflexivity | exact E].
Qed.

End SnapshotFacts.

(** C5.  Whatever [JSON.parse] accepts: snapshot data that parses is used
    as parsed; data that does not parse is parsed again after every single
    quote has been replaced by a double quote; the data is given up only
    when both attempts fail.  So the single-quoted form of a JSON text that
    has no single quote of its own is parsed, to the value of that text
    whenever the single-quoted form is not itself accepted. *)
Theorem snapshot_quote_fallback (J : Type) (JSON_parse : string -> option J) :
  (forall s v, JSON_parse s = Some v ->
               Snapshot.parseSnapshotData JSON_parse s = Some v)
  /\ (forall s, JSON_parse s = None ->
                Snapshot.parseSnapshotData JSON_parse s
                = JSON_parse (Snapshot.replaceQuotes s))
  /\ (forall s, Snapshot.parseSnapshotData JSON_parse s = None <->
                JSON_parse s = None /\ JSON_parse (Snapshot.replaceQuotes s) = None)
  /\ (forall s, Snapshot.hasSingleQuote (Snapshot.replaceQuotes s) = false)
  /\ (forall d v,
         JSON_parse d = Some v ->
         Snapshot.hasSingleQuote d = false ->
         exists v',
           Snapshot.parseSnapshotData JSON_parse (Snapshot.singleQuoted d) = Some v' /\
           (JSON_parse (Snapshot.singleQuoted d) = None -> v' = v)).
Proof.
  unfold Snapshot.parseSnapshotData. repeat apply conj.
  - intros s v ->. reflexivity.
  - intros s ->. now destruct (JSON_parse (Snapshot.replaceQuotes s)).
  - intros s. destruct (JSON_parse s) as [v|].
    + split; [discriminate | intros [H _]; discriminate].
    + destruct (JSON_parse (Snapshot.replaceQuotes s)) as [v|].
      * split; [discriminate | intros [_ H]; discriminate].
      * tauto.
  - apply SnapshotFacts.replaceQuotes_clean.
  - intros d v Hd Hq.
    destruct (JSON_parse (Snapshot.singleQuoted d)) as [w|] eqn:E.
    + exists w. split; [reflexivity | discriminate].
    + rewrite (SnapshotFacts.replaceQuotes_singleQuoted d Hq), Hd.
      exists v. split; reflexivity.
Qed.

Lemma snapshot_quote_fallback_witness :
  let text := "{'coordinates': [[174.76, -36.85], [174.77, -36.85], [174.77, -36.84]], 'area_m2': 812.5}"%string in
  let d := Snapshot.replaceQuotes text in
  MiniJSON.parse text = None /\
  Snapshot.singleQuoted d = text /\
  exists v, MiniJSON.parse d = Some v /\
            Snapshot.parseSnapshotData MiniJSON.parse text = Some v.
Proof.
  intros text d.
  assert (Hn : MiniJSON.parse text = None) by (vm_compute; reflexivity).
  assert (Hs : Snapshot.singleQuoted d = text) by (vm_compute; reflexivity).
  split; [exact Hn|]. split; [exact Hs|].
  destruct (MiniJSON.parse d) as [v|] eqn:Hd; [|vm_compute in Hd; discriminate Hd].
  exists v. split; [reflexivity|].
  destruct (proj2 (proj2 (proj2 (proj2 (snapshot_quote_fallback MiniJSON.parse)))) d v Hd)
    as [v' [Hp Hv]].
  - vm_compute. reflexivity.
  - rewrite Hs in Hp, Hv. rewrite Hp. f_equal. now apply Hv.
Defined.

(** ** Superseded preview requests *)

Module PreviewFacts.
Import SiteInspectorCore.

Definition reachable (st : PreviewState) : Prop :=
  exists evs, run previewInitial evs = Some st.

(** A request still in flight whose signal has not been aborted. *)
Definition live (st : PreviewState) (id : nat) : Prop :=
  (exists ph, In (id, ph) (inFlight st)) /\ isAborted id st = false.

(** The controller kept in the object is that of the newest request, and a
    request in flight is either that one or aborted. *)
Definition consistent (st : PreviewState) : Prop :=
  (forall c, previewAbortController st = Some c -> S c = issued st)
  /\ (forall id ph, In (id, ph) (inFlight st) -> id < issued st)
  /\ (forall id, live st id -> previewAbortController st = Some id).

Lemma waiting_In (id : nat) (ph : Phase) (l : list (nat * Phase)) :
  waiting id ph l = true <-> In (id, ph) l.
Proof.
  unfold waiting. rewrite existsb_exists. split.
  - intros [[i p] [Hin H]]. apply andb_true_iff in H. destruct H as [Hi Hp].
    apply Nat.eqb_eq in Hi. cbn in Hi, Hp. subst i.
    destruct p, ph; try discriminate; assumption.
  - intros Hin. exists (id, ph). split; [assumption|].
    cbn. rewrite Nat.eqb_refl. now destruct ph.
Qed.

Lemma isAborted_In (id : nat) (st : PreviewState) :
  isAborted id st = true <-> In id (aborted st).
Proof.
  unfold isAborted. rewrite existsb_exists. split.
  - intros [x [Hin H]]. apply Nat.eqb_eq in H. now subst.
  - intros Hin. exists id. split; [assumption | apply Nat.eqb_refl].
Qed.

Lemma finish_In (id : nat) (l : list (nat * Phase)) (x : nat * Phase) :
  In x (finish id l) -> In x l /\ fst x <> id.
Proof.
  unfold finish. rewrite filter_In. intros [Hin H]. split; [assumption|].
  apply negb_true_iff, Nat.eqb_neq in H. exact H.
Qed.

Lemma consistent_initial : consistent previewInitial.
Proof.
  repeat split; cbn; try discriminate; try tauto.
  intros id [[ph []] _].
Qed.

Lemma consistent_issue (st : PreviewState) (b : bool) :
  consistent st -> consistent (issuePreview b st).
Proof.
  intros (Hc & Hlt & Hlive). unfold issuePreview.
  destruct b; cbn [negb]; [|repeat split; assumption].
  repeat split; cbn.
  - intros c Hc'. injection Hc' as <-. reflexivity.
  - intros id ph Hin. apply in_app_iff in Hin. destruct Hin as [Hin | [Heq | []]].
    + apply Hlt in Hin. lia.
    + injection Heq as <- _. lia.
  - intros id [[ph Hin] Hna]. cbn in Hin, Hna.
    apply in_app_iff in Hin. destruct Hin as [Hin | [Heq | []]].
    + exfalso. unfold isAborted in Hna. cbn [aborted] in Hna.
      destruct (previewAbortController st) as [c|] eqn:Ec.
      * cbn [existsb] in Hna. apply orb_false_iff in Hna. destruct Hna as [Hne Hna].
        assert (L : live st id) by (split; [now exists ph | exact Hna]).
        apply Hlive in L. injection L as ->. now rewrite Nat.eqb_refl in Hne.
      * assert (L : live st id) by (split; [now exists ph | exact Hna]).
        apply Hlive in L. discriminate.
    + now injection Heq as <- _.
Qed.

Lemma consistent_afterFetch (st : PreviewState) (id : nat) (o : FetchOutcome) :
  consistent st -> In (id, AwaitingFetch) (inFlight st) ->
  consistent (afterFetch id o st).
Proof.
  intros (Hc & Hlt & Hlive) Hw. repeat split; cbn.
  - exact Hc.
  - intros i ph Hin.
    assert (Hold : In (i, ph) (finish id (inFlight st)) \/ i = id).
    { destruct o as [[|]|]; auto.
      apply in_app_iff in Hin. destruct Hin as [Hin | [Heq | []]]; auto.
      injection Heq as -> _. now right. }
    destruct Hold as [Hin' | ->].
    + apply finish_In in Hin'. destruct Hin' as [Hin' _]. now apply Hlt in Hin'.
    + now apply Hlt in Hw.
  - intros i [[ph Hin] Hna]. cbn in Hin. apply Hlive. split; [|exact Hna].
    assert (Hold : In (i, ph) (finish id (inFlight st)) \/ i = id).
    { destruct o as [[|]|]; auto.
      apply in_app_iff in Hin. destruct Hin as [Hin | [Heq | []]]; auto.
      injection Heq as -> _. now right. }
    destruct Hold as [Hin' | ->].
    + apply finish_In in Hin'. exists ph. tauto.
    + now exists AwaitingFetch.
Qed.

Lemma consistent_afterJson (st : PreviewState) (id : nat) (o : JsonOutcome) :
  consistent st -> consistent (afterJson id o st).
Proof.
  intros (Hc & Hlt & Hlive). repeat split; cbn.
  - exact Hc.
  - intros i ph Hin. apply finish_In in Hin. destruct Hin as [Hin _].
    now apply Hlt in Hin.
  - intros i [[ph Hin] Hna]. cbn in Hin. apply finish_In in Hin.
    apply Hlive. split; [exists ph; tauto | exact Hna].
Qed.

Lemma consistent_step (st st' : PreviewState) (ev : Event) :
  consistent st -> step st ev = Some st' -> consistent st'.
Proof.
  intros H. destruct ev as [b | id o | id o]; cbn [step].
  - intros E. injection E as <-. now apply consistent_issue.
  - destruct (waiting id AwaitingFetch (inFlight st)) eqn:W; [|discriminate].
    apply waiting_In in W.
    destruct o as [ok|]; [destruct (isAborted id st); [discriminate|]|];
      intros E; injection E as <-; now apply consistent_afterFetch.
  - destruct (waiting id AwaitingJson (inFlight st)) eqn:W; [|discriminate].
    destruct o as [r|]; [destruct (isAborted id st); [discriminate|]|];
      intros E; injection E as <-; now apply consistent_afterJson.
Qed.

Lemma consistent_run (evs : list Event) (st st' : PreviewState) :
  consistent st -> run st evs = Some st' -> consistent st'.
Proof.
  revert st. induction evs as [|ev evs IH]; intros st H; cbn [run].
  - intros E. now injection E as <-.
  - destruct (step st ev) as [st1|] eqn:E; [|discriminate].
    apply IH. eapply consistent_step; eassumption.
Qed.

Lemma reachable_consistent (st : PreviewState) : reachable st -> consistent st.
Proof.
  intros [evs H]. eapply consistent_run; [apply consistent_initial | exact H].
Qed.

End PreviewFacts.

(** C3.  In every state the preview requests can reach: issuing a new
    request leaves every request that was in flight aborted; at most one
    request in flight has a signal that is not aborted; a parsed result
    that the handler gets to apply belongs to the newest request; the
    display changes only when a result of the newest request is applied;
    and a response or a parsed result of a superseded request cannot arrive.
    That an aborted fetch and the reading of its body can only be rejected
    is the platform's part, and is built into [step]. *)
Theorem preview_supersede (st : SiteInspectorCore.PreviewState) :
  PreviewFacts.reachable st ->
  (forall id ph,
      In (id, ph) (SiteInspectorCore.inFlight st) ->
      SiteInspectorCore.isAborted id (SiteInspectorCore.issuePreview true st) = true)
  /\ (forall id id', PreviewFacts.live st id -> PreviewFacts.live st id' -> id = id')
  /\ (forall id r st',
         SiteInspectorCore.step st
           (SiteInspectorCore.JsonSettled id (SiteInspectorCore.Parsed r)) = Some st' ->
         S id = SiteInspectorCore.issued st)
  /\ (forall ev st',
         SiteInspectorCore.step st ev = Some st' ->
         SiteInspectorCore.displayed st' <> SiteInspectorCore.displayed st ->
         exists r,
           ev = SiteInspectorCore.JsonSettled (SiteInspectorCore.issued st - 1)
                  (SiteInspectorCore.Parsed r)
           /\ SiteInspectorCore.displayed st' = Some r)
  /\ (forall id,
         S id < SiteInspectorCore.issued st ->
         (forall r, SiteInspectorCore.step st
                      (SiteInspectorCore.JsonSettled id (SiteInspectorCore.Parsed r)) = None)
         /\ (forall ok, SiteInspectorCore.step st
                          (SiteInspectorCore.FetchSettled id (SiteInspectorCore.Responded ok))
                        = None)).
Proof.
  intros Hreach. pose proof (PreviewFacts.reachable_consistent Hreach) as (Hc & Hlt & Hlive).
  assert (Happlied : forall id r st',
             SiteInspectorCore.step st
               (SiteInspectorCore.JsonSettled id (SiteInspectorCore.Parsed r)) = Some st' ->
             S id = SiteInspectorCore.issued st).
  { intros id r st'. cbn [SiteInspectorCore.step].
    destruct (SiteInspectorCore.waiting id SiteInspectorCore.AwaitingJson
                (SiteInspectorCore.inFlight st)) eqn:W; [|discriminate].
    destruct (SiteInspectorCore.isAborted id st) eqn:A; [discriminate|].
    intros _. apply Hc, Hlive. split; [|exact A].
    exists SiteInspectorCore.AwaitingJson. now apply PreviewFacts.waiting_In. }
  assert (Hresponded : forall id ok st',
             SiteInspectorCore.step st
               (SiteInspectorCore.FetchSettled id (SiteInspectorCore.Responded ok)) = Some st' ->
             S id = SiteInspectorCore.issued st).
  { intros id ok st'. cbn [SiteInspectorCore.step].
    destruct (SiteInspectorCore.waiting id SiteInspectorCore.AwaitingFetch
                (SiteInspectorCore.inFlight st)) eqn:W; [|discriminate].
    destruct (SiteInspectorCore.isAborted id st) eqn:A; [discriminate|].
    intros _. apply Hc, Hlive. split; [|exact A].
    exists SiteInspectorCore.AwaitingFetch. now apply PreviewFacts.waiting_In. }
  split; [|split; [|split; [|split]]].
  - intros id ph Hin. unfold SiteInspectorCore.issuePreview. cbn [negb].
    apply PreviewFacts.isAborted_In. cbn [SiteInspectorCore.aborted].
    destruct (SiteInspectorCore.isAborted id st) eqn:A.
    + apply PreviewFacts.isAborted_In in A.
      destruct (SiteInspectorCore.previewAbortController st); [now right | assumption].
    + assert (L : PreviewFacts.live st id) by (split; [now exists ph | exact A]).
      rewrite (Hlive id L). now left.
  - intros id id' L L'. apply Hlive in L, L'. congruence.
  - exact Happlied.
  - intros ev st' Hstep Hchanged.
    destruct ev as [b | id o | id o]; cbn [SiteInspectorCore.step] in Hstep.
    + injection Hstep as <-. exfalso. apply Hchanged.
      unfold SiteInspectorCore.issuePreview. now destruct b.
    + destruct (SiteInspectorCore.waiting id _ _); [|discriminate].
      exfalso. apply Hchanged.
      destruct o as [ok|]; [destruct (SiteInspectorCore.isAborted id st); [discriminate|]|];
        injection Hstep as <-; reflexivity.
    + destruct o as [r|].
      * pose proof (Happlied id r st') as Hid. cbn [SiteInspectorCore.step] in Hid.
        specialize (Hid Hstep).
        destruct (SiteInspectorCore.waiting id _ _); [|discriminate].
        destruct (SiteInspectorCore.isAborted id st); [discriminate|].
        injection Hstep as <-. cbn [SiteInspectorCore.afterJson SiteInspectorCore.displayed] in *.
        exists r. split.
        -- f_equal. lia.
        -- destruct (SiteInspectorCore.hasCoords r); [reflexivity | now elim Hchanged].
      * destruct (SiteInspectorCore.waiting id _ _); [|discriminate].
        injection Hstep as <-. now elim Hchanged.
  - intros id Hold. split.
    + intros r.
      destruct (SiteInspectorCore.step st
                  (SiteInspectorCore.JsonSettled id (SiteInspectorCore.Parsed r))) eqn:E;
        [|reflexivity].
      apply Happlied in E. lia.
    + intros ok.
      destruct (SiteInspectorCore.step st
                  (SiteInspectorCore.FetchSettled id (SiteInspectorCore.Responded ok))) eqn:E;
        [|reflexivity].
      apply Hresponded in E. lia.
Qed.

Lemma preview_supersede_witness :
  let result := {| SiteInspectorCore.buildable_coords := Some [(0, 0); (1, 0); (1, 1)]%R |} in
  let st :=
    {| SiteInspectorCore.previewAbortController := Some 1;
       SiteInspectorCore.aborted := [0];
       SiteInspectorCore.inFlight :=
         [(0, SiteInspectorCore.AwaitingFetch); (1, SiteInspectorCore.AwaitingJson)];
       SiteInspectorCore.issued := 2;
       SiteInspectorCore.displayed := None |} in
  SiteInspectorCore.run SiteInspectorCore.previewInitial
    [SiteInspectorCore.PreviewRequested true;
     SiteInspectorCore.PreviewRequested true;
     SiteInspectorCore.FetchSettled 1 (SiteInspectorCore.Responded true)] = Some st
  /\ SiteInspectorCore.step st
       (SiteInspectorCore.FetchSettled 0 (SiteInspectorCore.Responded true)) = None
  /\ SiteInspectorCore.displayed
       (SiteInspectorCore.afterJson 1 (SiteInspectorCore.Parsed result) st) = Some result.
Proof.
  intros result st.
  assert (Hrun : SiteInspectorCore.run SiteInspectorCore.previewInitial
            [SiteInspectorCore.PreviewRequested true;
             SiteInspectorCore.PreviewRequested true;
             SiteInspectorCore.FetchSettled 1 (SiteInspectorCore.Responded true)] = Some st)
    by reflexivity.
  assert (Hreach : PreviewFacts.reachable st) by (eexists; exact Hrun).
  destruct (preview_supersede Hreach) as (_ & _ & _ & Hdisplay & Hstale).
  split; [exact Hrun|]. split.
  - apply (proj2 (Hstale 0 ltac:(cbn; lia))).
  - destruct (Hdisplay (SiteInspectorCore.JsonSettled 1 (SiteInspectorCore.Parsed result))
                (SiteInspectorCore.afterJson 1 (SiteInspectorCore.Parsed result) st)
                eq_refl ltac:(cbn; discriminate))
      as [r [Hev Hr]].
    injection Hev as <-. exact Hr.
Defined.

(** * Further properties of the code *)

(** ** The haversine distance *)

Module DistanceFacts.
Import SiteBoundaryManager.
Local Open Scope R_scope.

Lemma Math_atan2_quadrant (y x : R) :
  0 <= y -> 0 <= x -> 0 <= Math_atan2 y x <= PI / 2.
Proof.
  intros Hy Hx. unfold Math_atan2.
  pose proof PI_RGT_0 as Hpi.
  destruct (Rltb 0 x) eqn:E1.
  - apply Rltb_true_iff in E1.
    assert (Hq : 0 <= y / x) by (apply Rmult_le_pos; [lra | left; now apply Rinv_0_lt_compat]).
    pose proof (atan_bound (y / x)) as [_ Hub].
    split; [|lra].
    destruct Hq as [Hq | <-]; [|rewrite atan_0; lra].
    pose proof (atan_increasing 0 (y / x) Hq) as Hinc. rewrite atan_0 in Hinc. lra.
  - apply Rltb_false_iff in E1.
    replace (Rltb x 0) with false by (symmetry; apply Rltb_false_iff; lra).
    destruct (Rltb 0 y); [lra|].
    replace (Rltb y 0) with false by (symmetry; apply Rltb_false_iff; lra).
    lra.
Qed.

End DistanceFacts.

(** X1.  The haversine distance of [calculateDistance] is at least 0 and at
    most pi times the earth radius, it is 0 from a point to itself, and it
    is the same in both directions. *)
Theorem calculateDistance_metric (lon1 lat1 lon2 lat2 : R) :
  (0 <= SiteBoundaryManager.calculateDistance lon1 lat1 lon2 lat2 <= 6371000 * PI)%R
  /\ SiteBoundaryManager.calculateDistance lon1 lat1 lon1 lat1 = 0%R
  /\ SiteBoundaryManager.calculateDistance lon1 lat1 lon2 lat2
     = SiteBoundaryManager.calculateDistance lon2 lat2 lon1 lat1.
Proof.
  split; [|split].
  - unfold SiteBoundaryManager.calculateDistance. cbv zeta.
    match goal with
    | |- (_ <= _ * (2 * SiteBoundaryManager.Math_atan2 ?y ?x) <= _)%R =>
        pose proof (@DistanceFacts.Math_atan2_quadrant y x (sqrt_pos _) (sqrt_pos _)) as H
    end.
    lra.
  - unfold SiteBoundaryManager.calculateDistance. cbv zeta.
    replace (((lat1 - lat1) * PI / 180 / 2))%R with 0%R by lra.
    replace (((lon1 - lon1) * PI / 180 / 2))%R with 0%R by lra.
    rewrite sin_0.
    replace (0 * 0 + cos (lat1 * PI / 180) * cos (lat1 * PI / 180) * 0 * 0)%R
      with 0%R by ring.
    rewrite sqrt_0. replace (1 - 0)%R with 1%R by lra. rewrite sqrt_1.
    unfold SiteBoundaryManager.Math_atan2.
    replace (Rltb 0 1) with true by (symmetry; apply Rltb_true_iff; lra).
    unfold Rdiv. rewrite Rmult_0_l, atan_0. lra.
  - apply RingSums.calculateDistance_sym.
Qed.

(** ** Edges and perimeter *)

Module EdgeLengthFacts.
Import SiteBoundaryManager.
Local Open Scope R_scope.

Definition edgeLength (e : Edge) : R :=
  calculateDistance (lng (start e)) (lat (start e)) (lng (end_ e)) (lat (end_ e)).

Definition totalLength (edges : list Edge) : R :=
  fold_right (fun e sum => edgeLength e + sum) 0 edges.

Lemma fold_left_sum (g : nat -> R) (l : list nat) (acc : R) :
  fold_left (fun a i => a + g i) l acc
  = acc + fold_right (fun i sum => g i + sum) 0 l.
Proof.
  revert acc. induction l as [|i l IH]; intros acc; cbn; [lra|].
  rewrite IH. lra.
Qed.

Lemma next_in_closed (v : list Point) (i : nat) :
  (i < length v)%nat ->
  at_ v ((i + 1) mod length v) = at_ (closeRing v) (i + 1).
Proof.
  intros Hi. unfold closeRing.
  destruct (Nat.eq_dec (i + 1) (length v)) as [e | ne].
  - rewrite e, Nat.Div0.mod_same, at_app_last. reflexivity.
  - rewrite Nat.mod_small by lia. symmetry. apply at_app_l. lia.
Qed.

Lemma totalLength_ring (v : list Point) :
  totalLength (map (EdgeFacts.edgeAt v) (seq 0 (length v)))
  = RingSums.pathSum RingSums.dist (closeRing v).
Proof.
  pose proof (RingSums.fold_pairs RingSums.dist (closeRing v) [] 0) as E.
  cbn [app length] in E.
  assert (L : length (closeRing v) = S (length v))
    by (unfold closeRing; rewrite length_app; simpl; lia).
  rewrite L in E. replace (S (length v) - 1)%nat with (length v) in E by lia.
  rewrite Rplus_0_l in E. rewrite <- E.
  rewrite (fold_left_sum
             (fun i => RingSums.dist (at_ (closeRing v) i) (at_ (closeRing v) (i + 1)))).
  rewrite Rplus_0_l. unfold totalLength.
  assert (G : forall l, Forall (fun i => (i < length v)%nat) l ->
                fold_right (fun e sum => edgeLength e + sum) 0 (map (EdgeFacts.edgeAt v) l)
                = fold_right (fun i sum =>
                      RingSums.dist (at_ (closeRing v) i) (at_ (closeRing v) (i + 1)) + sum)
                    0 l).
  { induction 1 as [|i l Hi _ IH]; cbn [map fold_right]; [reflexivity|].
    cbv beta in Hi. rewrite IH. f_equal.
    unfold edgeLength, EdgeFacts.edgeAt, RingSums.dist. cbn [start end_].
    rewrite (next_in_closed v Hi).
    replace (at_ (closeRing v) i) with (at_ v i)
      by (symmetry; apply at_app_l; exact Hi).
    reflexivity. }
  apply G. apply Forall_forall. intros i Hi. apply in_seq in Hi. lia.
Qed.

End EdgeLengthFacts.

(** X2.  For a ring of at least three vertices closed by a copy of its
    first vertex, the perimeter that [calculatePolygonPerimeter] returns is
    the sum of the haversine lengths of the edges that
    [calculatePolygonEdges] returns. *)
Theorem perimeter_is_sum_of_edges (v : list Point) :
  3 <= length v ->
  SiteBoundaryManager.calculatePolygonPerimeter (Some (closeRing v))
  = EdgeLengthFacts.totalLength
      (SiteBoundaryManager.calculatePolygonEdges (Some (closeRing v))).
Proof.
  intros Hlen.
  assert (L : length (closeRing v) = S (length v))
    by (unfold closeRing; rewrite length_app; simpl; lia).
  rewrite RingSums.perimeter_pathSum by lia.
  unfold SiteBoundaryManager.calculatePolygonEdges.
  replace (length (closeRing v) <? 3) with false by (symmetry; apply Nat.ltb_ge; lia).
  unfold closeRing at 2 3. rewrite EdgeFacts.coordsToProcess_closed by assumption.
  rewrite EdgeFacts.edges_of_processed.
  symmetry. apply EdgeLengthFacts.totalLength_ring.
Qed.

Lemma perimeter_is_sum_of_edges_witness :
  let v := [(0, 0); (0, 1); (1, 1); (1, 0)]%R in
  SiteBoundaryManager.calculatePolygonPerimeter (Some (closeRing v))
  = EdgeLengthFacts.totalLength
      (SiteBoundaryManager.calculatePolygonEdges (Some (closeRing v))).
Proof.
  apply (@perimeter_is_sum_of_edges [(0, 0); (0, 1); (1, 1); (1, 0)]%R).
  simpl. lia.
Defined.

(** ** Points tracked while the boundary is drawn *)

Module TrackingFacts.
Import SiteBoundaryManager.
Local Open Scope R_scope.

Definition near (p q : Point) : Prop :=
  Rabs (lng p - lng q) < 0.000001 /\ Rabs (lat p - lat q) < 0.000001.

(** No point is within the threshold of the point before it. *)
Fixpoint spaced (pts : list Point) : Prop :=
  match pts with
  | [] => True
  | p :: rest => match rest with
                 | [] => True
                 | q :: _ => ~ near p q /\ spaced rest
                 end
  end.

Lemma spaced_snoc (pts : list Point) (q : Point) :
  spaced pts ->
  (pts = [] \/ ~ near (at_ pts (length pts - 1)) q) ->
  spaced (pts ++ [q]).
Proof.
  induction pts as [|p rest IH]; intros Hs Hq; [exact I|].
  destruct rest as [|r rest'].
  - cbn. split; [|exact I]. destruct Hq as [Hq | Hq]; [discriminate | exact Hq].
  - destruct Hs as [Hpr Hs]. change ((p :: r :: rest') ++ [q]) with (p :: (r :: rest') ++ [q]).
    cbn [spaced app]. split; [exact Hpr|].
    apply IH; [exact Hs|]. right. destruct Hq as [Hq | Hq]; [discriminate|].
    cbn [length] in Hq. unfold at_ in *. cbn [Nat.sub nth] in Hq.
    cbn [length Nat.sub]. replace (length rest' - 0)%nat with (length rest') in Hq by lia.
    destruct rest'; exact Hq.
Qed.

Lemma nearLast_false (pts : list Point) (q : Point) :
  nearLast pts q = false ->
  pts = [] \/ ~ near (at_ pts (length pts - 1)) q.
Proof.
  unfold nearLast. destruct pts as [|p rest]; [now left|]. right.
  rewrite nth_error_at in H by (simpl; lia).
  intros [Hx Hy]. apply Rltb_true_iff in Hx, Hy. now rewrite Hx, Hy in H.
Qed.

Lemma click_spaced (st : State) (e : LngLat) :
  spaced (drawingPoints st) -> spaced (drawingPoints (handleMapClick st e)).
Proof.
  intros Hs. unfold handleMapClick.
  destruct (negb (drawMode_is_draw_polygon st)); [exact Hs|].
  destruct (nearLast (drawingPoints st) (lngOf e, latOf e)) eqn:E; [exact Hs|].
  cbn [drawingPoints]. apply spaced_snoc; [exact Hs|]. now apply nearLast_false.
Qed.

Lemma click_prefix (st : State) (e : LngLat) :
  exists added, drawingPoints (handleMapClick st e) = drawingPoints st ++ added
                /\ (length added <= 1)%nat.
Proof.
  unfold handleMapClick.
  destruct (negb (drawMode_is_draw_polygon st)).
  - exists []. rewrite app_nil_r. split; [reflexivity | simpl; lia].
  - destruct (nearLast _ _).
    + exists []. rewrite app_nil_r. split; [reflexivity | simpl; lia].
    + eexists. split; [reflexivity | simpl; lia].
Qed.

End TrackingFacts.

(** X3.  Over any sequence of clicks of [handleMapClick], in a list of
    tracked points where no point is within 1e-6 degrees (in both
    coordinates) of the point before it, that stays so; the points tracked
    before stay at the front of the list, and at most one point is added for
    each click. *)
Theorem boundary_clicks_spaced (st : SiteBoundaryManager.State) (clicks : list LngLat) :
  TrackingFacts.spaced (SiteBoundaryManager.drawingPoints st) ->
  let st' := fold_left SiteBoundaryManager.handleMapClick clicks st in
  TrackingFacts.spaced (SiteBoundaryManager.drawingPoints st')
  /\ exists added,
       SiteBoundaryManager.drawingPoints st'
       = SiteBoundaryManager.drawingPoints st ++ added
       /\ length added <= length clicks.
Proof.
  revert st. induction clicks as [|e clicks IH]; intros st Hs; cbn [fold_left].
  - split; [exact Hs|]. exists []. now rewrite app_nil_r.
  - destruct (IH (SiteBoundaryManager.handleMapClick st e)
                (TrackingFacts.click_spaced st e Hs)) as [H1 [added [H2 H3]]].
    split; [exact H1|].
    destruct (TrackingFacts.click_prefix st e) as [a [Ha La]].
    exists (a ++ added). rewrite H2, Ha, <- app_assoc. split; [reflexivity|].
    rewrite length_app. cbn [length]. lia.
Qed.

Lemma boundary_clicks_spaced_witness :
  let st := {| SiteBoundaryManager.drawMode_is_draw_polygon := true;
               SiteBoundaryManager.drawingPoints := [] |} in
  let clicks := [ {| lngOf := 0; latOf := 0 |}; {| lngOf := 0; latOf := 0 |};
                  {| lngOf := 1; latOf := 0 |} ] in
  TrackingFacts.spaced
    (SiteBoundaryManager.drawingPoints
       (fold_left SiteBoundaryManager.handleMapClick clicks st)).
Proof.
  intros st clicks. apply (proj1 (boundary_clicks_spaced st clicks I)).
Defined.

(** ** Least and greatest of a list of numbers *)

Module ExtremeFacts.
Local Open Scope R_scope.

Lemma fold_Rmin_le_init (xs : list R) (a : R) : fold_left Rmin xs a <= a.
Proof.
  revert a. induction xs as [|x xs IH]; intros a; cbn; [lra|].
  pose proof (IH (Rmin a x)). pose proof (Rmin_l a x). lra.
Qed.

Lemma fold_Rmin_le_In (xs : list R) (a x : R) :
  In x xs -> fold_left Rmin xs a <= x.
Proof.
  revert a. induction xs as [|y xs IH]; intros a Hin; [destruct Hin|].
  cbn. destruct Hin as [-> | Hin].
  - pose proof (fold_Rmin_le_init xs (Rmin a x)). pose proof (Rmin_r a x). lra.
  - now apply IH.
Qed.


Lemma fold_Rmax_ge_init (xs : list R) (a : R) : a <= fold_left Rmax xs a.
Proof.
  revert a. induction xs as [|x xs IH]; intros a; cbn; [lra|].
  pose proof (IH (Rmax a x)). pose proof (Rmax_l a x). lra.
Qed.

Lemma fold_Rmax_ge_In (xs : list R) (a x : R) :
  In x xs -> x <= fold_left Rmax xs a.
Proof.
  revert a. induction xs as [|y xs IH]; intros a Hin; [destruct Hin|].
  cbn. destruct Hin as [-> | Hin].
  - pose proof (fold_Rmax_ge_init xs (Rmax a x)). pose proof (Rmax_r a x). lra.
  - now apply IH.
Qed.


End ExtremeFacts.

(** ** Terrain bounds *)

Module TerrainFacts.
Import TerrainBounds.
Local Open Scope R_scope.




End TerrainFacts.



(** ** The ring shown for a buildable area *)

Module DisplayFacts.
Import BuildableAreaDisplay.
Local Open Scope R_scope.

Lemma ensureClosed_cases (c : list Point) :
  (at_ c 0 = at_ c (length c - 1) /\ ensureClosed c = c)
  \/ (at_ c 0 <> at_ c (length c - 1) /\ ensureClosed c = c ++ [at_ c 0]).
Proof.
  unfold ensureClosed.
  destruct (at_ c 0) as [x0 y0] eqn:E0.
  destruct (at_ c (length c - 1)) as [x1 y1] eqn:E1.
  unfold lng, lat. cbn [fst snd].
  destruct (Reqb x0 x1) eqn:Ex; destruct (Reqb y0 y1) eqn:Ey; cbn [negb orb].
  - apply Reqb_true_iff in Ex, Ey. left. split; congruence.
  - right. split; [|reflexivity]. intros H. injection H as _ H.
    apply Reqb_true_iff in H. congruence.
  - right. split; [|reflexivity]. intros H. injection H as H _.
    apply Reqb_true_iff in H. congruence.
  - right. split; [|reflexivity]. intros H. injection H as H _.
    apply Reqb_true_iff in H. congruence.
Qed.

Lemma ensureClosed_closed (c : list Point) : c <> [] -> closedRing (ensureClosed c).
Proof.
  intros Hne. destruct (ensureClosed_cases c) as [[Heq ->] | [_ ->]].
  - split; assumption.
  - split.
    + destruct c; simpl; congruence.
    + rewrite length_app. cbn [length].
      replace (length c + 1 - 1)%nat with (length c) by lia.
      rewrite at_app_last. apply at_app_l.
      destruct c; simpl; [congruence | lia].
Qed.

Lemma ensureClosed_fixed (c : list Point) : closedRing c -> ensureClosed c = c.
Proof.
  intros [_ Heq]. destruct (ensureClosed_cases c) as [[_ ->] | [Hne _]];
    [reflexivity | contradiction].
Qed.

Lemma ensureClosed_first (c : list Point) :
  c <> [] -> at_ (ensureClosed c) 0 = at_ c 0.
Proof.
  intros Hne. destruct (ensureClosed_cases c) as [[_ ->] | [_ ->]]; [reflexivity|].
  apply at_app_l. destruct c; simpl; [congruence | lia].
Qed.

Lemma ensureClosed_firstn (c : list Point) :
  firstn (length c) (ensureClosed c) = c
  /\ (length c <= length (ensureClosed c) <= S (length c))%nat.
Proof.
  destruct (ensureClosed_cases c) as [[_ ->] | [_ ->]].
  - rewrite firstn_all. split; [reflexivity | lia].
  - rewrite firstn_app, firstn_all, Nat.sub_diag, length_app. cbn.
    rewrite app_nil_r. split; [reflexivity | lia].
Qed.

Definition looksLatLng (p : Point) : bool :=
  Rleb (Rabs (lng p)) 90 && Rltb 90 (Rabs (lat p)).

Lemma looksLatLng_flip (p : Point) : looksLatLng p = true -> looksLatLng (flip p) = false.
Proof.
  unfold looksLatLng, flip, lng, lat. cbn [fst snd]. intros H.
  apply andb_true_iff in H. destruct H as [_ H]. apply Rltb_true_iff in H.
  unfold Rleb. destruct (Rle_dec (Rabs (snd p)) 90); [lra | reflexivity].
Qed.

Lemma flipIfLatLng_twice (p : Point) : flipIfLatLng (flipIfLatLng p) = flipIfLatLng p.
Proof.
  unfold flipIfLatLng at 2 3.
  destruct (Rltb (lng p) 0 && Rltb (-90) (lng p) && Rltb 100 (lat p)) eqn:E.
  - apply andb_true_iff in E. destruct E as [_ E]. apply Rltb_true_iff in E.
    unfold flipIfLatLng, flip, lng, lat in *. cbn [fst snd].
    replace (Rltb (snd p) 0) with false by (symmetry; apply Rltb_false_iff; lra).
    reflexivity.
  - unfold flipIfLatLng. now rewrite E.
Qed.

End DisplayFacts.

(** X5.  [updateBuildableAreaDisplay] shows nothing for missing or empty
    coordinates.  Otherwise it shows a closed ring: the coordinates, all of
    them with longitude and latitude exchanged when the first one has its
    first component within 90 and its second beyond 90 in absolute value,
    followed by at most one closing point; and showing that ring again gives
    the same ring. *)
Theorem buildable_display_ring :
  BuildableAreaDisplay.updateBuildableAreaDisplay None = None
  /\ BuildableAreaDisplay.updateBuildableAreaDisplay (Some []) = None
  /\ forall coords : list Point,
       coords <> [] ->
       exists ring,
         BuildableAreaDisplay.updateBuildableAreaDisplay (Some coords) = Some ring /\
         closedRing ring /\
         firstn (length coords) ring
         = (if DisplayFacts.looksLatLng (at_ coords 0)
            then map BuildableAreaDisplay.flip coords else coords) /\
         length coords <= length ring <= S (length coords) /\
         BuildableAreaDisplay.updateBuildableAreaDisplay (Some ring) = Some ring.
Proof.
  split; [reflexivity|]. split; [reflexivity|].
  intros coords Hne. destruct coords as [|p rest]; [congruence|].
  unfold BuildableAreaDisplay.updateBuildableAreaDisplay at 1.
  change (at_ (p :: rest) 0) with p.
  fold (DisplayFacts.looksLatLng p).
  set (shown := if DisplayFacts.looksLatLng p
                then map BuildableAreaDisplay.flip (p :: rest) else p :: rest).
  assert (Hshown : shown <> [])
    by (unfold shown; destruct (DisplayFacts.looksLatLng p); discriminate).
  assert (Hlen : length shown = length (p :: rest))
    by (unfold shown; destruct (DisplayFacts.looksLatLng p);
        [apply length_map | reflexivity]).
  assert (Hfirst : DisplayFacts.looksLatLng (at_ shown 0) = false).
  { unfold shown. destruct (DisplayFacts.looksLatLng p) eqn:E.
    - now apply DisplayFacts.looksLatLng_flip.
    - exact E. }
  exists (BuildableAreaDisplay.ensureClosed shown).
  split; [reflexivity|].
  split; [now apply DisplayFacts.ensureClosed_closed|].
  destruct (DisplayFacts.ensureClosed_firstn shown) as [Hf Hl].
  rewrite <- Hlen. split; [exact Hf|]. split; [exact Hl|].
  pose proof (DisplayFacts.ensureClosed_first Hshown) as H0.
  pose proof (DisplayFacts.ensureClosed_closed Hshown) as Hclosed.
  destruct (BuildableAreaDisplay.ensureClosed shown) as [|q ring'] eqn:Ering.
  - now destruct Hclosed.
  - change (at_ (q :: ring') 0) with q in H0. rewrite <- H0 in Hfirst.
    unfold DisplayFacts.looksLatLng in Hfirst.
    unfold BuildableAreaDisplay.updateBuildableAreaDisplay. rewrite Hfirst.
    now rewrite (DisplayFacts.ensureClosed_fixed Hclosed).
Qed.

Lemma buildable_display_ring_witness :
  exists ring,
    BuildableAreaDisplay.updateBuildableAreaDisplay
      (Some [(-36, 174); (-36, 175); (-37, 175)]%R) = Some ring
    /\ closedRing ring
    /\ BuildableAreaDisplay.updateBuildableAreaDisplay (Some ring) = Some ring.
Proof.
  destruct (proj2 (proj2 buildable_display_ring) [(-36, 174); (-36, 175); (-37, 175)]%R)
    as [ring (H1 & H2 & _ & _ & H3)].
  - discriminate.
  - exists ring. auto.
Defined.

(** X6.  [displayBuildableArea] shows nothing for missing or empty
    coordinates.  Otherwise it shows a closed ring: the coordinates, each
    one with its components exchanged when the first is between -90 and 0
    and the second above 100, followed by at most one closing point; and
    showing that ring again gives the same ring. *)
Theorem setbacks_display_ring :
  BuildableAreaDisplay.displayBuildableArea None = None
  /\ BuildableAreaDisplay.displayBuildableArea (Some []) = None
  /\ forall coords : list Point,
       coords <> [] ->
       exists ring,
         BuildableAreaDisplay.displayBuildableArea (Some coords) = Some ring /\
         closedRing ring /\
         firstn (length coords) ring = map BuildableAreaDisplay.flipIfLatLng coords /\
         length coords <= length ring <= S (length coords) /\
         BuildableAreaDisplay.displayBuildableArea (Some ring) = Some ring.
Proof.
  split; [reflexivity|]. split; [reflexivity|].
  intros coords Hne. destruct coords as [|p rest]; [congruence|].
  unfold BuildableAreaDisplay.displayBuildableArea at 1.
  set (shown := map BuildableAreaDisplay.flipIfLatLng (p :: rest)).
  assert (Hshown : shown <> []) by discriminate.
  assert (Hlen : length shown = length (p :: rest)) by apply length_map.
  assert (Hidem : map BuildableAreaDisplay.flipIfLatLng shown = shown).
  { unfold shown. rewrite map_map. apply map_ext.
    intros a. apply DisplayFacts.flipIfLatLng_twice. }
  exists (BuildableAreaDisplay.ensureClosed shown).
  split; [reflexivity|].
  pose proof (DisplayFacts.ensureClosed_closed Hshown) as Hclosed.
  split; [exact Hclosed|].
  destruct (DisplayFacts.ensureClosed_firstn shown) as [Hf Hl].
  rewrite <- Hlen. split; [exact Hf|]. split; [exact Hl|].
  assert (Hmap : map BuildableAreaDisplay.flipIfLatLng (BuildableAreaDisplay.ensureClosed shown)
                 = BuildableAreaDisplay.ensureClosed shown).
  { destruct (DisplayFacts.ensureClosed_cases shown) as [[_ ->] | [_ ->]]; [exact Hidem|].
    rewrite map_app, Hidem. cbn [map]. f_equal. f_equal.
    unfold shown. cbn [map at_ nth]. unfold at_. cbn [nth].
    apply DisplayFacts.flipIfLatLng_twice. }
  destruct (BuildableAreaDisplay.ensureClosed shown) as [|q ring'] eqn:Ering.
  - now destruct Hclosed.
  - unfold BuildableAreaDisplay.displayBuildableArea. rewrite Hmap.
    now rewrite (DisplayFacts.ensureClosed_fixed Hclosed).
Qed.

Lemma setbacks_display_ring_witness :
  exists ring,
    BuildableAreaDisplay.displayBuildableArea
      (Some [(-36, 174); (-36, 175); (-37, 175)]%R) = Some ring
    /\ closedRing ring
    /\ BuildableAreaDisplay.displayBuildableArea (Some ring) = Some ring.
Proof.
  destruct (proj2 (proj2 setbacks_display_ring) [(-36, 174); (-36, 175); (-37, 175)]%R)
    as [ring (H1 & H2 & _ & _ & H3)].
  - discriminate.
  - exists ring. auto.
Defined.

(** ** Moving, turning and scaling the footprint *)

Module TransformFacts.
Import FloorplanManager.
Local Open Scope R_scope.

Definition translatePoint (deltaLng deltaLat : R) (coord : Point) : Point :=
  (lng coord + deltaLng, lat coord + deltaLat).

(** What is left as it was by the three transformations. *)
Definition sameElsewhere (st st' : State) : Prop :=
  isLocked st' = isLocked st /\ isDrawing st' = isDrawing st
  /\ drawingPoints st' = drawingPoints st /\ rotationCenter st' = rotationCenter st.

Lemma translate_ring (st : State) (ring : list Point) (dLng dLat : R) :
  ringOf st = Some ring ->
  exists st',
    translatePolygon st dLng dLat = Some st'
    /\ ringOf st' = Some (map (translatePoint dLng dLat) ring)
    /\ currentTransform st' = currentTransform st
    /\ sameElsewhere st st'.
Proof.
  unfold ringOf, translatePolygon.
  destruct (geojsonPolygon st) as [g|]; [|discriminate].
  destruct (coordinates g) as [|coords rest]; [discriminate|].
  intros H. injection H as ->.
  eexists. split; [reflexivity|]. repeat split.
Qed.



(** A stored triangle, with the rotation centre given. *)
Definition stored (ring : list Point) (center : option LngLat) : State :=
  {| geojsonPolygon :=
       Some {| properties := {| p_locked := false; p_rotation := None; p_scale := None |};
               coordinates := [ring] |};
     isLocked := false; isDrawing := false; drawingPoints := [];
     currentTransform := {| t_rotation := 0; t_scale := 1 |};
     rotationCenter := center |}.

Definition triangle : list Point := [(0, 0); (1, 0); (1, 1); (0, 0)].

Lemma point_eq (p : Point) (x y : R) : fst p = x -> snd p = y -> p = (x, y).
Proof. destruct p. cbn. congruence. Qed.

Lemma translatePoint_add (a b c d : R) (p : Point) :
  translatePoint c d (translatePoint a b p) = translatePoint (a + c) (b + d) p.
Proof. unfold translatePoint, lng, lat. cbn. f_equal; lra. Qed.

Lemma translatePoint_zero (p : Point) : translatePoint 0 0 p = p.
Proof.
  symmetry. apply point_eq; unfold translatePoint, lng, lat; cbn; lra.
Qed.








End TransformFacts.

(** X7.  [translatePolygon] on a stored ring adds the two deltas to every
    point and leaves the transform record, the lock, the drawing state and
    the rotation centre as they were.  Two translations in a row are the
    translation by the sums of their deltas, so a translation followed by
    the opposite one gives back the ring. *)
Theorem translate_composes (st : FloorplanManager.State) (ring : list Point)
        (a b c d : R) :
  FloorplanManager.ringOf st = Some ring ->
  exists st1 st2,
    FloorplanManager.translatePolygon st a b = Some st1 /\
    FloorplanManager.ringOf st1 = Some (map (TransformFacts.translatePoint a b) ring) /\
    FloorplanManager.currentTransform st1 = FloorplanManager.currentTransform st /\
    TransformFacts.sameElsewhere st st1 /\
    FloorplanManager.translatePolygon st1 c d = Some st2 /\
    FloorplanManager.ringOf st2
    = Some (map (TransformFacts.translatePoint (a + c) (b + d)) ring) /\
    (c = (- a)%R -> d = (- b)%R -> FloorplanManager.ringOf st2 = Some ring).
Proof.
  intros Hring.
  destruct (TransformFacts.translate_ring st a b Hring) as [st1 (H1 & R1 & T1 & S1)].
  destruct (TransformFacts.translate_ring st1 c d R1) as [st2 (H2 & R2 & _ & _)].
  exists st1, st2. repeat split; try assumption; try apply S1.
  - rewrite R2, map_map. f_equal. apply map_ext.
    intros p. apply TransformFacts.translatePoint_add.
  - intros -> ->. rewrite R2, map_map. f_equal.
    rewrite <- (map_id ring) at 2. apply map_ext. intros p.
    rewrite TransformFacts.translatePoint_add.
    replace (a + - a)%R with 0%R by lra. replace (b + - b)%R with 0%R by lra.
    apply TransformFacts.translatePoint_zero.
Qed.

Lemma translate_composes_witness :
  exists st1 st2,
    FloorplanManager.translatePolygon
      (TransformFacts.stored TransformFacts.triangle None) 2 3 = Some st1 /\
    FloorplanManager.translatePolygon st1 (-2) (-3) = Some st2 /\
    FloorplanManager.ringOf st2 = Some TransformFacts.triangle.
Proof.
  destruct (@translate_composes (TransformFacts.stored TransformFacts.triangle None)
              TransformFacts.triangle 2 3 (-2) (-3) eq_refl)
    as [st1 [st2 (H1 & _ & _ & _ & H2 & _ & H3)]].
  exists st1, st2. repeat split; auto.
Defined.





(** ** The centre of the footprint *)

Module CenterFacts.
Import FloorplanManager FloorplanGeometry.
Local Open Scope R_scope.









End CenterFacts.



(** ** Moving the footprint with the pointer *)

Module InteractionFacts.
Import FloorplanManager FloorplanGeometry FloorplanInteraction.
Local Open Scope R_scope.



Definition run (m : Manager) (inputs : list Input) : Manager :=
  fold_left handle inputs m.








(** The events [click] and [dblclick]. *)
Definition isClick (input : Input) : bool :=
  match input with
  | Click _ _ | DoubleClick => true
  | _ => false
  end.

(** Locked with nothing being drawn; or drawing, for an event that is
    neither a click nor a double click. *)
Definition held (m : Manager) (input : Input) : Prop :=
  (isLocked (state m) = true /\ isDrawing (state m) = false)
  \/ (isDrawing (state m) = true /\ isClick input = false).

Lemma state_kept (m : Manager) (input : Input) :
  held m input ->
  (forall key, input = KeyDown key -> key <> "l"%string /\ key <> "L"%string) ->
  state (handle m input) = state m.
Proof.
  intros Hm Hkey. destruct input as [e|e| |key|siteData l| |]; cbn [handle].
  - unfold handleMouseDown.
    destruct Hm as [[-> ->] | [-> _]]; reflexivity.
  - unfold handleMouseMove.
    destruct Hm as [[-> ->] | [-> _]]; reflexivity.
  - reflexivity.
  - unfold handleKeyDown. destruct (String.eqb key "Escape"); [reflexivity|].
    destruct (Hkey key eq_refl) as [Hl HL].
    apply String.eqb_neq in Hl. apply String.eqb_neq in HL. rewrite Hl, HL.
    reflexivity.
  - destruct Hm as [[_ Hd] | [_ Hc]]; [|discriminate Hc].
    unfold handleMapClick, FloorplanManager.handleMapClick. cbn [state].
    rewrite Hd. reflexivity.
  - destruct Hm as [[_ Hd] | [_ Hc]]; [|discriminate Hc].
    unfold handleMapDoubleClick. rewrite Hd. reflexivity.
  - reflexivity.
Qed.


(** A footprint of the triangle, free to be moved, with no interaction
    going on. *)
Definition resting : Manager :=
  {| state := TransformFacts.stored TransformFacts.triangle None;
     interaction := idle |}.

Definition pointerAt (x y : R) (ctrl shift : bool) : MouseEvent :=
  {| lngLat := {| lngOf := x; latOf := y |};
     ctrlKey := ctrl; metaKey := false; shiftKey := shift; onFootprint := true |}.

End InteractionFacts.

(** X11.  While the footprint is locked and nothing is being drawn, the
    map events mousedown, mousemove, mouseup, click, dblclick and
    contextmenu and the presses of keys other than l and L leave the whole
    state of the manager, the stored footprint with it, as it was.  While a
    footprint is being drawn the same holds of these events without click
    and dblclick, which add a drawing point and finish the drawing. *)
Theorem locked_footprint_stays (m : FloorplanInteraction.Manager)
        (inputs : list FloorplanInteraction.Input) :
  (forall input, In input inputs -> InteractionFacts.held m input) ->
  (forall key, In (FloorplanInteraction.KeyDown key) inputs ->
               key <> "l"%string /\ key <> "L"%string) ->
  FloorplanInteraction.state (InteractionFacts.run m inputs)
  = FloorplanInteraction.state m.
Proof.
  unfold InteractionFacts.run. revert m.
  induction inputs as [|input inputs IH]; intros m Hm Hkeys; [reflexivity|].
  cbn [fold_left].
  assert (Hs : FloorplanInteraction.state (FloorplanInteraction.handle m input)
               = FloorplanInteraction.state m).
  { apply InteractionFacts.state_kept; [apply Hm; left; reflexivity|].
    intros key ->. apply Hkeys. left. reflexivity. }
  rewrite IH.
  - exact Hs.
  - intros i Hi. unfold InteractionFacts.held. rewrite Hs.
    apply Hm. right. exact Hi.
  - intros key Hin. apply Hkeys. right. exact Hin.
Qed.

Lemma locked_footprint_stays_witness :
  let m := FloorplanInteraction.toggleLock InteractionFacts.resting in
  FloorplanInteraction.state
    (InteractionFacts.run m
       [FloorplanInteraction.MouseDown (InteractionFacts.pointerAt 0 0 false false);
        FloorplanInteraction.MouseMove (InteractionFacts.pointerAt 1 1 false false);
        FloorplanInteraction.MouseUp;
        FloorplanInteraction.Click None {| lngOf := 1; latOf := 1 |};
        FloorplanInteraction.DoubleClick;
        FloorplanInteraction.RightClick;
        FloorplanInteraction.KeyDown "Escape"])
  = FloorplanInteraction.state m.
Proof.
  intros m. apply locked_footprint_stays.
  - intros input _. left. split; reflexivity.
  - intros key [H|[H|[H|[H|[H|[H|[H|[]]]]]]]]; try discriminate H.
    injection H as <-. split; discriminate.
Defined.







(** ** The containment test above and below the boundary *)

Module BoxFacts.
Import FloorplanManager.
Local Open Scope R_scope.

Definition asPolygon (objs : list LngLat) : list (option R * option R) :=
  map (fun o => (Some (lngOf o), Some (latOf o))) objs.

Definition origin : LngLat := {| lngOf := 0; latOf := 0 |}.

Definition above (y : R) (objs : list LngLat) (i : nat) : bool :=
  Rltb y (latOf (nth i objs origin)).

Definition reach (x y : R) (objs : list LngLat) (i j : nat) : R :=
  let oi := nth i objs origin in
  let oj := nth j objs origin in
  (lngOf oj - lngOf oi) * (y - latOf oi) / (latOf oj - latOf oi) + lngOf oi.

Lemma nth_asPolygon (objs : list LngLat) (i : nat) :
  (i < length objs)%nat ->
  nth i (asPolygon objs) (None, None)
  = (Some (lngOf (nth i objs origin)), Some (latOf (nth i objs origin))).
Proof.
  intros H. unfold asPolygon.
  rewrite (nth_indep _ (None, None)
             ((fun o => (Some (lngOf o), Some (latOf o))) origin))
    by (rewrite length_map; exact H).
  apply (map_nth (fun o => (Some (lngOf o), Some (latOf o)))).
Qed.

Lemma crossing_defined (x y : R) (objs : list LngLat) (i j : nat) :
  (i < length objs)%nat -> (j < length objs)%nat ->
  crossing x y (asPolygon objs) i j
  = xorb (above y objs i) (above y objs j) && Rltb x (reach x y objs i j).
Proof.
  intros Hi Hj. unfold crossing.
  rewrite (nth_asPolygon objs Hi), (nth_asPolygon objs Hj). reflexivity.
Qed.

Definition lastIndex (start0 k j : nat) : nat :=
  match k with O => j | S k' => (start0 + k')%nat end.

Lemma fold_no_crossing (x y : R) (objs : list LngLat) :
  (forall i j, (i < length objs)%nat -> (j < length objs)%nat ->
               crossing x y (asPolygon objs) i j = false) ->
  forall (k start0 j : nat) (inside : bool),
    (start0 + k <= length objs)%nat -> (j < length objs)%nat ->
    fold_left (pointInPolygonStep x y (asPolygon objs)) (seq start0 k) (inside, j)
    = (inside, lastIndex start0 k j).
Proof.
  intros Hno. induction k as [|k IH]; intros start0 j inside Hk Hj; [reflexivity|].
  cbn [seq fold_left]. unfold pointInPolygonStep at 2.
  rewrite Hno by lia. rewrite IH by lia.
  f_equal. destruct k; cbn; lia.
Qed.

Lemma length_asPolygon (objs : list LngLat) : length (asPolygon objs) = length objs.
Proof. apply length_map. Qed.

Lemma in_nth (objs : list LngLat) (i : nat) :
  (i < length objs)%nat -> In (nth i objs origin) objs.
Proof. apply nth_In. Qed.

Lemma outside_no_crossing (x y : R) (objs : list LngLat) :
  (forall i j, (i < length objs)%nat -> (j < length objs)%nat ->
               crossing x y (asPolygon objs) i j = false) ->
  pointInPolygon (x, y) (asPolygon objs) = false.
Proof.
  intros Hno. unfold pointInPolygon. cbn [fst snd]. rewrite length_asPolygon.
  destruct objs as [|o objs]; [reflexivity|].
  rewrite (@fold_no_crossing x y (o :: objs) Hno); cbn [length]; try lia.
  reflexivity.
Qed.

End BoxFacts.

(** X15.  The ray-casting test of [pointInPolygon] answers false for every
    point at or above the highest latitude of the polygon and for every
    point below its lowest latitude: there only comparisons of the latitudes
    decide, and no edge is counted.  So with a site boundary given as
    objects with [lng] and [lat], a click above or below its extent while
    drawing adds no point. *)
Theorem outside_extent_not_inside (objs : list LngLat) (x y : R) :
  (forall o, In o objs -> (latOf o <= y)%R)
  \/ (forall o, In o objs -> (y < latOf o)%R) ->
  FloorplanManager.pointInPolygon (x, y) (BoxFacts.asPolygon objs) = false
  /\ forall (area : option R) (center : option LngLat) (st : FloorplanManager.State),
       FloorplanManager.handleMapClick
         (Some {| sd_coordinates := Some (map CoordObject objs);
                  sd_area := area; sd_center := center |})
         st {| lngOf := x; latOf := y |} = st.
Proof.
  intros Hout.
  assert (Hfalse : FloorplanManager.pointInPolygon (x, y) (BoxFacts.asPolygon objs) = false).
  { destruct Hout as [Ha | Hb].
    - apply BoxFacts.outside_no_crossing. intros i j Hi Hj.
      rewrite BoxFacts.crossing_defined by assumption. unfold BoxFacts.above.
      pose proof (Ha _ (BoxFacts.in_nth objs Hi)).
      pose proof (Ha _ (BoxFacts.in_nth objs Hj)).
      replace (Rltb y (latOf (nth i objs BoxFacts.origin))) with false
        by (symmetry; apply Rltb_false_iff; lra).
      replace (Rltb y (latOf (nth j objs BoxFacts.origin))) with false
        by (symmetry; apply Rltb_false_iff; lra).
      reflexivity.
    - apply BoxFacts.outside_no_crossing. intros i j Hi Hj.
      rewrite BoxFacts.crossing_defined by assumption. unfold BoxFacts.above.
      pose proof (Hb _ (BoxFacts.in_nth objs Hi)).
      pose proof (Hb _ (BoxFacts.in_nth objs Hj)).
      replace (Rltb y (latOf (nth i objs BoxFacts.origin))) with true
        by (symmetry; apply Rltb_true_iff; lra).
      replace (Rltb y (latOf (nth j objs BoxFacts.origin))) with true
        by (symmetry; apply Rltb_true_iff; lra).
      reflexivity. }
  split; [exact Hfalse|].
  intros area center st.
  unfold FloorplanManager.handleMapClick, FloorplanManager.isPointWithinSiteBoundary.
  cbn [sd_coordinates lngOf latOf]. rewrite map_map. cbn [prop_lng prop_lat].
  fold (BoxFacts.asPolygon objs). rewrite Hfalse.
  destruct (FloorplanManager.isDrawing st); reflexivity.
Qed.

Lemma outside_extent_not_inside_witness :
  FloorplanManager.pointInPolygon (1 / 2, 5)%R
    (BoxFacts.asPolygon
       [ {| lngOf := 0; latOf := 0 |}; {| lngOf := 1; latOf := 0 |};
         {| lngOf := 1; latOf := 1 |}; {| lngOf := 0; latOf := 1 |} ]%R)
  = false.
Proof.
  refine (proj1 (@outside_extent_not_inside _ (1 / 2) 5 _)).
  left.
  intros o [<-|[<-|[<-|[<-|[]]]]]; cbn; lra.
Defined.

(** ** The edges of an extracted outline *)

Module GroupFacts.
Import FloorplanGeometry.
Local Open Scope nat_scope.

(** The segments lead from [a] to [b], each one starting where the one
    before it ends. *)
Fixpoint chain (a : Point) (es : list Segment) (b : Point) : Prop :=
  match es with
  | [] => a = b
  | e :: r => seg_start e = a /\ chain (seg_end e) r b
  end.

Definition within (points : list Point) (e : Segment) : Prop :=
  In (seg_start e) points /\ In (seg_end e) points.

Lemma chain_snoc (es : list Segment) (a s c : Point) :
  chain a es s -> chain a (es ++ [ {| seg_start := s; seg_end := c |} ]) c.
Proof.
  revert a. induction es as [|e es IH]; intros a; cbn.
  - intros ->. split; reflexivity.
  - intros [H1 H2]. split; [exact H1|]. apply IH. exact H2.
Qed.

Lemma at_in (points : list Point) (i : nat) :
  i < length points -> In (at_ points i) points.
Proof. apply nth_In. Qed.

Lemma group_fold (points : list Point) (l : list nat) :
  forall (edges : list Segment) (edgeStart : Point),
    (forall i, In i l -> i < length points) ->
    chain (at_ points 0) edges edgeStart ->
    In edgeStart points ->
    Forall (within points) edges ->
    let r := fold_left (groupStep points) l (edges, edgeStart) in
    chain (at_ points 0) (fst r) (snd r)
    /\ In (snd r) points
    /\ Forall (within points) (fst r)
    /\ length (fst r) <= length edges + length l.
Proof.
  induction l as [|i l IH]; intros edges edgeStart Hl Hchain Hin Hall.
  - cbn. repeat split; try assumption. lia.
  - cbv zeta. cbn [fold_left].
    assert (Hi : i < length points) by (apply Hl; left; reflexivity).
    assert (Hstep : groupStep points (edges, edgeStart) i
                    = (edges ++ [ {| seg_start := edgeStart; seg_end := at_ points i |} ],
                       at_ points i)
                    \/ groupStep points (edges, edgeStart) i = (edges, edgeStart)).
    { unfold groupStep. destruct (negb _ || _); [left|right]; reflexivity. }
    destruct Hstep as [-> | ->].
    + destruct (IH (edges ++ [ {| seg_start := edgeStart; seg_end := at_ points i |} ])
                   (at_ points i)) as (Q1 & Q2 & Q3 & Q4).
      * intros k Hk. apply Hl. right. exact Hk.
      * apply chain_snoc. exact Hchain.
      * apply at_in. exact Hi.
      * apply Forall_app. split; [exact Hall|]. constructor; [|constructor].
        split; [exact Hin | apply at_in; exact Hi].
      * cbv zeta. split; [exact Q1|]. split; [exact Q2|]. split; [exact Q3|].
        rewrite length_app in Q4. cbn [length] in *. lia.
    + destruct (IH edges edgeStart) as (Q1 & Q2 & Q3 & Q4); try assumption.
      * intros k Hk. apply Hl. right. exact Hk.
      * cbv zeta. split; [exact Q1|]. split; [exact Q2|]. split; [exact Q3|].
        cbn [length]. lia.
Qed.

(** The loop ends with an edge to the last point. *)
Lemma group_loop (points : list Point) :
  2 <= length points ->
  exists (edges : list Segment) (s : Point),
    fst (fold_left (groupStep points) (seq 1 (length points - 1)) ([], at_ points 0))
    = edges ++ [ {| seg_start := s; seg_end := at_ points (length points - 1) |} ]
    /\ chain (at_ points 0) edges s
    /\ In s points
    /\ Forall (within points) edges
    /\ length edges <= length points - 2.
Proof.
  intros Hn.
  assert (Hseq : seq 1 (length points - 1)
                 = seq 1 (length points - 2) ++ [length points - 1]).
  { replace (length points - 1) with (S (length points - 2)) at 1 by lia.
    rewrite seq_S. do 2 f_equal. lia. }
  rewrite Hseq, fold_left_app. cbn [fold_left].
  destruct (@group_fold points (seq 1 (length points - 2)) [] (at_ points 0))
    as (Q1 & Q2 & Q3 & Q4).
  - intros i Hi. apply in_seq in Hi. lia.
  - reflexivity.
  - apply at_in. lia.
  - constructor.
  - destruct (fold_left (groupStep points) (seq 1 (length points - 2)) ([], at_ points 0))
      as [edges s].
    cbn [fst snd] in *. exists edges, s.
    unfold groupStep. rewrite Nat.eqb_refl, orb_true_r. cbn [fst].
    rewrite length_seq in Q4. cbn [length] in Q4.
    repeat split; try assumption.
Qed.

Definition square : list Point := [(0, 0); (1, 0); (2, 0); (2, 2); (0, 2)]%R.

End GroupFacts.

(** X16.  For an outline of two points or more, the edges that
    [groupPointsIntoEdges] returns form a closed chain: there is an edge,
    the first one starts at the first point, each edge starts where the one
    before it ends, and the last one ends at the first point.  Every end of
    an edge is a point of the outline, and there are no more edges than
    points. *)
Theorem grouped_edges_closed_chain (points : list Point) :
  2 <= length points ->
  let edges := FloorplanGeometry.groupPointsIntoEdges points in
  edges <> []
  /\ GroupFacts.chain (at_ points 0) edges (at_ points 0)
  /\ Forall (GroupFacts.within points) edges
  /\ length edges <= length points.
Proof.
  intros Hn. unfold FloorplanGeometry.groupPointsIntoEdges.
  replace (length points <? 2) with false by (symmetry; apply Nat.ltb_ge; exact Hn).
  destruct (GroupFacts.group_loop points Hn) as [es [s (-> & Hchain & Hs & Hall & Hlen)]].
  set (lastPoint := at_ points (length points - 1)).
  assert (Hlast : In lastPoint points) by (apply GroupFacts.at_in; lia).
  assert (Hfirst : In (at_ points 0) points) by (apply GroupFacts.at_in; lia).
  set (e := {| FloorplanGeometry.seg_start := s; FloorplanGeometry.seg_end := lastPoint |}).
  assert (Hes : GroupFacts.chain (at_ points 0) (es ++ [e]) lastPoint)
    by (apply GroupFacts.chain_snoc; exact Hchain).
  assert (Hwithin : Forall (GroupFacts.within points) (es ++ [e])).
  { apply Forall_app. split; [exact Hall|]. constructor; [|constructor].
    split; assumption. }
  destruct (es ++ [e]) as [|e0 rest] eqn:E; [destruct es; discriminate E|].
  rewrite <- E in *. rewrite last_last. cbn [FloorplanGeometry.seg_end e].
  destruct (Reqb (fst lastPoint) (fst (at_ points 0))) eqn:E1;
    [destruct (Reqb (snd lastPoint) (snd (at_ points 0))) eqn:E2|]; cbn [negb orb].
  - apply Reqb_true_iff in E1. apply Reqb_true_iff in E2.
    assert (Heq : lastPoint = at_ points 0)
      by (destruct lastPoint, (at_ points 0); cbn in *; congruence).
    split; [rewrite E; discriminate|]. split; [rewrite <- Heq at 2; exact Hes|].
    split; [exact Hwithin|]. rewrite length_app. cbn [length]. lia.
  - split; [destruct es; discriminate|].
    split; [apply (GroupFacts.chain_snoc _ _ _ _ Hes)|].
    split.
    + apply Forall_app. split; [exact Hwithin|]. constructor; [|constructor].
      split; assumption.
    + rewrite !length_app. cbn [length]. lia.
  - split; [destruct es; discriminate|].
    split; [apply (GroupFacts.chain_snoc _ _ _ _ Hes)|].
    split.
    + apply Forall_app. split; [exact Hwithin|]. constructor; [|constructor].
      split; assumption.
    + rewrite !length_app. cbn [length]. lia.
Qed.

Lemma grouped_edges_closed_chain_witness :
  GroupFacts.chain (at_ GroupFacts.square 0)
    (FloorplanGeometry.groupPointsIntoEdges GroupFacts.square)
    (at_ GroupFacts.square 0).
Proof.
  refine (proj1 (proj2 (@grouped_edges_closed_chain GroupFacts.square _))).
  cbn. lia.
Defined.

(** ** Area and perimeter of an extracted outline *)

Module OutlineFacts.
Import FloorplanGeometry.
Local Open Scope R_scope.

Definition planar (p q : Point) : R :=
  sqrt ((fst q - fst p) * (fst q - fst p) + (snd q - snd p) * (snd q - snd p)).

Lemma length_closeRing (b : list Point) : length (closeRing b) = S (length b).
Proof. unfold closeRing. rewrite length_app. cbn. lia. Qed.

(** A loop over the points with their cyclic successors sums over the
    consecutive pairs of the closed ring. *)
Lemma outline_sum (f : Point -> Point -> R) (b : list Point) :
  fold_left (fun a i => a + f (at_ b i) (at_ b ((i + 1) mod length b)))
            (seq 0 (length b)) 0
  = RingSums.pathSum f (closeRing b).
Proof.
  pose proof (RingSums.fold_pairs f (closeRing b) [] 0) as E.
  cbn [app length] in E. rewrite length_closeRing in E.
  replace (S (length b) - 1)%nat with (length b) in E by lia.
  rewrite Rplus_0_l in E. rewrite <- E.
  apply RingSums.fold_left_ext_in. intros a i Hi. apply in_seq in Hi.
  assert (Hlt : (i < length b)%nat) by lia.
  rewrite (EdgeLengthFacts.next_in_closed b Hlt).
  replace (at_ (closeRing b) i) with (at_ b i)
    by (symmetry; apply at_app_l; exact Hlt).
  reflexivity.
Qed.

Lemma area_sum (b : list Point) :
  calculateArea b = Rabs (RingSums.pathSum RingSums.cross (closeRing b)) / 2.
Proof.
  unfold calculateArea. rewrite <- (outline_sum RingSums.cross b).
  reflexivity.
Qed.

Lemma perimeter_sum (b : list Point) :
  calculatePerimeter b = RingSums.pathSum planar (closeRing b).
Proof.
  unfold calculatePerimeter. rewrite <- (outline_sum planar b).
  reflexivity.
Qed.

Lemma pathSum_nonneg (f : Point -> Point -> R) (l : list Point) :
  (forall p q, 0 <= f p q) -> 0 <= RingSums.pathSum f l.
Proof.
  intros Hf. induction l as [|a [|c t] IH]; try (cbn; lra).
  cbn [RingSums.pathSum] in *. pose proof (Hf a c). lra.
Qed.

Lemma planar_sym (p q : Point) : planar q p = planar p q.
Proof. unfold planar. f_equal. ring. Qed.

(** The closed ring of the reversed outline carries the same pairs as the
    closed ring read backwards. *)
Lemma pathSum_reversed (f : Point -> Point -> R) (b : list Point) :
  RingSums.pathSum f (closeRing (rev b))
  = RingSums.pathSum (fun p q => f q p) (closeRing b).
Proof.
  destruct b as [|a t]; [reflexivity|].
  rewrite <- (RingSums.pathSum_rev f (closeRing (a :: t))).
  rewrite (@RingSums.rev_closeRing (a :: t)) by congruence.
  change (rev (a :: t)) with (rev t ++ [a]).
  change (at_ (a :: t) 0 :: rev (tl (a :: t))) with ([a] ++ rev t).
  apply RingSums.pathSum_swap.
Qed.

Definition outline : list Point := [(0, 0); (4, 0); (4, 3); (0, 3)]%R.

End OutlineFacts.

(** X17.  For an outline of three points or more, the area of
    [calculateMetrics] is the shoelace area that the site boundary code
    computes for the same points closed into a ring; area and perimeter are
    not negative and the point count is the number of points; starting the
    outline at another point gives the same metrics, and reversing it gives
    the same area and perimeter.  Coordinates are real numbers here. *)
Theorem outline_metrics (b : list Point) (k : nat) :
  3 <= length b ->
  let m := FloorplanGeometry.calculateMetrics (Some b) in
  FloorplanGeometry.m_area m
  = SiteBoundaryManager.calculatePolygonAreaFallback (Some (closeRing b))
  /\ (0 <= FloorplanGeometry.m_area m)%R
  /\ (0 <= FloorplanGeometry.m_perimeter m)%R
  /\ FloorplanGeometry.boundary_points m = length b
  /\ FloorplanGeometry.calculateMetrics (Some (rotateRing k b)) = m
  /\ FloorplanGeometry.m_area (FloorplanGeometry.calculateMetrics (Some (rev b)))
     = FloorplanGeometry.m_area m
  /\ FloorplanGeometry.m_perimeter (FloorplanGeometry.calculateMetrics (Some (rev b)))
     = FloorplanGeometry.m_perimeter m.
Proof.
  intros Hlen. unfold FloorplanGeometry.calculateMetrics.
  rewrite RingSums.length_rotateRing, length_rev.
  replace (length b <? 3) with false by (symmetry; apply Nat.ltb_ge; exact Hlen).
  cbn [FloorplanGeometry.m_area FloorplanGeometry.m_perimeter
       FloorplanGeometry.boundary_points].
  rewrite !OutlineFacts.area_sum, !OutlineFacts.perimeter_sum.
  rewrite !RingSums.pathSum_rotate, !OutlineFacts.pathSum_reversed.
  split; [|split; [|split; [|split; [|split; [|split]]]]].
  - rewrite RingSums.area_pathSum by lia. reflexivity.
  - pose proof (Rabs_pos (RingSums.pathSum RingSums.cross (closeRing b))). lra.
  - apply OutlineFacts.pathSum_nonneg. intros p q. apply sqrt_pos.
  - reflexivity.
  - reflexivity.
  - rewrite (@RingSums.pathSum_ext _ (fun p q => (- RingSums.cross p q)%R))
      by (intros; unfold RingSums.cross; lra).
    now rewrite RingSums.pathSum_opp, Rabs_Ropp.
  - apply RingSums.pathSum_ext. intros p q. apply OutlineFacts.planar_sym.
Qed.

Lemma outline_metrics_witness :
  FloorplanGeometry.calculateMetrics (Some (rotateRing 1 OutlineFacts.outline))
  = FloorplanGeometry.calculateMetrics (Some OutlineFacts.outline).
Proof.
  refine (proj1 (proj2 (proj2 (proj2 (proj2
            (@outline_metrics OutlineFacts.outline 1 _)))))).
  cbn. lia.
Defined.

(** ** The outline scaled into the unit square *)

Module UnitSquareFacts.
Import FloorplanGeometry.
Local Open Scope R_scope.

Lemma extremes (x : R) (xs : list R) (v : R) :
  v = x \/ In v xs -> minOf x xs <= v <= maxOf x xs.
Proof.
  unfold minOf, maxOf. intros [-> | Hin].
  - split; [apply ExtremeFacts.fold_Rmin_le_init | apply ExtremeFacts.fold_Rmax_ge_init].
  - split; [now apply ExtremeFacts.fold_Rmin_le_In | now apply ExtremeFacts.fold_Rmax_ge_In].
Qed.

Lemma scaled_in_unit (lo hi v : R) :
  lo <= v <= hi ->
  0 <= (if Rltb 0 (hi - lo) then (v - lo) / (hi - lo) else 0) <= 1.
Proof.
  intros [H1 H2]. destruct (Rltb 0 (hi - lo)) eqn:E; [|lra].
  apply Rltb_true_iff in E.
  pose proof (Rinv_0_lt_compat _ E) as Hinv.
  assert (Hone : (hi - lo) * / (hi - lo) = 1) by (field; lra).
  unfold Rdiv. split; nra.
Qed.

Lemma flat_min (c : R) (xs : list R) :
  (forall v, In v xs -> v = c) -> minOf c xs = c.
Proof.
  unfold minOf. induction xs as [|v xs IH]; intros H; [reflexivity|].
  cbn [fold_left]. rewrite (H v) by (left; reflexivity).
  unfold Rmin. destruct (Rle_dec c c); apply IH; intros w Hw; apply H; right; exact Hw.
Qed.

Lemma flat_max (c : R) (xs : list R) :
  (forall v, In v xs -> v = c) -> maxOf c xs = c.
Proof.
  unfold maxOf. induction xs as [|v xs IH]; intros H; [reflexivity|].
  cbn [fold_left]. rewrite (H v) by (left; reflexivity).
  unfold Rmax. destruct (Rle_dec c c); apply IH; intros w Hw; apply H; right; exact Hw.
Qed.

(** Without extent the scaled value is 0. *)
Lemma scaled_flat (c v : R) :
  (if Rltb 0 (c - c) then (v - c) / (c - c) else 0) = 0.
Proof.
  replace (Rltb 0 (c - c)) with false by (symmetry; apply Rltb_false_iff; lra).
  reflexivity.
Qed.

End UnitSquareFacts.

(** X18.  [boundariesToCoordinates] returns one point for each point of the
    outline, and every returned point lies in the unit square; when all the
    points of the outline have the same first component, so that the outline
    has no extent in that direction, every returned point has 0 there, and
    likewise for the second component; a null or an empty outline gives no
    point. *)
Theorem outline_in_unit_square (b : list Point) :
  FloorplanGeometry.boundariesToCoordinates None = []
  /\ length (FloorplanGeometry.boundariesToCoordinates (Some b)) = length b
  /\ (forall q, In q (FloorplanGeometry.boundariesToCoordinates (Some b)) ->
                (0 <= fst q <= 1)%R /\ (0 <= snd q <= 1)%R)
  /\ (forall c, (forall p, In p b -> fst p = c) ->
                forall q, In q (FloorplanGeometry.boundariesToCoordinates (Some b)) ->
                          fst q = 0%R)
  /\ (forall c, (forall p, In p b -> snd p = c) ->
                forall q, In q (FloorplanGeometry.boundariesToCoordinates (Some b)) ->
                          snd q = 0%R).
Proof.
  split; [reflexivity|].
  destruct b as [|p rest];
    [split; [reflexivity | split; [intros q [] | split; intros c _ q []]]|].
  unfold FloorplanGeometry.boundariesToCoordinates. cbv zeta.
  split; [apply length_map|]. split; [|split].
  - intros q Hq. apply in_map_iff in Hq. destruct Hq as [r [<- Hr]].
    cbn [fst snd].
    split; apply UnitSquareFacts.scaled_in_unit; apply UnitSquareFacts.extremes;
      (destruct Hr as [<- | Hr]; [left; reflexivity | right; now apply in_map]).
  - intros c Hflat q Hq. apply in_map_iff in Hq. destruct Hq as [r [<- _]].
    cbn [fst].
    assert (Hp : fst p = c) by (apply Hflat; left; reflexivity).
    assert (Hxs : forall v, In v (map fst rest) -> v = fst p).
    { intros v Hv. apply in_map_iff in Hv. destruct Hv as [w [<- Hw]].
      rewrite Hp. apply Hflat. right. exact Hw. }
    rewrite (UnitSquareFacts.flat_min _ Hxs), (UnitSquareFacts.flat_max _ Hxs).
    apply UnitSquareFacts.scaled_flat.
  - intros c Hflat q Hq. apply in_map_iff in Hq. destruct Hq as [r [<- _]].
    cbn [snd].
    assert (Hp : snd p = c) by (apply Hflat; left; reflexivity).
    assert (Hys : forall v, In v (map snd rest) -> v = snd p).
    { intros v Hv. apply in_map_iff in Hv. destruct Hv as [w [<- Hw]].
      rewrite Hp. apply Hflat. right. exact Hw. }
    rewrite (UnitSquareFacts.flat_min _ Hys), (UnitSquareFacts.flat_max _ Hys).
    apply UnitSquareFacts.scaled_flat.
Qed.

(** ** The edge nearest to a click *)

Module NearestFacts.
Import PropertySetbacksManager.
Local Open Scope R_scope.

Definition threshold : R := 0.0001.

Definition distanceTo (clickPoint : Point) (edge : Edge) : R :=
  distanceToLineSegment clickPoint
    (SiteBoundaryManager.start edge) (SiteBoundaryManager.end_ edge).

(** What the loop of [findNearestEdge] knows after the edges [seen]. *)
Definition nearestOf (clickPoint : Point) (seen : list Edge)
           (acc : option Edge * option R) : Prop :=
  match acc with
  | (None, None) => forall e, In e seen -> ~ distanceTo clickPoint e < threshold
  | (Some e, Some d) =>
      d = distanceTo clickPoint e /\ In e seen /\ d < threshold
      /\ forall e', In e' seen -> d <= distanceTo clickPoint e'
  | _ => False
  end.

Lemma nearest_step (clickPoint : Point) (seen : list Edge)
      (acc : option Edge * option R) (edge : Edge) :
  nearestOf clickPoint seen acc ->
  nearestOf clickPoint (seen ++ [edge]) (nearestStep clickPoint acc edge).
Proof.
  unfold nearestStep. fold (distanceTo clickPoint edge). fold threshold.
  destruct acc as [[e|] [d|]]; cbn [snd nearestOf]; try tauto.
  - intros (-> & Hin & Hthr & Hmin).
    destruct (Rltb (distanceTo clickPoint edge) (distanceTo clickPoint e)) eqn:E1;
      [destruct (Rltb (distanceTo clickPoint edge) threshold) eqn:E2|];
      cbn [andb nearestOf].
    + apply Rltb_true_iff in E1. apply Rltb_true_iff in E2.
      split; [reflexivity|]. split; [apply in_or_app; right; left; reflexivity|].
      split; [exact E2|]. intros e' He'. apply in_app_or in He'.
      destruct He' as [He' | [<- | []]]; [|lra].
      pose proof (Hmin e' He'). lra.
    + apply Rltb_true_iff in E1. apply Rltb_false_iff in E2.
      split; [reflexivity|]. split; [apply in_or_app; left; exact Hin|].
      split; [exact Hthr|]. intros e' He'. apply in_app_or in He'.
      destruct He' as [He' | [<- | []]]; [now apply Hmin | lra].
    + apply Rltb_false_iff in E1.
      split; [reflexivity|]. split; [apply in_or_app; left; exact Hin|].
      split; [exact Hthr|]. intros e' He'. apply in_app_or in He'.
      destruct He' as [He' | [<- | []]]; [now apply Hmin | lra].
  - intros Hnone.
    destruct (Rltb (distanceTo clickPoint edge) threshold) eqn:E2;
      cbn [andb nearestOf].
    + apply Rltb_true_iff in E2.
      split; [reflexivity|]. split; [apply in_or_app; right; left; reflexivity|].
      split; [exact E2|]. intros e' He'. apply in_app_or in He'.
      destruct He' as [He' | [<- | []]]; [|lra].
      pose proof (Hnone e' He'). lra.
    + apply Rltb_false_iff in E2. intros e' He'. apply in_app_or in He'.
      destruct He' as [He' | [<- | []]]; [now apply Hnone | exact E2].
Qed.

Lemma nearest_fold (clickPoint : Point) (l : list Edge) :
  forall (seen : list Edge) (acc : option Edge * option R),
    nearestOf clickPoint seen acc ->
    nearestOf clickPoint (seen ++ l) (fold_left (nearestStep clickPoint) l acc).
Proof.
  induction l as [|edge l IH]; intros seen acc H.
  - rewrite app_nil_r. exact H.
  - cbn [fold_left].
    replace (seen ++ edge :: l) with ((seen ++ [edge]) ++ l)
      by (rewrite <- app_assoc; reflexivity).
    apply IH. apply nearest_step. exact H.
Qed.

Lemma none_far (edges : list Edge) (clickPoint : Point) :
  findNearestEdge edges clickPoint = None ->
  forall e, In e edges -> ~ distanceTo clickPoint e < threshold.
Proof.
  unfold findNearestEdge.
  pose proof (@nearest_fold clickPoint edges [] (None, None)) as H.
  cbn [app] in H. specialize (H (fun e (F : In e []) => match F with end)).
  destruct (fold_left _ edges (None, None)) as [[e|] [d|]]; cbn [fst];
    cbn [nearestOf] in H; try contradiction; try discriminate.
  intros _. exact H.
Qed.

(** A click on the start of an edge of the list finds an edge. *)
Lemma start_found (edges : list Edge) (e : Edge) :
  In e edges -> findNearestEdge edges (SiteBoundaryManager.start e) <> None.
Proof.
  intros Hin Hfind. apply (none_far _ _ Hfind e Hin).
  unfold distanceTo, threshold. rewrite SelectionFacts.distance_at_start. lra.
Qed.

(** The edges of a ring closed by a copy of its first vertex. *)
Lemma ring_edges (v : list Point) :
  (3 <= length v)%nat ->
  SiteBoundaryManager.calculatePolygonEdges (Some (closeRing v))
  = map (EdgeFacts.edgeAt v) (seq 0 (length v)).
Proof.
  intros Hlen.
  assert (L : length (closeRing v) = S (length v))
    by (unfold closeRing; rewrite length_app; simpl; lia).
  unfold SiteBoundaryManager.calculatePolygonEdges.
  replace (length (closeRing v) <? 3)%nat with false
    by (symmetry; apply Nat.ltb_ge; lia).
  unfold closeRing. rewrite EdgeFacts.coordsToProcess_closed by assumption.
  apply EdgeFacts.edges_of_processed.
Qed.

End NearestFacts.

(** X19.  [findNearestEdge] returns null exactly when no edge is within
    the threshold of 0.0001 of the click; otherwise it returns an edge of
    the list that is within the threshold and at least as near to the click
    as every other edge. *)
Theorem nearest_edge_is_nearest (edges : list PropertySetbacksManager.Edge)
        (clickPoint : Point) :
  match PropertySetbacksManager.findNearestEdge edges clickPoint with
  | None =>
      forall e, In e edges ->
                ~ (NearestFacts.distanceTo clickPoint e < NearestFacts.threshold)%R
  | Some e =>
      In e edges
      /\ (NearestFacts.distanceTo clickPoint e < NearestFacts.threshold)%R
      /\ forall e', In e' edges ->
                    (NearestFacts.distanceTo clickPoint e
                     <= NearestFacts.distanceTo clickPoint e')%R
  end.
Proof.
  unfold PropertySetbacksManager.findNearestEdge.
  pose proof (@NearestFacts.nearest_fold clickPoint edges [] (None, None)) as H.
  cbn [app] in H. specialize (H (fun e (F : In e []) => match F with end)).
  destruct (fold_left _ edges (None, None)) as [[e|] [d|]]; cbn [fst];
    cbn [NearestFacts.nearestOf] in H; try contradiction.
  - destruct H as (-> & Hin & Hthr & Hmin). repeat split; assumption.
  - exact H.
Qed.

(** X20.  [distanceToLineSegment] is never negative and it is 0 at the
    start of the segment, also for a segment without length.  So a click on
    the start of an edge of the list always finds an edge; and since every
    vertex of a ring is the start of one of the edges that
    [calculatePolygonEdges] returns for it, a click on a vertex of a ring of
    three vertices or more, closed by a copy of the first one, finds an edge
    among them. *)
Theorem click_on_vertex_finds_edge (v : list Point) (vertex : Point) :
  3 <= length v ->
  In vertex v ->
  (forall point lineStart lineEnd,
      (0 <= PropertySetbacksManager.distanceToLineSegment point lineStart lineEnd)%R)
  /\ (forall lineStart lineEnd,
         PropertySetbacksManager.distanceToLineSegment lineStart lineStart lineEnd = 0%R)
  /\ (forall edges e,
         In e edges ->
         PropertySetbacksManager.findNearestEdge edges (SiteBoundaryManager.start e)
         <> None)
  /\ PropertySetbacksManager.findNearestEdge
       (SiteBoundaryManager.calculatePolygonEdges (Some (closeRing v))) vertex
     <> None.
Proof.
  intros Hlen Hin.
  split; [apply SelectionFacts.distance_nonneg|].
  split; [apply SelectionFacts.distance_at_start|].
  split; [apply NearestFacts.start_found|].
  rewrite (NearestFacts.ring_edges v Hlen).
  destruct (In_nth v vertex (0, 0)%R Hin) as [i [Hi Hnth]].
  replace vertex with (SiteBoundaryManager.start (EdgeFacts.edgeAt v i))
    by (unfold EdgeFacts.edgeAt; cbn [SiteBoundaryManager.start]; exact Hnth).
  apply NearestFacts.start_found. apply in_map. apply in_seq. lia.
Qed.

Lemma click_on_vertex_finds_edge_witness :
  PropertySetbacksManager.findNearestEdge
    (SiteBoundaryManager.calculatePolygonEdges (Some (closeRing OutlineFacts.outline)))
    (4, 3)%R
  <> None.
Proof.
  refine (proj2 (proj2 (proj2 (@click_on_vertex_finds_edge OutlineFacts.outline (4, 3)%R _ _)))).
  - cbn. lia.
  - right. right. left. reflexivity.
Defined.

(** ** The setbacks and the roles of the edges in a request *)

Module RoleFacts.
Import PropertySetbacksManager SiteInspectorCore.

Lemma or_default_truthy (n d : JS.number) :
  JS.truthy d = true -> JS.truthy (JS.or_default n d) = true.
Proof.
  intros Hd. unfold JS.or_default. destruct (JS.truthy n) eqn:E; assumption.
Qed.

Lemma or_default_kept (n d : JS.number) :
  JS.truthy n = true -> JS.or_default n d = n.
Proof. intros H. unfold JS.or_default. now rewrite H. Qed.

Definition typeEqb (a b : EdgeType) : bool :=
  match a, b with
  | side_, side_ | front_, front_ | back_, back_ => true
  | _, _ => false
  end.

Definition ofType (t : EdgeType) (cs : list EdgeClassification)
  : list EdgeClassification :=
  filter (fun c => typeEqb (ec_type c) t) cs.

Lemma filter_map_comm (A B : Type) (p : B -> bool) (g : A -> B) (l : list A) :
  filter p (map g l) = map g (filter (fun x => p (g x)) l).
Proof.
  induction l as [|a l IH]; [reflexivity|].
  cbn [map filter]. destruct (p (g a)); cbn [map]; now rewrite IH.
Qed.

Lemma filter_seq_eqb (k n : nat) :
  filter (fun i => i =? k) (seq 0 n) = if k <? n then [k] else [].
Proof.
  induction n as [|n IH]; [reflexivity|].
  rewrite seq_S, filter_app, IH. cbn [filter plus].
  destruct (Nat.ltb_spec k n) as [H|H], (Nat.eqb_spec n k) as [E|E],
    (Nat.ltb_spec k (S n)) as [H'|H']; try lia; try reflexivity.
  subst. reflexivity.
Qed.

Lemma filter_none (A : Type) (p : A -> bool) (l : list A) :
  (forall x, In x l -> p x = false) -> filter p l = [].
Proof.
  induction l as [|a l IH]; intros H; [reflexivity|].
  cbn [filter]. rewrite (H a) by (left; reflexivity).
  apply IH. intros x Hx. apply H. right. exact Hx.
Qed.

Definition edge (i : nat) (a b : Point) : Edge :=
  {| SiteBoundaryManager.index := i; SiteBoundaryManager.start := a;
     SiteBoundaryManager.end_ := b; SiteBoundaryManager.midpoint := a |}.

Definition threeEdges : list Edge :=
  [edge 0 (0, 0)%R (1, 0)%R; edge 1 (1, 0)%R (1, 1)%R; edge 2 (1, 1)%R (0, 0)%R].

Definition selectedState : State :=
  {| polygonEdges := threeEdges;
     selectedEdges := {| front := Some (edge 0 (0, 0)%R (1, 0)%R);
                         back := Some (edge 1 (1, 0)%R (1, 1)%R) |};
     isEdgeSelectionMode := false |}.

Definition zeroInputs : Inputs :=
  {| in_frontSetback := Some "0"%string;
     in_backSetback := Some "2.5"%string;
     in_sideSetback := None |}.

End RoleFacts.

(** X21.  The setbacks of an event that [calculateBuildableAreaPreview] or
    [recalculateBuildableArea] emits are numbers that are neither NaN nor
    0: an input of 0 is replaced by the default of its role like an input
    that is not a number.  So the fallback to 0 of the handlers never
    applies to such an event: every edge classification built from it
    carries a setback that is neither NaN nor 0, and an event is emitted
    only when a front and a back edge are both selected. *)
Theorem emitted_setbacks_never_zero (st : PropertySetbacksManager.State)
        (inputs : PropertySetbacksManager.Inputs)
        (payload : PropertySetbacksManager.Payload) :
  PropertySetbacksManager.calculateBuildableAreaPreview st inputs = Some payload
  \/ PropertySetbacksManager.recalculateBuildableArea st inputs = Some payload ->
  PropertySetbacksManager.bothSelected (PropertySetbacksManager.selectedEdges st) = true
  /\ (exists f b s,
         PropertySetbacksManager.frontSetback payload = JS.Number f
         /\ PropertySetbacksManager.backSetback payload = JS.Number b
         /\ PropertySetbacksManager.sideSetback payload = JS.Number s
         /\ JS.truthy f = true /\ JS.truthy b = true /\ JS.truthy s = true)
  /\ forall ec, In ec (SiteInspectorCore.edgeClassifications payload) ->
                JS.truthy (SiteInspectorCore.ec_setback ec) = true.
Proof.
  intros Hemit.
  destruct (SetbackFacts.emitted_payload st inputs Hemit) as (Hf & Hb & Hs).
  assert (Tf : JS.truthy (JS.or_default
                 (JS.parseFloat (PropertySetbacksManager.inputValue
                                   (PropertySetbacksManager.in_frontSetback inputs)))
                 PropertySetbacksManager.defaultFront) = true)
    by (apply RoleFacts.or_default_truthy; reflexivity).
  assert (Tb : JS.truthy (JS.or_default
                 (JS.parseFloat (PropertySetbacksManager.inputValue
                                   (PropertySetbacksManager.in_backSetback inputs)))
                 PropertySetbacksManager.defaultBack) = true)
    by (apply RoleFacts.or_default_truthy; reflexivity).
  assert (Ts : JS.truthy (JS.or_default
                 (JS.parseFloat (PropertySetbacksManager.inputValue
                                   (PropertySetbacksManager.in_sideSetback inputs)))
                 PropertySetbacksManager.defaultSide) = true)
    by (apply RoleFacts.or_default_truthy; reflexivity).
  split; [|split].
  - unfold PropertySetbacksManager.calculateBuildableAreaPreview,
      PropertySetbacksManager.recalculateBuildableArea in Hemit.
    destruct (PropertySetbacksManager.bothSelected _); [reflexivity|].
    destruct Hemit as [H | H]; discriminate H.
  - do 3 eexists. repeat split; eassumption.
  - intros ec Hin.
    destruct (SetbackFacts.classification_cases payload ec Hin)
      as [[_ ->] | [[_ ->] | [_ ->]]].
    + rewrite Hf. cbn [JS.parseFloat]. now rewrite RoleFacts.or_default_kept.
    + rewrite Hb. cbn [JS.parseFloat]. now rewrite RoleFacts.or_default_kept.
    + rewrite Hs. cbn [JS.parseFloat]. now rewrite RoleFacts.or_default_kept.
Qed.

Lemma emitted_setbacks_never_zero_witness :
  exists payload,
    PropertySetbacksManager.calculateBuildableAreaPreview
      RoleFacts.selectedState RoleFacts.zeroInputs = Some payload
    /\ PropertySetbacksManager.frontSetback payload
       = JS.Number PropertySetbacksManager.defaultFront
    /\ forall ec, In ec (SiteInspectorCore.edgeClassifications payload) ->
                  JS.truthy (SiteInspectorCore.ec_setback ec) = true.
Proof.
  eexists. split; [reflexivity|]. split; [reflexivity|].
  refine (proj2 (proj2 (@emitted_setbacks_never_zero
                          RoleFacts.selectedState RoleFacts.zeroInputs _ _))).
  left. reflexivity.
Defined.

(** X22.  With a front and a back edge selected whose indices are indices
    of the edge list, the classifications hold exactly one front edge, at
    the index of the selected front edge and with the front setback; they
    hold exactly one back edge, at the index of the selected back edge and
    with the back setback, when the two indices differ, and none when they
    are the same; every other edge is a side edge.  Unless both edges are
    selected every edge is a side edge. *)
Theorem classification_roles (data : PropertySetbacksManager.Payload)
        (f b : PropertySetbacksManager.Edge) :
  PropertySetbacksManager.front (PropertySetbacksManager.p_selectedEdges data) = Some f ->
  PropertySetbacksManager.back (PropertySetbacksManager.p_selectedEdges data) = Some b ->
  SiteBoundaryManager.index f < length (PropertySetbacksManager.p_polygonEdges data) ->
  SiteBoundaryManager.index b < length (PropertySetbacksManager.p_polygonEdges data) ->
  let cs := SiteInspectorCore.edgeClassifications data in
  RoleFacts.ofType SiteInspectorCore.front_ cs
  = [ {| SiteInspectorCore.ec_index := SiteBoundaryManager.index f;
         SiteInspectorCore.ec_type := SiteInspectorCore.front_;
         SiteInspectorCore.ec_setback :=
           JS.or_default (JS.parseFloat (PropertySetbacksManager.frontSetback data))
                         SiteInspectorCore.zero |} ]
  /\ RoleFacts.ofType SiteInspectorCore.back_ cs
     = (if SiteBoundaryManager.index b =? SiteBoundaryManager.index f then []
        else [ {| SiteInspectorCore.ec_index := SiteBoundaryManager.index b;
                  SiteInspectorCore.ec_type := SiteInspectorCore.back_;
                  SiteInspectorCore.ec_setback :=
                    JS.or_default (JS.parseFloat (PropertySetbacksManager.backSetback data))
                                  SiteInspectorCore.zero |} ])
  /\ forall (other : PropertySetbacksManager.Payload),
       PropertySetbacksManager.bothSelected (PropertySetbacksManager.p_selectedEdges other)
       = false ->
       forall ec, In ec (SiteInspectorCore.edgeClassifications other) ->
                  SiteInspectorCore.ec_type ec = SiteInspectorCore.side_.
Proof.
  intros Hf Hb Hfn Hbn cs. subst cs.
  unfold SiteInspectorCore.edgeClassifications. rewrite Hf, Hb.
  rewrite SetbackFacts.forEachPush_map. unfold RoleFacts.ofType.
  rewrite !RoleFacts.filter_map_comm.
  split; [|split].
  - rewrite (@filter_ext _ _ (fun i => i =? SiteBoundaryManager.index f)).
    + rewrite RoleFacts.filter_seq_eqb.
      replace (SiteBoundaryManager.index f <? _) with true
        by (symmetry; apply Nat.ltb_lt; exact Hfn).
      cbn [map]. unfold SiteInspectorCore.classifySelected.
      now rewrite Nat.eqb_refl.
    + intros i. unfold SiteInspectorCore.classifySelected.
      destruct (i =? SiteBoundaryManager.index f); [reflexivity|].
      destruct (i =? SiteBoundaryManager.index b); reflexivity.
  - destruct (Nat.eqb_spec (SiteBoundaryManager.index b) (SiteBoundaryManager.index f))
      as [E | E].
    + rewrite RoleFacts.filter_none; [reflexivity|]. intros i _.
      unfold SiteInspectorCore.classifySelected. rewrite E.
      destruct (i =? SiteBoundaryManager.index f); reflexivity.
    + rewrite (@filter_ext _ _ (fun i => i =? SiteBoundaryManager.index b)).
      * rewrite RoleFacts.filter_seq_eqb.
        replace (SiteBoundaryManager.index b <? _) with true
          by (symmetry; apply Nat.ltb_lt; exact Hbn).
        cbn [map]. unfold SiteInspectorCore.classifySelected.
        replace (SiteBoundaryManager.index b =? SiteBoundaryManager.index f) with false
          by (symmetry; apply Nat.eqb_neq; exact E).
        now rewrite Nat.eqb_refl.
      * intros i. unfold SiteInspectorCore.classifySelected.
        destruct (Nat.eqb_spec i (SiteBoundaryManager.index f)) as [-> | Ef].
        -- symmetry. apply Nat.eqb_neq. congruence.
        -- destruct (i =? SiteBoundaryManager.index b); reflexivity.
  - intros other Hsel ec Hin.
    unfold SiteInspectorCore.edgeClassifications in Hin.
    unfold PropertySetbacksManager.bothSelected in Hsel.
    destruct (PropertySetbacksManager.front (PropertySetbacksManager.p_selectedEdges other));
      [destruct (PropertySetbacksManager.back (PropertySetbacksManager.p_selectedEdges other));
       [discriminate Hsel|]|];
      rewrite SetbackFacts.forEachPush_map in Hin; apply in_map_iff in Hin;
      destruct Hin as [i [<- _]]; reflexivity.
Qed.

Lemma classification_roles_witness :
  exists payload,
    PropertySetbacksManager.recalculateBuildableArea
      RoleFacts.selectedState RoleFacts.zeroInputs = Some payload
    /\ map SiteInspectorCore.ec_index
           (RoleFacts.ofType SiteInspectorCore.front_
              (SiteInspectorCore.edgeClassifications payload)) = [0]
    /\ map SiteInspectorCore.ec_index
           (RoleFacts.ofType SiteInspectorCore.back_
              (SiteInspectorCore.edgeClassifications payload)) = [1].
Proof.
  eexists. split; [reflexivity|].
  match goal with
  | |- context [SiteInspectorCore.edgeClassifications ?p] =>
      destruct (@classification_roles p
                  (RoleFacts.edge 0 (0, 0)%R (1, 0)%R) (RoleFacts.edge 1 (1, 0)%R (1, 1)%R)
                  eq_refl eq_refl) as (H1 & H2 & _)
  end.
  - cbn. lia.
  - cbn. lia.
  - rewrite H1, H2. split; reflexivity.
Defined.

(** ** Fetching with retries *)

Module RetryFacts.
Import Retry.

Section Fetch.

Variables Response Error : Type.
Variable fetch : nat -> Response + Error.

Definition failed (attempt : nat) : Prop := exists error, fetch attempt = inr error.

Definition waitsBefore (first k : nat) : list nat :=
  map (fun attempt => 1000 * attempt) (seq first (k - first)).

(** How the promise settles when attempt [k] is the last one made. *)
Definition settledAt (retries k : nat) (settled : Settled Response Error) : Prop :=
  match fetch k with
  | inl response => settled = Resolved Error response
  | inr error => k = retries + 1 /\ settled = Rejected Response error
  end.

Lemma attempts_outcome (retries : nat) :
  forall (remaining attempt : nat) (waits : list nat),
    1 <= remaining -> attempt + remaining = retries + 2 ->
    exists k,
      attempt <= k <= retries + 1
      /\ (forall j, attempt <= j < k -> failed j)
      /\ settledAt retries k (fst (attempts fetch retries remaining attempt waits))
      /\ snd (attempts fetch retries remaining attempt waits)
         = waits ++ waitsBefore attempt k.
Proof.
  induction remaining as [|remaining IH]; intros attempt waits Hrem Hsum; [lia|].
  cbn [attempts]. destruct (fetch attempt) as [response | error] eqn:E.
  - exists attempt. split; [lia|]. split; [intros j Hj; lia|].
    split; [unfold settledAt; rewrite E; reflexivity|].
    unfold waitsBefore. rewrite Nat.sub_diag. cbn. now rewrite app_nil_r.
  - destruct (Nat.eqb_spec attempt (retries + 1)) as [Hlast | Hmore].
    + exists attempt. split; [lia|]. split; [intros j Hj; lia|].
      split; [unfold settledAt; rewrite E; split; [exact Hlast | reflexivity]|].
      unfold waitsBefore. rewrite Nat.sub_diag. cbn. now rewrite app_nil_r.
    + destruct (IH (S attempt) (waits ++ [1000 * attempt])) as [k (Hk & Hfail & Hset & Hw)];
        [lia | lia |].
      exists k. split; [lia|]. split.
      * intros j Hj. destruct (Nat.eq_dec j attempt) as [-> | Hne].
        -- exists error. exact E.
        -- apply Hfail. lia.
      * split; [exact Hset|]. rewrite Hw, <- app_assoc. f_equal.
        unfold waitsBefore.
        replace (k - attempt) with (S (k - S attempt)) by lia.
        reflexivity.
Qed.

End Fetch.

End RetryFacts.

(** X23.  [fetchWithRetry] makes the attempts 1, 2, ... in order and stops
    at some attempt k that is at most retries + 1: every attempt before k
    was rejected; if attempt k resolves, the promise resolves with its
    response; if it is rejected, k is retries + 1 and the promise is
    rejected with the error of that last attempt.  Before attempt k it has
    waited 1000 ms times the number of each earlier attempt.  The promise
    never resolves without a response. *)
Theorem fetch_retry_outcome (Response Error : Type) (fetch : nat -> Response + Error)
        (retries : nat) :
  exists k,
    1 <= k <= retries + 1
    /\ (forall j, 1 <= j < k -> RetryFacts.failed fetch j)
    /\ RetryFacts.settledAt fetch retries k (fst (Retry.fetchWithRetry fetch retries))
    /\ snd (Retry.fetchWithRetry fetch retries) = RetryFacts.waitsBefore 1 k
    /\ fst (Retry.fetchWithRetry fetch retries) <> Retry.ResolvedUndefined Response Error.
Proof.
  unfold Retry.fetchWithRetry.
  destruct (@RetryFacts.attempts_outcome Response Error fetch retries (retries + 1) 1 [])
    as [k (Hk & Hfail & Hset & Hw)]; [lia | lia |].
  exists k. repeat split; try assumption; try lia.
  unfold RetryFacts.settledAt in Hset.
  destruct (fetch k); [rewrite Hset | destruct Hset as [_ ->]]; discriminate.
Qed.

(** ** The project id of the address *)

Module ProjectIdFacts.
Import ProjectId.

Lemma digit_not_question (c : ascii) :
  JS.isDigit c = true -> Ascii.eqb c "?" = false.
Proof.
  intros H. destruct (Ascii.eqb_spec c "?") as [-> | _]; [|reflexivity].
  vm_compute in H. discriminate H.
Qed.

Lemma digit_not_white (c : ascii) : JS.isDigit c = true -> JS.isWhite c = false.
Proof.
  unfold JS.isDigit, JS.isWhite. cbv zeta. intros H.
  apply andb_true_iff in H. destruct H as [H1 H2].
  apply Nat.leb_le in H1. apply Nat.leb_le in H2.
  apply orb_false_iff. split.
  - apply Nat.eqb_neq. lia.
  - apply andb_false_iff. right. apply Nat.leb_gt. lia.
Qed.

Lemma skipWhite_digits (cs : list ascii) :
  forallb JS.isDigit cs = true -> JS.skipWhite cs = cs.
Proof.
  destruct cs as [|c r]; [reflexivity|]. cbn [forallb JS.skipWhite].
  intros H. apply andb_true_iff in H. destruct H as [H _].
  now rewrite (digit_not_white c H).
Qed.

Lemma forallb_rev (A : Type) (p : A -> bool) (l : list A) :
  forallb p l = true -> forallb p (rev l) = true.
Proof.
  intros H. apply forallb_forall. intros x Hx. apply in_rev in Hx.
  revert x Hx. apply forallb_forall. exact H.
Qed.

Lemma trim_digits (cs : list ascii) : forallb JS.isDigit cs = true -> trim cs = cs.
Proof.
  intros H. unfold trim. rewrite (skipWhite_digits cs H).
  rewrite (skipWhite_digits (rev cs) (forallb_rev _ _ H)). apply rev_involutive.
Qed.

Lemma digits_no_question (cs : list ascii) :
  forallb JS.isDigit cs = true -> includesQuestion cs = false.
Proof.
  unfold includesQuestion. induction cs as [|c r IH]; [reflexivity|].
  cbn [forallb existsb]. intros H. apply andb_true_iff in H. destruct H as [H1 H2].
  now rewrite (digit_not_question c H1), IH.
Qed.

Lemma beforeQuestion_digits (cs rest : list ascii) :
  forallb JS.isDigit cs = true -> beforeQuestion (cs ++ "?"%char :: rest) = cs.
Proof.
  induction cs as [|c r IH]; [reflexivity|].
  cbn [forallb app beforeQuestion]. intros H.
  apply andb_true_iff in H. destruct H as [H1 H2].
  now rewrite (digit_not_question c H1), IH.
Qed.

Lemma includesQuestion_app (cs rest : list ascii) :
  includesQuestion (cs ++ "?"%char :: rest) = true.
Proof.
  unfold includesQuestion. rewrite existsb_app. cbn. apply orb_true_r.
Qed.

Lemma allDigits_forallb (cs : list ascii) :
  allDigits cs = true -> forallb JS.isDigit cs = true /\ cs <> [].
Proof.
  destruct cs as [|c r]; [discriminate|]. intros H. split; [exact H | discriminate].
Qed.

(** What the function returns for an id that is there and not empty. *)
Lemma given_id (c : ascii) (r : list ascii) (project : option string)
      (cleaned : list ascii) :
  (if includesQuestion (c :: r) then beforeQuestion (c :: r) else c :: r) = cleaned ->
  allDigits (trim cleaned) = true ->
  getProjectIdFromUrl (Some (string_of_list_ascii (c :: r))) project
  = Some (string_of_list_ascii (trim cleaned)).
Proof.
  intros Hc Hd. unfold getProjectIdFromUrl.
  change (string_of_list_ascii (c :: r)) with (String c (string_of_list_ascii r)).
  cbn [orElse].
  change (String c (string_of_list_ascii r)) with (string_of_list_ascii (c :: r)).
  rewrite list_ascii_of_string_of_list_ascii. cbv zeta. rewrite Hc.
  destruct cleaned as [|x cleaned']; [discriminate Hd|].
  now rewrite Hd.
Qed.

End ProjectIdFacts.

(** X24.  What [getProjectIdFromUrl] returns is null, the empty string, or
    a string of decimal digits with at least one digit.  A [project_id] made
    of digits is returned as it is, whatever [project] is, and so is its
    part before a question mark when it is followed by one. *)
Theorem project_id_is_digits (project_id project : option string) :
  match ProjectId.getProjectIdFromUrl project_id project with
  | None => True
  | Some s => s = EmptyString \/ ProjectId.allDigits (list_ascii_of_string s) = true
  end
  /\ forall (digits rest : list ascii),
       ProjectId.allDigits digits = true ->
       ProjectId.getProjectIdFromUrl (Some (string_of_list_ascii digits)) project
       = Some (string_of_list_ascii digits)
       /\ ProjectId.getProjectIdFromUrl
            (Some (string_of_list_ascii (digits ++ "?"%char :: rest))) project
          = Some (string_of_list_ascii digits).
Proof.
  split.
  - unfold ProjectId.getProjectIdFromUrl.
    destruct (ProjectId.orElse project_id project) as [[|c s]|]; [left; reflexivity| |exact I].
    cbv zeta.
    destruct (if ProjectId.includesQuestion _ then _ else _) as [|x cleaned];
      [left; reflexivity|].
    destruct (ProjectId.allDigits (ProjectId.trim (x :: cleaned))) eqn:E; [|exact I].
    cbn [negb]. right. now rewrite list_ascii_of_string_of_list_ascii.
  - intros digits rest Hd.
    destruct (ProjectIdFacts.allDigits_forallb digits Hd) as [Hall Hne].
    destruct digits as [|c r]; [congruence|].
    split.
    + rewrite (@ProjectIdFacts.given_id c r project (c :: r)).
      * now rewrite (ProjectIdFacts.trim_digits _ Hall).
      * now rewrite (ProjectIdFacts.digits_no_question _ Hall).
      * now rewrite (ProjectIdFacts.trim_digits _ Hall).
    + change ((c :: r) ++ "?"%char :: rest) with (c :: (r ++ "?"%char :: rest)).
      rewrite (@ProjectIdFacts.given_id c (r ++ "?"%char :: rest) project (c :: r)).
      * now rewrite (ProjectIdFacts.trim_digits _ Hall).
      * change (c :: r ++ "?"%char :: rest) with ((c :: r) ++ "?"%char :: rest).
        rewrite ProjectIdFacts.includesQuestion_app.
        apply ProjectIdFacts.beforeQuestion_digits. exact Hall.
      * now rewrite (ProjectIdFacts.trim_digits _ Hall).
Qed.

(** ** The centre of the site *)

Module SiteCenterFacts.
Local Open Scope R_scope.

Lemma fold_sum_bounds (g : Point -> R) (a b : R) (l : list Point) :
  (forall p, In p l -> a <= g p <= b) ->
  forall acc,
    acc + INR (length l) * a <= fold_left (fun sum coord => sum + g coord) l acc
    /\ fold_left (fun sum coord => sum + g coord) l acc <= acc + INR (length l) * b.
Proof.
  induction l as [|p l IH]; intros H acc.
  - cbn. lra.
  - change (length (p :: l)) with (S (length l)). rewrite S_INR. cbn [fold_left].
    destruct (IH (fun q Hq => H q (or_intror Hq)) (acc + g p)) as [I1 I2].
    pose proof (H p (or_introl eq_refl)). lra.
Qed.

Lemma mean_bounds (g : Point -> R) (a b : R) (l : list Point) :
  l <> [] ->
  (forall p, In p l -> a <= g p <= b) ->
  a <= fold_left (fun sum coord => sum + g coord) l 0 / INR (length l) <= b.
Proof.
  intros Hl H.
  assert (Hn : 0 < INR (length l))
    by (apply lt_0_INR; destruct l; [congruence | cbn; lia]).
  destruct (@fold_sum_bounds g a b l H 0) as [I1 I2].
  pose proof (Rinv_0_lt_compat _ Hn) as Hinv.
  assert (Hone : INR (length l) * / INR (length l) = 1) by (field; lra).
  assert (E1 : (0 + INR (length l) * a) * / INR (length l)
               <= fold_left (fun sum coord => sum + g coord) l 0 * / INR (length l))
    by (apply Rmult_le_compat_r; lra).
  assert (E2 : fold_left (fun sum coord => sum + g coord) l 0 * / INR (length l)
               <= (0 + INR (length l) * b) * / INR (length l))
    by (apply Rmult_le_compat_r; lra).
  assert (Ha : (0 + INR (length l) * a) * / INR (length l) = a)
    by (transitivity (a * (INR (length l) * / INR (length l))); [ring | rewrite Hone; ring]).
  assert (Hb : (0 + INR (length l) * b) * / INR (length l) = b)
    by (transitivity (b * (INR (length l) * / INR (length l))); [ring | rewrite Hone; ring]).
  unfold Rdiv. lra.
Qed.

End SiteCenterFacts.

(** X25.  The centre that [handleSiteBoundaryCreated] stores for a boundary
    with a point lies within the extent of the points of the event: its
    longitude is between any two bounds of their longitudes and its latitude
    between any two bounds of their latitudes; the coordinates and the area
    are stored as the event gives them. *)
Theorem site_center_within_extent (coordinates : list Point) (area west east south north : R) :
  coordinates <> [] ->
  (forall p, In p coordinates ->
             (west <= lng p <= east)%R /\ (south <= lat p <= north)%R) ->
  let siteData := SiteInspectorCore.handleSiteBoundaryCreated coordinates area in
  sd_coordinates siteData = Some (map CoordArray coordinates)
  /\ sd_area siteData = Some area
  /\ exists center,
       sd_center siteData = Some center
       /\ (west <= lngOf center <= east)%R /\ (south <= latOf center <= north)%R.
Proof.
  intros Hne Hbox siteData. split; [reflexivity|]. split; [reflexivity|].
  eexists. split; [reflexivity|]. cbn [lngOf latOf]. split.
  - apply SiteCenterFacts.mean_bounds; [exact Hne|]. intros p Hp. apply (Hbox p Hp).
  - apply SiteCenterFacts.mean_bounds; [exact Hne|]. intros p Hp. apply (Hbox p Hp).
Qed.

Lemma site_center_within_extent_witness :
  exists center,
    sd_center (SiteInspectorCore.handleSiteBoundaryCreated OutlineFacts.outline 12)
    = Some center
    /\ (0 <= lngOf center <= 4)%R /\ (0 <= latOf center <= 3)%R.
Proof.
  refine (proj2 (proj2 (@site_center_within_extent OutlineFacts.outline 12 0 4 0 3 _ _))).
  - discriminate.
  - intros p [<-|[<-|[<-|[<-|[]]]]]; cbn; lra.
Defined.
